(** * paasta_tools.kubernetes_tools: a shallow embedding and its properties

    The development follows [paasta_tools/kubernetes_tools.py].  Python
    integers are [Z], Python floats are IEEE-754 binary64 values
    ([spec_float] with [prec = 53] and [emax = 1024]), [str] is [string],
    [None]-able values are [option], raised exceptions are the [Raise]
    side of [result], and dictionaries are insertion-ordered association
    lists whose Python equality is decided on their canonical [gmap] form. *)

From Stdlib Require Import ZArith String Ascii List Bool Lia.
From Stdlib Require Import Floats.SpecFloat.
From Stdlib Require Import DecimalString.
From stdpp Require Import gmap strings list fin_maps.

Local Open Scope string_scope.
Local Open Scope Z_scope.

(** ** Exceptions *)

(** The exceptions the modelled methods raise.  The source raises a bare
    [Exception] with a message in [get_bounce_method] and
    [get_desired_instances]; the constructors carry the names the
    specification gives to these failures. *)
Inductive error : Type :=
  | IncompatibleBounceMethod   (* "... it must use a downthenup bounce_method" *)
  | InvalidReplicaCount        (* "Number of instances must be 1 or 0 ..." *)
  | UnknownBounceMethod        (* "Unknown bounce method for RollingUpdate." *)
  | InvalidPlacementOperator (op : string)  (* ValueError, unknown operator *)
  | KeyError (key : string)    (* a missing dictionary key *)
  | TypeError                  (* an operation on a value of the wrong type *)
  | AttributeError             (* a method missing on a value, [x.items()] *)
  | ValueError                 (* int() / math.ceil() of a NaN *)
  | OverflowError              (* int() / math.ceil() of an infinity,
                                  float() of an integer out of range *)
  | InvalidKubernetesConfig (cause : error) (service instance : string).

Inductive result (A : Type) : Type :=
  | Return (a : A)
  | Raise (e : error).
Arguments Return {A} a.
Arguments Raise {A} e.

(** Sequencing: an exception raised by the first computation propagates. *)
#[global] Instance result_bind : MBind result := fun A B k r =>
  match r with
  | Return a => k a
  | Raise e => Raise e
  end.
#[global] Instance result_ret : MRet result := fun A a => Return a.

(** ** Deploy status *)

(** [KubernetesDeployStatus] restricted to the values
    [get_kubernetes_app_deploy_status] produces. *)
Inductive KubernetesDeployStatus : Type :=
  | Running | Deploying | Waiting | Stopped.

(** [app.status] of a [V1Deployment] or [V1StatefulSet]: the three replica
    counters the function reads. *)
Record app_status : Type := {
  ready_replicas : option Z;
  updated_replicas : option Z;
  replicas : Z
}.

(** [get_kubernetes_app_deploy_status]; the deploy message is always the
    empty string and is left out. *)
Definition get_kubernetes_app_deploy_status
    (status : app_status) (desired_instances : Z) : KubernetesDeployStatus :=
  match ready_replicas status with
  | None =>
      if desired_instances =? 0 then Stopped else Waiting
  | Some ready =>
      if negb (ready =? desired_instances) then Waiting
      else
        match updated_replicas status with
        | Some updated =>
            if updated <? desired_instances then Deploying
            else if (replicas status =? 0) && (desired_instances =? 0)
                 then Stopped else Running
        | None =>
            if (replicas status =? 0) && (desired_instances =? 0)
            then Stopped else Running
        end
  end.

#[local] Instance present_and_less_dec (updated : option Z) (desired : Z) :
  Decision (∃ u, updated = Some u ∧ u < desired).
Proof.
  destruct updated as [u|].
  - destruct (decide (u < desired)) as [Hlt|Hge].
    + left. exists u. split; [reflexivity | exact Hlt].
    + right. intros (u' & Heq & Hlt). inversion Heq. subst. contradiction.
  - right. intros (u' & Heq & _). discriminate.
Defined.

(** The five rules of the specification, read top to bottom. *)
Definition status_by_rules
    (desired : Z) (ready updated : option Z) (total : Z)
    : KubernetesDeployStatus :=
  if bool_decide (ready = None) then
    (if bool_decide (desired = 0) then Stopped else Waiting)
  else if bool_decide (ready ≠ Some desired) then Waiting
  else if bool_decide (∃ u, updated = Some u ∧ u < desired) then Deploying
  else if bool_decide (total = 0 ∧ desired = 0) then Stopped
  else Running.

(** ** Python floats: IEEE-754 binary64 *)

Definition prec : Z := 53.
Definition emax : Z := 1024.

Abbreviation float := spec_float.

Definition float_sub : float -> float -> float := SFsub prec emax.
Definition float_mul : float -> float -> float := SFmul prec emax.
Definition float_div : float -> float -> float := SFdiv prec emax.

(** The float nearest to an integer (ties to even); an infinity when the
    integer is out of range. *)
Definition Z_to_float (n : Z) : float := binary_normalize prec emax n 0 false.

(** The implicit [int -> float] conversion of mixed arithmetic: "int too
    large to convert to float" is an [OverflowError]. *)
Definition float_of_int (n : Z) : result float :=
  match Z_to_float n with
  | S754_infinity _ => Raise OverflowError
  | x => Return x
  end.

(** [int(x)] for a float [x]: truncation toward zero. *)
Definition int_of_float (x : float) : result Z :=
  match x with
  | S754_zero _ => Return 0
  | S754_finite s m e => Return (cond_Zopp s (Z.shiftl (Z.pos m) e))
  | S754_infinity _ => Raise OverflowError
  | S754_nan => Raise ValueError
  end.

(** [math.ceil(x)] for a float [x]: the least integer not below [x]. *)
Definition math_ceil (x : float) : result Z :=
  match x with
  | S754_zero _ => Return 0
  | S754_finite s m e =>
      Return (- Z.shiftl (- cond_Zopp s (Z.pos m)) e)
  | S754_infinity _ => Raise OverflowError
  | S754_nan => Raise ValueError
  end.

(** A float that is a number: not a NaN and not an infinity. *)
Definition is_finite (x : float) : bool :=
  match x with
  | S754_zero _ | S754_finite _ _ _ => true
  | _ => false
  end.

(** A well-formed binary64 value strictly above zero and at most one. *)
Definition in_unit_interval (x : float) : bool :=
  valid_binary prec emax x
  && SFltb (S754_zero false) x
  && SFleb x (Z_to_float 1).

(** A number: zero, or finite with [digits m + e <= B] (so of magnitude
    below [2^B]) and an exponent of at most [E]. *)
Definition float_within (B E : Z) (x : float) : bool :=
  match x with
  | S754_zero _ => true
  | S754_finite _ m e => (Z.pos (digits2_pos m) + e <=? B) && (e <=? E)
  | _ => false
  end.


(** [0.9], that is [0x1.ccccccccccccdp-1]. *)
Definition float_0_9 : float := S754_finite false 8106479329266893 (-53).
(** [0.75], that is [0x1.8p-1]. *)
Definition float_0_75 : float := S754_finite false 6755399441055744 (-53).

(** ** Python strings *)

(** [str(n)] and ["{}".format(n)] for an integer [n]. *)
Definition str_of_int (n : Z) : string := NilZero.string_of_int (Z.to_int n).

(** [s.replace(old, new)] for a one-character [old]. *)
Fixpoint str_replace_char (old : ascii) (new s : string) : string :=
  match s with
  | EmptyString => EmptyString
  | String c s' =>
      if Ascii.eqb c old then new +:+ str_replace_char old new s'
      else String c (str_replace_char old new s')
  end.

Fixpoint str_drop (n : nat) (s : string) : string :=
  match n, s with
  | O, _ => s
  | S n', String _ s' => str_drop n' s'
  | S _, EmptyString => EmptyString
  end.

(** [s.replace(old, new, 1)]: only the leftmost occurrence is replaced. *)
Fixpoint str_replace_first (old new s : string) : string :=
  if String.prefix old s then new +:+ str_drop (String.length old) s
  else
    match s with
    | EmptyString => EmptyString
    | String c s' => String c (str_replace_first old new s')
    end.

(** [str.lower] on one ASCII character; bytes outside [A-Z] are kept. *)
Definition lower_ascii (c : ascii) : ascii :=
  let n := N_of_ascii c in
  if ((65 <=? n) && (n <=? 90))%N then ascii_of_N (n + 32) else c.

(** [s.lower()] for strings of ASCII characters. *)
Fixpoint str_lower (s : string) : string :=
  match s with
  | EmptyString => EmptyString
  | String c s' => String (lower_ascii c) (str_lower s')
  end.

(** [sanitise_kubernetes_name]. *)
Definition sanitise_kubernetes_name (service : string) : string :=
  let name := str_replace_char "_" "--" service in
  let name :=
    if String.prefix "--" name then str_replace_first "--" "underscore-" name
    else name in
  str_lower name.

(** [get_kubernetes_app_name]. *)
Definition get_kubernetes_app_name (service instance : string) : string :=
  sanitise_kubernetes_name service +:+ "-" +:+ sanitise_kubernetes_name instance.

(** [to_node_label]: the Kubernetes spelling of some node labels. *)
Definition to_node_label (label : string) : string :=
  if bool_decide (label ∈ ["instance_type"; "instance-type"]) then
    "node.kubernetes.io/instance-type"
  else if bool_decide (label ∈ ["datacenter"; "ecosystem"; "habitat";
                                 "hostname"; "region"; "superregion"]) then
    "yelp.com/" +:+ label
  else label.

(** The alphabet of the sanitiser's contract: letters, digits, ['-'], ['_']. *)
Definition is_name_char (c : ascii) : bool :=
  let n := N_of_ascii c in
  ((65 <=? n) && (n <=? 90) || (97 <=? n) && (n <=? 122)
   || (48 <=? n) && (n <=? 57) || (n =? 45) || (n =? 95))%N.

Fixpoint str_forall (p : ascii -> bool) (s : string) : bool :=
  match s with
  | EmptyString => true
  | String c s' => p c && str_forall p s'
  end.

(** A character other than ['-'], and strings made of such characters. *)
Definition not_dash (c : ascii) : bool := negb (Ascii.eqb c "-").
Definition dash_free (s : string) : bool := str_forall not_dash s.

(** Letters, digits and ['_']: the alphabet without the dash. *)
Definition is_dashless_name_char (c : ascii) : bool :=
  is_name_char c && not_dash c.

(** The escape of underscores, the first step of the sanitiser. *)
Definition escape (s : string) : string := str_replace_char "_" "--" s.

(** The sanitiser before lower-casing, by cases on the first character. *)
Definition mark (s : string) : string :=
  match s with
  | String c t =>
      if Ascii.eqb c "_" then "underscore-" +:+ escape t else escape s
  | EmptyString => EmptyString
  end.

(** ** The service configuration *)

Definition KUBE_DEPLOY_STATEGY_MAP : list (string * string) :=
  [ ("crossover", "RollingUpdate");
    ("downthenup", "Recreate");
    ("brutal", "RollingUpdate") ].

Definition PAASTA_ATTRIBUTE_PREFIX : string := "paasta.yelp.com/".
Definition CONFIG_HASH_BLACKLIST : list string := ["replicas"].

(** Python dictionaries keep insertion order: an association list, read
    with [d.get(k)] (the first binding of [k]). *)
Fixpoint dict_get {V : Type} (k : string) (d : list (string * V)) : option V :=
  match d with
  | [] => None
  | (k', v) :: d' => if String.eqb k' k then Some v else dict_get k d'
  end.

(** [d[k] = v]: an existing key keeps its position, a new key goes last. *)
Fixpoint dict_set {V : Type} (k : string) (v : V) (d : list (string * V))
    : list (string * V) :=
  match d with
  | [] => [(k, v)]
  | (k', v') :: d' =>
      if String.eqb k' k then (k, v) :: d' else (k', v') :: dict_set k v d'
  end.

(** [d[k]], which raises [KeyError] on a missing key. *)
Definition dict_item {V : Type} (k : string) (d : list (string * V)) : result V :=
  match dict_get k d with
  | Some v => Return v
  | None => Raise (KeyError k)
  end.

(** [AutoscalingParamsDict], every key optional. *)
Record AutoscalingParamsDict : Type := {
  metrics_provider : option string;
  decision_policy : option string;
  setpoint : option float;
  forecast_policy : option string;
  offset : option float;
  moving_average_window_seconds : option Z
}.

(** A mapping inside a [node_selectors] list, with the keys ["operator"],
    ["values"] and ["value"]. *)
Record selector_config : Type := {
  sc_operator : option string;
  sc_values : option (list string);
  sc_value : option Z
}.

(** The value bound to a label in [node_selectors]: a string, a list of
    strings, a list of mappings, or anything else. *)
Inductive selector_value : Type :=
  | SelStr (s : string)
  | SelStrList (values : list string)
  | SelConfigList (configs : list selector_config)
  | SelOther.

(** [KubeAffinityCondition]: a mapping read at ["service"] and
    ["instance"]; other keys are carried but never read. *)
Definition KubeAffinityCondition : Type := list (string * string).

(** The [anti_affinity] entry: one condition or a list of conditions. *)
Inductive anti_affinity_config : Type :=
  | OneCondition (c : KubeAffinityCondition)
  | ConditionList (cs : list KubeAffinityCondition).

(** The keys of [KubernetesDeploymentConfigDict] read by the modelled
    methods; [None] is an absent key. *)
Record KubernetesDeploymentConfigDict : Type := {
  bounce_method : option string;
  bounce_margin_factor : option float;
  autoscaling : option AutoscalingParamsDict;
  min_instances : option Z;
  max_instances : option Z;
  node_selectors : option (list (string * selector_value));
  anti_affinity : option anti_affinity_config
}.

Record KubernetesDeploymentConfig : Type := {
  service : string;
  instance : string;
  cluster : string;
  config_dict : KubernetesDeploymentConfigDict
}.

Definition get_service (self : KubernetesDeploymentConfig) : string :=
  service self.
Definition get_instance (self : KubernetesDeploymentConfig) : string :=
  instance self.
Definition get_cluster (self : KubernetesDeploymentConfig) : string :=
  cluster self.

(** A volume of either kind is only tested for presence. *)
Record AwsEbsVolume : Type := { volume_id : string; ebs_container_path : string }.
Record PersistentVolume : Type := { pv_container_path : string; pv_size : Z }.

(** The methods [KubernetesDeploymentConfig] inherits from
    [LongRunningServiceConfig] and [InstanceConfig], and the system-wide
    settings it loads: their code lives in other modules of the
    repository, so they are an interface here. *)
Class LongRunningServiceConfig : Type := {
  get_desired_state : KubernetesDeploymentConfig -> string;
  is_autoscaling_enabled : KubernetesDeploymentConfig -> bool;
  super_get_desired_instances : KubernetesDeploymentConfig -> Z;
  get_aws_ebs_volumes : KubernetesDeploymentConfig -> list AwsEbsVolume;
  get_persistent_volumes : KubernetesDeploymentConfig -> list PersistentVolume;
  get_deploy_whitelist :
    KubernetesDeploymentConfig -> option (string * list string);
  get_deploy_blacklist : KubernetesDeploymentConfig -> list (string * string);
  get_env : KubernetesDeploymentConfig -> list (string * string);
  (* load_system_paasta_config() *)
  get_hpa_always_uses_external_for_signalfx : bool;
  (* load_system_paasta_config().get_legacy_autoscaling_signalflow().format(
       setpoint, offset, moving_average_window_seconds, paasta_service,
       paasta_instance, paasta_cluster, signalfx_metric_name) *)
  format_legacy_autoscaling_signalflow :
    float -> float -> Z -> string -> string -> string -> string -> string
}.

(** Truthiness of a Python list. *)
Definition nonempty {A : Type} (l : list A) : bool :=
  match l with [] => false | _ => true end.

(** ** Kubernetes objects *)

Record V1RollingUpdateDeployment : Type := {
  max_surge : string;
  ru_max_unavailable : string
}.

Record V1DeploymentStrategy : Type := {
  strategy_type : string;
  rolling_update : option V1RollingUpdateDeployment
}.

Record V1NodeSelectorRequirement : Type := {
  key : string;
  operator : string;
  values : list string
}.

Record V1NodeSelectorTerm : Type := {
  match_expressions : list V1NodeSelectorRequirement
}.

Record V1NodeSelector : Type := {
  node_selector_terms : list V1NodeSelectorTerm
}.

Record V1NodeAffinity : Type := {
  required_node_selector : V1NodeSelector
  (* required_during_scheduling_ignored_during_execution *)
}.

Record V1LabelSelector : Type := {
  match_labels : list (string * option string)
}.

Record V1PodAffinityTerm : Type := {
  topology_key : string;
  label_selector : V1LabelSelector
}.

Record V1PodAntiAffinity : Type := {
  required_pod_affinity_terms : list V1PodAffinityTerm
  (* required_during_scheduling_ignored_during_execution *)
}.

Record V1Affinity : Type := {
  node_affinity : option V1NodeAffinity;
  pod_anti_affinity : option V1PodAntiAffinity
}.

Inductive V2beta2MetricSpec : Type :=
  | ResourceMetric (name : string) (average_utilization : Z)
  | ExternalMetric (metric_name : string) (value : Z)
  | PodsMetric (metric_name : string) (paasta_cluster : string)
               (average_value : float).

Record HPAScalingRule : Type := {
  policy_type : string;
  policy_value : Z;
  period_seconds : Z
}.

Record HPAScalingPolicy : Type := {
  stabilization_window_seconds : Z;
  select_policy : string;
  policies : list HPAScalingRule
}.

(** The autoscaler [get_autoscaling_metric_spec] returns, after the
    scale-down behaviour is patched into its JSON form. *)
Record HorizontalPodAutoscaler : Type := {
  hpa_name : string;
  hpa_namespace : string;
  hpa_annotations : list (string * string);
  hpa_max_replicas : option Z;
  hpa_min_replicas : Z;
  hpa_metrics : list V2beta2MetricSpec;
  hpa_scale_target_ref : string * string * string;
  hpa_behavior : option HPAScalingPolicy
}.

(** ** Methods of [KubernetesDeploymentConfig] *)

Section Methods.
Context `{LongRunningServiceConfig}.

Definition get_bounce_method (self : KubernetesDeploymentConfig) : result string :=
  let bounce_method := default "crossover" (bounce_method (config_dict self)) in
  if nonempty (get_aws_ebs_volumes self)
     && negb (String.eqb bounce_method "downthenup")
  then Raise IncompatibleBounceMethod
  else Return bounce_method.

(** The literal [1.0]. *)
Definition float_one : float := Z_to_float 1.

Definition get_bounce_margin_factor (self : KubernetesDeploymentConfig) : float :=
  default float_one (bounce_margin_factor (config_dict self)).

Definition get_deployment_strategy_config (self : KubernetesDeploymentConfig)
    : result V1DeploymentStrategy :=
  bounce_method ← get_bounce_method self;
  strategy_type ← dict_item bounce_method KUBE_DEPLOY_STATEGY_MAP;
  rolling_update ←
    (if String.eqb strategy_type "RollingUpdate" then
       let max_surge := "100%" in
       max_unavailable ←
         (if String.eqb bounce_method "crossover" then
            percent ← int_of_float
              (float_mul (float_sub (Z_to_float 1) (get_bounce_margin_factor self))
                         (Z_to_float 100));
            Return (str_of_int percent +:+ "%")
          else if String.eqb bounce_method "brutal" then
            Return "100%"
          else Raise UnknownBounceMethod);
       Return (Some {| max_surge := max_surge;
                       ru_max_unavailable := max_unavailable |})
     else Return None);
  Return {| strategy_type := strategy_type; rolling_update := rolling_update |}.

Definition get_min_instances (self : KubernetesDeploymentConfig) : Z :=
  default 1 (min_instances (config_dict self)).

Definition get_max_instances (self : KubernetesDeploymentConfig) : option Z :=
  max_instances (config_dict self).


(** The literal [0.8]. *)
Definition default_setpoint : float := float_div (Z_to_float 8) (Z_to_float 10).

(** [get_autoscaling_params]: the ["autoscaling"] entry merged over the
    defaults, so the first three keys are always bound. *)
Definition get_autoscaling_params (self : KubernetesDeploymentConfig)
    : AutoscalingParamsDict :=
  let overrides :=
    default {| metrics_provider := None; decision_policy := None;
               setpoint := None; forecast_policy := None; offset := None;
               moving_average_window_seconds := None |}
            (autoscaling (config_dict self)) in
  {| metrics_provider := Some (default "mesos_cpu" (metrics_provider overrides));
     decision_policy := Some (default "proportional" (decision_policy overrides));
     setpoint := Some (default default_setpoint (setpoint overrides));
     forecast_policy := forecast_policy overrides;
     offset := offset overrides;
     moving_average_window_seconds := moving_average_window_seconds overrides |}.

(** [params[k]] on the merged parameters. *)
Definition param {V : Type} (k : string) (v : option V) : result V :=
  match v with
  | Some x => Return x
  | None => Raise (KeyError k)
  end.

Definition get_autoscaling_scaling_policy (max_replicas : option Z)
    : HPAScalingPolicy :=
  {| stabilization_window_seconds := 300;
     select_policy := "Max";
     policies := [ {| policy_type := "Percent"; policy_value := 30;
                      period_seconds := 60 |} ] |}.

Definition get_sanitised_deployment_name (self : KubernetesDeploymentConfig)
    : string :=
  get_kubernetes_app_name (get_service self) (get_instance self).

Definition namespace_external_metric_name
    (self : KubernetesDeploymentConfig) (metric_name : string) : string :=
  get_sanitised_deployment_name self +:+ "-" +:+ metric_name.

Definition get_autoscaling_metric_spec
    (self : KubernetesDeploymentConfig) (name cluster namespace : string)
    : result (option HorizontalPodAutoscaler) :=
  if String.eqb (get_desired_state self) "stop" then Return None
  else if negb (is_autoscaling_enabled self) then Return None
  else
    let autoscaling_params := get_autoscaling_params self in
    policy ← param "decision_policy" (decision_policy autoscaling_params);
    if String.eqb policy "bespoke" then Return None
    else
      let min_replicas := get_min_instances self in
      let max_replicas := get_max_instances self in
      if (min_replicas =? 0) || bool_decide (max_replicas = Some 0)
      then Return None
      else
        provider ← param "metrics_provider" (metrics_provider autoscaling_params);
        target ← param "setpoint" (setpoint autoscaling_params);
        built ←
          (if String.eqb provider "mesos_cpu" then
             utilization ← int_of_float (float_mul target (Z_to_float 100));
             Return (Some ([], [ResourceMetric "cpu" utilization]))
           else if bool_decide (provider ∈ ["http"; "uwsgi"]) then
             let annotations := [("signalfx.com.custom.metrics", "")] in
             if bool_decide (forecast_policy autoscaling_params
                               = Some "moving_average")
                || bool_decide (is_Some (offset autoscaling_params))
                || get_hpa_always_uses_external_for_signalfx
             then
               let hpa_metric_name :=
                 namespace_external_metric_name self provider in
               let signalflow :=
                 format_legacy_autoscaling_signalflow
                   target
                   (default (Z_to_float 0) (offset autoscaling_params))
                   (default 1800
                      (moving_average_window_seconds autoscaling_params))
                   (get_service self) (get_instance self) (get_cluster self)
                   provider in
               Return (Some
                 (dict_set ("signalfx.com.external.metric/" +:+ hpa_metric_name)
                           signalflow annotations,
                  [ExternalMetric hpa_metric_name 1]))
             else
               Return (Some (annotations, [PodsMetric provider cluster target]))
           else Return None);
        match built with
        | None => Return None
        | Some (annotations, metrics) =>
            Return (Some
              {| hpa_name := name;
                 hpa_namespace := namespace;
                 hpa_annotations := annotations;
                 hpa_max_replicas := max_replicas;
                 hpa_min_replicas := min_replicas;
                 hpa_metrics := metrics;
                 hpa_scale_target_ref := ("apps/v1", "Deployment", name);
                 hpa_behavior :=
                   Some (get_autoscaling_scaling_policy max_replicas) |})
        end.

End Methods.


(** ** Placement *)

(** [affinity.pod_anti_affinity = anti]. *)
Definition set_pod_anti_affinity (affinity : V1Affinity) (anti : V1PodAntiAffinity)
    : V1Affinity :=
  {| node_affinity := node_affinity affinity; pod_anti_affinity := Some anti |}.

Section Placement.
Context `{LongRunningServiceConfig}.

Definition requirement : Type := string * string * list string.

Definition _whitelist_blacklist_to_requirements
    (self : KubernetesDeploymentConfig) : list requirement :=
  let from_whitelist :=
    match get_deploy_whitelist self with
    | Some (location_type, alloweds) =>
        [(to_node_label location_type, "In", alloweds)]
    | None => []
    end in
  let from_blacklist :=
    map (fun '(location_type, not_allowed) =>
           (to_node_label location_type, "NotIn", [not_allowed]))
        (get_deploy_blacklist self) in
  (from_whitelist ++ from_blacklist)%list.

(** The body of the inner loop of [_raw_selectors_to_requirements]. *)
Definition config_to_requirement (label : string) (config : selector_config)
    : result requirement :=
  op ← param "operator" (sc_operator config);
  vs ←
    (if bool_decide (op ∈ ["In"; "NotIn"]) then
       param "values" (sc_values config)
     else if bool_decide (op ∈ ["Exists"; "DoesNotExist"]) then
       Return []
     else if bool_decide (op ∈ ["Gt"; "Lt"]) then
       v ← param "value" (sc_value config);
       Return [str_of_int v]
     else Raise (InvalidPlacementOperator op));
  Return (label, op, vs).

(** [for x in xs: ...], stopping at the first exception and collecting
    what every iteration appends. *)
Fixpoint for_each {A B : Type} (f : A -> result (list B)) (xs : list A)
    : result (list B) :=
  match xs with
  | [] => Return []
  | x :: xs' =>
      ys ← f x;
      rest ← for_each f xs';
      Return (ys ++ rest)%list
  end.

Definition _raw_selectors_to_requirements
    (self : KubernetesDeploymentConfig) : result (list requirement) :=
  let raw_selectors := default [] (node_selectors (config_dict self)) in
  for_each
    (fun '(label, configs) =>
       let configs :=
         match configs with
         | SelStrList [] | SelConfigList [] | SelStr _ | SelOther => None
         | SelStrList vs =>
             Some [ {| sc_operator := Some "In"; sc_values := Some vs;
                       sc_value := None |} ]
         | SelConfigList cs => Some cs
         end in
       match configs with
       | None => Return []
       | Some configs =>
           let label := to_node_label label in
           for_each (fun config =>
                       r ← config_to_requirement label config;
                       Return [r])
                    configs
       end)
    raw_selectors.

Definition get_node_affinity (self : KubernetesDeploymentConfig)
    : result (option V1NodeAffinity) :=
  let requirements := _whitelist_blacklist_to_requirements self in
  extension ← _raw_selectors_to_requirements self;
  let requirements := (requirements ++ extension)%list in
  if (length requirements =? 0)%nat then Return None
  else
    let term :=
      {| match_expressions :=
           map (fun '(key, op, vs) =>
                  {| key := key; operator := op; values := vs |})
               requirements |} in
    let selector := {| node_selector_terms := [term] |} in
    Return (Some {| required_node_selector := selector |}).

Definition dict_has {V : Type} (k : string) (d : list (string * V)) : bool :=
  bool_decide (is_Some (dict_get k d)).

Definition _kube_affinity_condition_to_label_selector
    (condition : KubeAffinityCondition) : option V1LabelSelector :=
  let labels : list (string * option string) := [] in
  let labels :=
    if dict_has "service" condition
    then dict_set (PAASTA_ATTRIBUTE_PREFIX +:+ "service")
                  (dict_get "service" condition) labels
    else labels in
  let labels :=
    if dict_has "instance" condition
    then dict_set (PAASTA_ATTRIBUTE_PREFIX +:+ "instance")
                  (dict_get "instance" condition) labels
    else labels in
  if nonempty labels then Some {| match_labels := labels |} else None.

Definition get_pod_anti_affinity (self : KubernetesDeploymentConfig)
    : option V1PodAntiAffinity :=
  let conditions := default (ConditionList []) (anti_affinity (config_dict self)) in
  let truthy :=
    match conditions with
    | OneCondition c => nonempty c
    | ConditionList cs => nonempty cs
    end in
  if negb truthy then None
  else
    let conditions :=
      match conditions with
      | OneCondition c => [c]
      | ConditionList cs => cs
      end in
    let affinity_terms :=
      omap (fun condition =>
              match _kube_affinity_condition_to_label_selector condition with
              | Some label_selector =>
                  Some {| topology_key := "kubernetes.io/hostname";
                          label_selector := label_selector |}
              | None => None
              end)
           conditions in
    Some {| required_pod_affinity_terms := affinity_terms |}.

(** The node affinity built from a non-empty list of requirements. *)
Definition affinity_of_requirements (requirements : list requirement)
    : V1NodeAffinity :=
  {| required_node_selector :=
       {| node_selector_terms :=
            [ {| match_expressions :=
                   map (fun '(key, op, vs) =>
                          {| key := key; operator := op; values := vs |})
                       requirements |} ] |} |}.

End Placement.

(** ** Pod disruption budget *)

(** [max_unavailable]: the product is a float product, after the implicit
    conversion of [instance_count]. *)
Definition max_unavailable (instance_count : Z) (bounce_margin_factor : float)
    : result Z :=
  if instance_count =? 0 then Return 0
  else
    count ← float_of_int instance_count;
    ceiling ← math_ceil (float_mul count bounce_margin_factor);
    Return (Z.max (instance_count - ceiling) 1).

(** ** Config hash *)

Local Set Warnings "-register-all".

(** The values of [config.to_dict()]: JSON-like data. *)
Inductive pyval : Type :=
  | PNone
  | PBool (b : bool)
  | PInt (n : Z)
  | PFloat (x : float)
  | PStr (s : string)
  | PList (items : list pyval)
  | PDict (entries : list (string * pyval)).




(** The external lookups of [get_kubernetes_secret_hashes]: which
    environment values are secret references, and the signature the
    cluster stores for a secret ([None] when there is none). *)
Class SecretStore : Type := {
  is_secret_ref : string -> bool;
  get_secret_name_from_ref : string -> string;
  is_shared_secret : string -> bool;
  SHARED_SECRET_SERVICE : string;
  read_signature : string -> option string
    (* read_namespaced_config_map(name).data["signature"] *)
}.

Section ConfigHash.
Context `{LongRunningServiceConfig} `{SecretStore}.

Definition get_kubernetes_secret_signature (secret service : string)
    : option string :=
  let service := sanitise_kubernetes_name service in
  let secret := sanitise_kubernetes_name secret in
  read_signature ("paasta-secret-" +:+ service +:+ "-" +:+ secret +:+ "-signature").

Definition get_kubernetes_secret_hashes
    (environment_variables : list (string * string)) (service : string)
    : list (string * pyval) :=
  let to_get_hash := filter (fun v => Is_true (is_secret_ref v))
                            (map snd environment_variables) in
  fold_left
    (fun hashes value =>
       dict_set value
         (match get_kubernetes_secret_signature
                  (get_secret_name_from_ref value)
                  (if is_shared_secret value then SHARED_SECRET_SERVICE
                   else service) with
          | Some signature => PStr signature
          | None => PNone
          end)
         hashes)
    to_get_hash [].

(** A dictionary comprehension that keeps the keys outside
    [CONFIG_HASH_BLACKLIST]. *)
Definition without_blacklist (d : list (string * pyval)) : list (string * pyval) :=
  filter (fun kv => kv.1 ∉ CONFIG_HASH_BLACKLIST) d.

(** [sanitize_for_config_hash], applied to [config.to_dict()]. *)
Definition sanitize_for_config_hash
    (self : KubernetesDeploymentConfig) (config : list (string * pyval))
    : result (list (string * pyval)) :=
  let ahash := without_blacklist config in
  spec ← dict_item "spec" ahash;
  items ← match spec with
          | PDict entries => Return entries
          | _ => Raise AttributeError
          end;
  let ahash := dict_set "spec" (PDict (without_blacklist items)) ahash in
  let ahash :=
    dict_set "paasta_secrets"
      (PDict (get_kubernetes_secret_hashes (get_env self) (get_service self)))
      ahash in
  Return ahash.



End ConfigHash.


(** The signature [get_kubernetes_secret_hashes] looks up for the secret
    reference [value]. *)
Definition signature_of_ref `{SecretStore} (service value : string)
    : option string :=
  get_kubernetes_secret_signature
    (get_secret_name_from_ref value)
    (if is_shared_secret value then SHARED_SECRET_SERVICE else service).





(** ** Example environments *)

(** An environment in which the inherited methods answer the same for
    every configuration. *)
Definition fixed_environment
    (state : string) (autoscaled : bool) (instances : Z)
    (ebs : list AwsEbsVolume) (pvs : list PersistentVolume)
    (whitelist : option (string * list string))
    (blacklist : list (string * string)) : LongRunningServiceConfig :=
  {| get_desired_state := fun _ => state;
     is_autoscaling_enabled := fun _ => autoscaled;
     super_get_desired_instances := fun _ => instances;
     get_aws_ebs_volumes := fun _ => ebs;
     get_persistent_volumes := fun _ => pvs;
     get_deploy_whitelist := fun _ => whitelist;
     get_deploy_blacklist := fun _ => blacklist;
     get_env := fun _ => [];
     get_hpa_always_uses_external_for_signalfx := false;
     format_legacy_autoscaling_signalflow := fun _ _ _ _ _ _ metric => metric |}.

Definition empty_config_dict : KubernetesDeploymentConfigDict :=
  {| bounce_method := None; bounce_margin_factor := None; autoscaling := None;
     min_instances := None; max_instances := None; node_selectors := None;
     anti_affinity := None |}.

Definition example_config (d : KubernetesDeploymentConfigDict)
    : KubernetesDeploymentConfig :=
  {| service := "example_service"; instance := "main"; cluster := "norcal-devc";
     config_dict := d |}.

Definition example_ebs_volume : AwsEbsVolume :=
  {| volume_id := "vol-0123456789abcdef0"; ebs_container_path := "/data" |}.


Definition bounce_config (method : string) (margin : option float)
    : KubernetesDeploymentConfig :=
  example_config
    {| bounce_method := Some method; bounce_margin_factor := margin;
       autoscaling := None; min_instances := None; max_instances := None;
       node_selectors := None; anti_affinity := None |}.

(** An environment whose only change is the value of [get_env]. *)
Definition with_env (E : LongRunningServiceConfig)
    (env : list (string * string)) : LongRunningServiceConfig :=
  {| get_desired_state := @get_desired_state E;
     is_autoscaling_enabled := @is_autoscaling_enabled E;
     super_get_desired_instances := @super_get_desired_instances E;
     get_aws_ebs_volumes := @get_aws_ebs_volumes E;
     get_persistent_volumes := @get_persistent_volumes E;
     get_deploy_whitelist := @get_deploy_whitelist E;
     get_deploy_blacklist := @get_deploy_blacklist E;
     get_env := fun _ => env;
     get_hpa_always_uses_external_for_signalfx :=
       @get_hpa_always_uses_external_for_signalfx E;
     format_legacy_autoscaling_signalflow :=
       @format_legacy_autoscaling_signalflow E |}.

(** A store in which every value that starts with ["SECRET("] is a
    reference and every secret has the signature [signature]. *)
Definition example_secret_store (signature : option string) : SecretStore :=
  {| is_secret_ref := String.prefix "SECRET(";
     get_secret_name_from_ref := fun value => value;
     is_shared_secret := fun _ => false;
     SHARED_SECRET_SERVICE := "_shared";
     read_signature := fun _ => signature |}.

Definition example_manifest (replicas : Z) : list (string * pyval) :=
  [ ("kind", PStr "Deployment");
    ("spec", PDict [ ("replicas", PInt replicas);
                     ("revision_history_limit", PInt 0) ]) ].


(** ** Node labels *)

Definition YELP_ATTRIBUTE_PREFIX : string := "yelp.com/".

Definition DISCOVERY_ATTRIBUTES : list string :=
  ["region"; "superregion"; "ecosystem"; "habitat"; "pool"; "hostname"].

(** [c in s] for a one-character [c]. *)
Fixpoint str_mem (c : ascii) (s : string) : bool :=
  match s with
  | EmptyString => false
  | String a s' => Ascii.eqb a c || str_mem c s'
  end.

(** [paasta_prefixed]. *)
Definition paasta_prefixed (attribute : string) : string :=
  if bool_decide (attribute ∈ DISCOVERY_ATTRIBUTES) then
    YELP_ATTRIBUTE_PREFIX +:+ attribute
  else if str_mem "/" attribute then attribute
  else PAASTA_ATTRIBUTE_PREFIX +:+ attribute.

(** ** Volume names *)

(** An upper-case ASCII letter. *)
Definition is_upper (c : ascii) : bool :=
  let n := N_of_ascii c in ((65 <=? n) && (n <=? 90))%N.

(** A character of the ASCII range. *)
Definition is_ascii (c : ascii) : bool := (N_of_ascii c <? 128)%N.

(** A lower-case hexadecimal digit. *)
Definition is_hex (c : ascii) : bool :=
  let n := N_of_ascii c in
  ((48 <=? n) && (n <=? 57) || (97 <=? n) && (n <=? 102))%N.

(** What a sanitised name never contains: an upper-case letter or ['_']. *)
Definition is_sanitised_char (c : ascii) : bool :=
  negb (is_upper c) && negb (Ascii.eqb c "_").

(** What a sanitised volume name never contains: an upper-case letter,
    ['_'], ['/'] or ['.']. *)
Definition is_volume_name_char (c : ascii) : bool :=
  is_sanitised_char c && negb (Ascii.eqb c "/") && negb (Ascii.eqb c ".").

(** [s.rstrip(c)] for a one-character [c]. *)
Fixpoint str_rstrip_char (c : ascii) (s : string) : string :=
  match s with
  | EmptyString => EmptyString
  | String a s' =>
      match str_rstrip_char c s' with
      | EmptyString => if Ascii.eqb a c then EmptyString else String a EmptyString
      | rest => String a rest
      end
  end.

(** [s[:n]] for a natural [n]. *)
Fixpoint str_take (n : nat) (s : string) : string :=
  match n, s with
  | S n', String a s' => String a (str_take n' s')
  | _, _ => EmptyString
  end.

(** [s[0:stop]]: a negative [stop] counts from the end. *)
Definition str_slice_to (stop : Z) (s : string) : string :=
  let stop :=
    if stop <? 0 then Z.max 0 (stop + Z.of_nat (String.length s)) else stop in
  str_take (Z.to_nat stop) s.

(** [s.encode("ascii")]; the [UnicodeEncodeError] of a character outside
    the ASCII range is a [ValueError]. *)
Definition str_encode_ascii (s : string) : result string :=
  if str_forall is_ascii s then Return s else Raise ValueError.

(** [hashlib.md5(data).hexdigest()], of the Python standard library. *)
Class Hashlib : Type := {
  md5_hexdigest : string -> string
}.

(** The digests are 32 lower-case hexadecimal digits. *)
Definition hexdigest_wf (H : Hashlib) : Prop :=
  ∀ data,
    String.length (@md5_hexdigest H data) = 32%nat
    ∧ str_forall is_hex (@md5_hexdigest H data) = true.

(** [get_sanitised_volume_name]; the method does not read [self]. *)
Definition get_sanitised_volume_name `{Hashlib}
    (volume_name : string) (length_limit : Z) : result string :=
  let volume_name := str_rstrip_char "/" volume_name in
  let sanitised :=
    str_replace_char "." "dot-" (str_replace_char "/" "slash-" volume_name) in
  let sanitised_name := sanitise_kubernetes_name sanitised in
  if negb (length_limit =? 0)
     && (length_limit <? Z.of_nat (String.length sanitised_name))
  then
    encoded ← str_encode_ascii sanitised_name;
    Return (str_slice_to (length_limit - 6) sanitised_name
            +:+ "--" +:+ str_take 4 (md5_hexdigest encoded))
  else Return sanitised_name.

(** The name before the length limit applies. *)
Definition sanitised_volume_name (volume_name : string) : string :=
  sanitise_kubernetes_name
    (str_replace_char "." "dot-"
       (str_replace_char "/" "slash-" (str_rstrip_char "/" volume_name))).

(** A digest that ignores its input. *)
Definition example_hashlib : Hashlib :=
  {| md5_hexdigest := fun _ => "d41d8cd98f00b204e9800998ecf8427e" |}.

(** ** Pods and nodes *)

(** A condition of [status.conditions] of a pod or a node. *)
Record V1Condition : Type := {
  cond_type : string;
  cond_status : string
}.

(** [_is_it_ready], on [it.status.conditions]; [is_pod_ready] and
    [is_node_ready] are this function. *)
Definition _is_it_ready (conditions : option (list V1Condition)) : bool :=
  let ready_conditions :=
    map (fun cond => String.eqb (cond_status cond) "True")
        (List.filter (fun cond => String.eqb (cond_type cond) "Ready")
                     (default [] conditions)) in
  if nonempty ready_conditions then forallb (fun b => b) ready_conditions
  else false.

(** The fields of a [V1Pod] read by the functions below. *)
Record V1Pod : Type := {
  pod_name : string;
  pod_labels : option (list (string * string));   (* metadata.labels *)
  pod_phase : option string;                      (* status.phase *)
  pod_conditions : option (list V1Condition)      (* status.conditions *)
}.

Definition is_pod_ready (pod : V1Pod) : bool :=
  _is_it_ready (pod_conditions pod).

(** [filter_pods_by_service_instance]. *)
Definition filter_pods_by_service_instance
    (pod_list : list V1Pod) (service instance : string) : list V1Pod :=
  List.filter
    (fun pod =>
       match pod_labels pod with
       | None => false
       | Some labels =>
           String.eqb (default "" (dict_get "paasta.yelp.com/service" labels))
                      service
           && String.eqb
                (default "" (dict_get "paasta.yelp.com/instance" labels))
                instance
       end)
    pod_list.

(** [str.upper] on one ASCII character; bytes outside [a-z] are kept. *)
Definition upper_ascii (c : ascii) : ascii :=
  let n := N_of_ascii c in
  if ((97 <=? n) && (n <=? 122))%N then ascii_of_N (n - 32) else c.

(** [s.upper()] for strings of ASCII characters. *)
Fixpoint str_upper (s : string) : string :=
  match s with
  | EmptyString => EmptyString
  | String c s' => String (upper_ascii c) (str_upper s')
  end.

Inductive PodStatus : Type :=
  | PENDING | RUNNING | SUCCEEDED | FAILED | UNKNOWN.

Definition _POD_STATUS_NAME_TO_STATUS : list (string * PodStatus) :=
  [ ("PENDING", PENDING); ("RUNNING", RUNNING); ("SUCCEEDED", SUCCEEDED);
    ("FAILED", FAILED); ("UNKNOWN", UNKNOWN) ].

(** [get_pod_status], on [pod.status.phase]; a missing phase has no
    [upper] method. *)
Definition get_pod_status (pod : V1Pod) : result PodStatus :=
  match pod_phase pod with
  | None => Raise AttributeError
  | Some phase => dict_item (str_upper phase) _POD_STATUS_NAME_TO_STATUS
  end.

(** Truthiness of an optional string. *)
Definition truthy (s : option string) : bool :=
  match s with
  | Some (String _ _) => true
  | _ => false
  end.

(** A label with the prefix [prefix] taken off when it has it. *)
Definition strip_sha_prefix (prefix : string) (sha : option string)
    : option string :=
  match sha with
  | Some s =>
      if truthy sha && String.prefix prefix s
      then Some (str_drop (String.length prefix) s)
      else sha
  | None => None
  end.

(** [get_active_shas_for_service], on the [metadata.labels] of every
    object; absent labels have no [get] method. *)
Definition get_active_shas_for_service
    (obj_list : list (option (list (string * string))))
    : result (gset (option string * option string)) :=
  fold_left
    (fun acc labels =>
       ret ← acc;
       labels ← match labels with
                | Some labels => Return labels
                | None => Raise AttributeError
                end;
       let config_sha :=
         strip_sha_prefix "config"
           (dict_get "paasta.yelp.com/config_sha" labels) in
       let git_sha :=
         strip_sha_prefix "git" (dict_get "paasta.yelp.com/git_sha" labels) in
       if truthy git_sha || truthy config_sha
       then Return (ret ∪ {[ (git_sha, config_sha) ]})
       else Return ret)
    obj_list (Return ∅).
(** What one object contributes to the set of active shas. *)
Definition sha_entry (labels : list (string * string))
    : gset (option string * option string) :=
  let config_sha :=
    strip_sha_prefix "config" (dict_get "paasta.yelp.com/config_sha" labels) in
  let git_sha :=
    strip_sha_prefix "git" (dict_get "paasta.yelp.com/git_sha" labels) in
  if truthy git_sha || truthy config_sha then {[ (git_sha, config_sha) ]}
  else ∅.

(** [v[k]] for a string key: only a dictionary has string keys. *)
Definition py_getitem (v : pyval) (k : string) : result pyval :=
  match v with
  | PDict entries => dict_item k entries
  | _ => Raise TypeError
  end.

Fixpoint str_chars (s : string) : list string :=
  match s with
  | EmptyString => []
  | String c s' => String c EmptyString :: str_chars s'
  end.

(** [for x in v]: the items of a list, the keys of a dictionary, the
    characters of a string; nothing else is iterable. *)
Definition py_iter (v : pyval) : result (list pyval) :=
  match v with
  | PList items => Return items
  | PDict entries => Return (map (fun kv => PStr kv.1) entries)
  | PStr s => Return (map PStr (str_chars s))
  | _ => Raise TypeError
  end.

(** [get_all_kubernetes_services_running_here], on the outcome of
    [get_k8s_pods()]: [None] is a connection error. *)
Definition get_all_kubernetes_services_running_here (pods : option pyval)
    : result (list (pyval * pyval * Z)) :=
  match pods with
  | None => Return []
  | Some pods =>
      items ← py_getitem pods "items";
      pod_list ← py_iter items;
      for_each
        (fun pod =>
           let attempt : result (pyval * pyval * Z) :=
             service ←
               (metadata ← py_getitem pod "metadata";
                labels ← py_getitem metadata "labels";
                py_getitem labels "paasta.yelp.com/service");
             instance ←
               (metadata ← py_getitem pod "metadata";
                labels ← py_getitem metadata "labels";
                py_getitem labels "paasta.yelp.com/instance");
             Return (service, instance, 0) in
           match attempt with
           | Return entry => Return [entry]
           | Raise (KeyError _) => Return []
           | Raise e => Raise e
           end)
        pod_list
  end.

(** A pod whose metadata and labels, when present, are dictionaries. *)
Definition pod_like (pod : pyval) : bool :=
  match pod with
  | PDict entries =>
      match dict_get "metadata" entries with
      | None => true
      | Some (PDict metadata) =>
          match dict_get "labels" metadata with
          | None | Some (PDict _) => true
          | Some _ => false
          end
      | Some _ => false
      end
  | _ => false
  end.

(** The service and instance labels of a pod that has both. *)
Definition paasta_labels (pod : pyval) : option (pyval * pyval * Z) :=
  match pod with
  | PDict entries =>
      match dict_get "metadata" entries with
      | Some (PDict metadata) =>
          match dict_get "labels" metadata with
          | Some (PDict labels) =>
              match dict_get "paasta.yelp.com/service" labels,
                    dict_get "paasta.yelp.com/instance" labels with
              | Some service, Some instance => Some (service, instance, 0)
              | _, _ => None
              end
          | _ => None
          end
      | _ => None
      end
  | _ => None
  end.

(** ** Shapes of the placement objects *)

(** The operator and the values of a requirement agree. *)
Definition requirement_shape (op : string) (vs : list string) : Prop :=
  op ∈ ["In"; "NotIn"]
  ∨ (op ∈ ["Exists"; "DoesNotExist"] ∧ vs = [])
  ∨ (op ∈ ["Gt"; "Lt"] ∧ ∃ v, vs = [str_of_int v]).

(** ** Container environment *)

Record V1SecretKeySelector : Type := {
  sks_name : string;
  sks_key : string;
  sks_optional : bool
}.

Record V1ObjectFieldSelector : Type := { field_path : string }.

Record V1EnvVarSource : Type := {
  secret_key_ref : option V1SecretKeySelector;
  field_ref : option V1ObjectFieldSelector
}.

Record V1EnvVar : Type := {
  env_name : string;
  env_value : option string;
  env_value_from : option V1EnvVarSource
}.

Section ContainerEnv.
Context `{LongRunningServiceConfig} `{SecretStore}.

Definition get_sanitised_service_name (self : KubernetesDeploymentConfig)
    : string :=
  sanitise_kubernetes_name (get_service self).

(** The variable one iteration of [get_kubernetes_secret_env_vars]
    appends, for the service name of the loop. *)
Definition secret_env_var (service k v : string) : V1EnvVar :=
  let secret := get_secret_name_from_ref v in
  let sanitised_secret := sanitise_kubernetes_name secret in
  {| env_name := k;
     env_value := None;
     env_value_from :=
       Some {| secret_key_ref :=
                 Some {| sks_name := "paasta-secret-" +:+ service +:+ "-"
                                     +:+ sanitised_secret;
                         sks_key := secret;
                         sks_optional := false |};
               field_ref := None |} |}.

Definition get_kubernetes_secret_env_vars (self : KubernetesDeploymentConfig)
    (secret_env_vars shared_secret_env_vars : list (string * string))
    : list V1EnvVar :=
  let ret :=
    map (fun '(k, v) => secret_env_var (get_sanitised_service_name self) k v)
        secret_env_vars in
  (ret ++ map (fun '(k, v) =>
                 secret_env_var (sanitise_kubernetes_name SHARED_SECRET_SERVICE)
                                k v)
              shared_secret_env_vars)%list.

Definition field_env_var (name path : string) : V1EnvVar :=
  {| env_name := name;
     env_value := None;
     env_value_from :=
       Some {| secret_key_ref := None;
               field_ref := Some {| field_path := path |} |} |}.

Definition get_kubernetes_environment : list V1EnvVar :=
  [ field_env_var "PAASTA_POD_IP" "status.podIP";
    field_env_var "POD_NAME" "metadata.name";
    field_env_var "PAASTA_HOST" "spec.nodeName" ].

(** One iteration of the first loop of [get_container_env], on the two
    dictionaries it fills. *)
Definition secret_env_step
    (acc : list (string * string) * list (string * string))
    (kv : string * string)
    : list (string * string) * list (string * string) :=
  let '(secret_env_vars, shared_secret_env_vars) := acc in
  let '(k, v) := kv in
  if is_secret_ref v then
    if is_shared_secret v
    then (secret_env_vars, dict_set k v shared_secret_env_vars)
    else (dict_set k v secret_env_vars, shared_secret_env_vars)
  else (secret_env_vars, shared_secret_env_vars).

Definition split_secret_env_vars (env : list (string * string))
    : list (string * string) * list (string * string) :=
  fold_left secret_env_step env ([], []).

Definition get_container_env (self : KubernetesDeploymentConfig)
    : list V1EnvVar :=
  let '(secret_env_vars, shared_secret_env_vars) :=
    split_secret_env_vars (get_env self) in
  let user_env :=
    map (fun '(name, value) =>
           {| env_name := name; env_value := Some value;
              env_value_from := None |})
        (List.filter
           (fun '(name, _) =>
              bool_decide (name ∉ (secret_env_vars.*1
                                   ++ shared_secret_env_vars.*1)%list))
           (get_env self)) in
  let user_env :=
    (user_env
     ++ get_kubernetes_secret_env_vars self secret_env_vars
          shared_secret_env_vars)%list in
  (user_env ++ get_kubernetes_environment)%list.

(** The three kinds of variables: a reference to a secret of the service,
    a reference to a shared secret, a plain value. *)
Definition own_secret (kv : string * string) : bool :=
  is_secret_ref kv.2 && negb (is_shared_secret kv.2).
Definition shared_secret (kv : string * string) : bool :=
  is_secret_ref kv.2 && is_shared_secret kv.2.
Definition plain (kv : string * string) : bool := negb (is_secret_ref kv.2).

End ContainerEnv.

(** A store in which the references that start with ["SHARED_SECRET("] are
    shared, and every secret has the signature [signature]. *)
Definition example_shared_secret_store (signature : option string)
    : SecretStore :=
  {| is_secret_ref := fun value =>
       String.prefix "SECRET(" value || String.prefix "SHARED_SECRET(" value;
     get_secret_name_from_ref := fun value => value;
     is_shared_secret := String.prefix "SHARED_SECRET(";
     SHARED_SECRET_SERVICE := "_shared";
     read_signature := fun _ => signature |}.

(** ** Node selector *)

(** Further methods [KubernetesDeploymentConfig] inherits from
    [InstanceConfig]. *)
Class InstanceConfig : Type := {
  get_pool : KubernetesDeploymentConfig -> string
}.

(** The entries of the dictionary comprehension of [get_node_selector]:
    the selectors whose value is a string. *)
Definition string_selectors (raw_selectors : list (string * selector_value))
    : list (string * string) :=
  omap (fun '(label, value) =>
          match value with
          | SelStr s => Some (to_node_label label, s)
          | _ => None
          end)
       raw_selectors.

(** [{k: v for k, v in entries}]. *)
Definition dict_of {V : Type} (entries : list (string * V))
    : list (string * V) :=
  fold_left (fun d kv => dict_set kv.1 kv.2 d) entries [].

Definition get_node_selector `{InstanceConfig}
    (self : KubernetesDeploymentConfig) : list (string * string) :=
  let raw_selectors := default [] (node_selectors (config_dict self)) in
  let node_selectors := dict_of (string_selectors raw_selectors) in
  dict_set "yelp.com/pool" (get_pool self) node_selectors.

Definition example_instance_config (pool : string) : InstanceConfig :=
  {| get_pool := fun _ => pool |}.

(** ** Nodes grouped by a label *)

(** The fields of a [V1Node] read below. *)
Record V1Node : Type := {
  node_name : string;
  node_labels : option (list (string * string))   (* metadata.labels *)
}.

(** [sorted(_, key=...)] on items paired with their keys: a stable sort,
    strings being ordered by code point (the order of their bytes). *)
Fixpoint sorted_insert {A : Type} (x : string * A) (l : list (string * A))
    : list (string * A) :=
  match l with
  | [] => [x]
  | y :: l' =>
      if String.leb x.1 y.1 then x :: y :: l' else y :: sorted_insert x l'
  end.

Fixpoint sorted {A : Type} (l : list (string * A)) : list (string * A) :=
  match l with
  | [] => []
  | x :: l' => sorted_insert x (sorted l')
  end.

(** [itertools.groupby] on items paired with their keys: the runs of
    consecutive items with equal keys. *)
Fixpoint groupby {A : Type} (l : list (string * A))
    : list (string * list A) :=
  match l with
  | [] => []
  | (k, x) :: l' =>
      match groupby l' with
      | (k', group) :: rest =>
          if String.eqb k k' then (k, x :: group) :: rest
          else (k, [x]) :: (k', group) :: rest
      | [] => [(k, [x])]
      end
  end.

(** The key of both [sorted] and [groupby]; absent labels have no [get]
    method. *)
Definition node_attribute (attribute : string) (node : V1Node)
    : result string :=
  match node_labels node with
  | Some labels => Return (default "" (dict_get attribute labels))
  | None => Raise AttributeError
  end.

Definition get_nodes_grouped_by_attribute
    (nodes : list V1Node) (attribute : string)
    : result (list (string * list V1Node)) :=
  let attribute := paasta_prefixed attribute in
  keyed ← for_each (fun node =>
                      key ← node_attribute attribute node;
                      Return [(key, node)])
                   nodes;
  let sorted_nodes := sorted keyed in
  Return (dict_of (List.filter (fun '(key, group) => negb (String.eqb key ""))
                               (groupby sorted_nodes))).

(** Ascending keys. *)
Fixpoint ascending {A : Type} (l : list (string * A)) : Prop :=
  match l with
  | [] => True
  | x :: l' => Forall (fun y => String.leb x.1 y.1 = true) l' ∧ ascending l'
  end.

(** The nodes whose label [attribute] has the value [value]. *)
Definition nodes_with (attribute value : string) (nodes : list V1Node)
    : list V1Node :=
  List.filter
    (fun node =>
       match node_labels node with
       | Some labels =>
           String.eqb (default "" (dict_get attribute labels)) value
       | None => false
       end)
    nodes.

(** ** Volumes *)

(** A file mode of the configuration: a string or an integer. *)
Inductive mode_value : Type :=
  | ModeStr (s : string)
  | ModeInt (n : Z).

(** [DockerVolume], [AwsEbsVolume], [PersistentVolume], [SecretVolume]
    and [SecretVolumeItem] with every key; [None] is an absent optional
    key. *)
Record DockerVolume : Type := {
  hostPath : string;
  containerPath : string;
  docker_mode : option string
}.

Record AwsEbsVolumeDict : Type := {
  ebs_volume_id : string;
  ebs_fs_type : option string;
  ebs_partition : option Z;
  ebs_path : string;             (* container_path *)
  ebs_mode : option string
}.

Record PersistentVolumeDict : Type := {
  pvd_size : Z;
  pvd_path : string;             (* container_path *)
  pvd_storage_class_name : option string;
  pvd_mode : option string
}.

Record SecretVolumeItem : Type := {
  item_key : string;
  item_path : string;
  item_mode : option mode_value
}.

Record SecretVolume : Type := {
  sv_container_path : string;
  sv_secret_name : string;
  sv_default_mode : option mode_value;
  sv_items : option (list SecretVolumeItem)
}.

Record V1KeyToPath : Type := {
  ktp_key : string;
  ktp_mode : option Z;
  ktp_path : string
}.

Record V1HostPathVolumeSource : Type := { hp_path : string }.

Record V1AWSElasticBlockStoreVolumeSource : Type := {
  abs_volume_id : string;
  abs_fs_type : option string;
  abs_partition : option Z;
  abs_read_only : bool
}.

Record V1SecretVolumeSource : Type := {
  svs_secret_name : string;
  svs_default_mode : option Z;
  svs_items : option (list V1KeyToPath)
}.

Record V1Volume : Type := {
  volume_name : string;
  host_path : option V1HostPathVolumeSource;
  aws_elastic_block_store : option V1AWSElasticBlockStoreVolumeSource;
  secret : option V1SecretVolumeSource
}.

Record V1VolumeMount : Type := {
  mount_path : string;
  mount_name : string;
  mount_read_only : bool
}.

Record V1PersistentVolumeClaim : Type := {
  claim_name : string;                    (* metadata.name *)
  claim_access_modes : list string;
  claim_storage_class_name : string;
  claim_requests : list (string * string)  (* spec.resources.requests *)
}.

(** [int(s, 8)], a builtin of Python. *)
Class PyInt : Type := {
  int_base8 : string -> result Z
}.

(** What [get_volume_claim_templates] reads outside its class: the
    persistent volumes of the instance with every key, and the storage
    classes of the system configuration ([None] when PaaSTA is not
    configured). *)
Class VolumeConfig : Type := {
  get_persistent_volume_dicts :
    KubernetesDeploymentConfig -> list PersistentVolumeDict;
  get_supported_storage_classes : option (list string)
}.

Definition DEFAULT_STORAGE_CLASS_NAME : string := "ebs".

Definition mode_to_int `{PyInt} (mode : option mode_value)
    : result (option Z) :=
  match mode with
  | Some (ModeStr s) =>
      if (String.length s <? 2)%nat
         || negb (bool_decide (String.get 0 s = Some "0"%char))
      then Raise ValueError
      else
        n ← int_base8 (str_drop 1 s);
        Return (Some n)
  | Some (ModeInt n) => Return (Some n)
  | None => Return None
  end.

Section Volumes.
Context `{Hashlib} `{PyInt} `{VolumeConfig}.

Definition get_docker_volume_name (docker_volume : DockerVolume)
    : result string :=
  get_sanitised_volume_name ("host--" +:+ hostPath docker_volume) 63.

Definition get_persistent_volume_name (docker_volume : PersistentVolumeDict)
    : result string :=
  get_sanitised_volume_name ("pv--" +:+ pvd_path docker_volume) 253.

Definition get_aws_ebs_volume_name (aws_ebs_volume : AwsEbsVolumeDict)
    : result string :=
  get_sanitised_volume_name
    ("aws-ebs--" +:+ ebs_volume_id aws_ebs_volume
     +:+ match ebs_partition aws_ebs_volume with
         | Some partition => str_of_int partition
         | None => ""
         end)
    0.

Definition get_secret_volume_name (secret_volume : SecretVolume)
    : result string :=
  get_sanitised_volume_name ("secret--" +:+ sv_secret_name secret_volume) 253.

(** [read_only_mode], on the ["mode"] entry of the volume. *)
Definition read_only_mode (mode : option string) : bool :=
  String.eqb (default "RO" mode) "RO".

Definition host_path_volume (named : string * DockerVolume) : V1Volume :=
  {| volume_name := named.1;
     host_path := Some {| hp_path := hostPath named.2 |};
     aws_elastic_block_store := None;
     secret := None |}.

Definition aws_ebs_volume (named : string * AwsEbsVolumeDict) : V1Volume :=
  {| volume_name := named.1;
     host_path := None;
     aws_elastic_block_store :=
       Some {| abs_volume_id := ebs_volume_id named.2;
               abs_fs_type := ebs_fs_type named.2;
               abs_partition := ebs_partition named.2;
               abs_read_only := false |};
     secret := None |}.

(** One iteration of the last loop of [get_pod_volumes]. *)
Definition secret_pod_volume (self : KubernetesDeploymentConfig)
    (secret_volume : SecretVolume) : result V1Volume :=
  let service := sanitise_kubernetes_name (get_service self) in
  let sanitised_secret :=
    sanitise_kubernetes_name (sv_secret_name secret_volume) in
  items ←
    match sv_items secret_volume with
    | Some items =>
        items ← for_each
                  (fun item =>
                     mode ← mode_to_int (item_mode item);
                     Return [ {| ktp_key := item_key item;
                                 ktp_mode := mode;
                                 ktp_path := item_path item |} ])
                  items;
        Return (Some items)
    | None => Return None
    end;
  name ← get_secret_volume_name secret_volume;
  default_mode ← mode_to_int (sv_default_mode secret_volume);
  Return {| volume_name := name;
            host_path := None;
            aws_elastic_block_store := None;
            secret :=
              Some {| svs_secret_name :=
                        "paasta-secret-" +:+ service +:+ "-"
                        +:+ sanitised_secret;
                      svs_default_mode := default_mode;
                      svs_items := items |} |}.

Definition get_pod_volumes (self : KubernetesDeploymentConfig)
    (docker_volumes : list DockerVolume)
    (aws_ebs_volumes : list AwsEbsVolumeDict)
    (secret_volumes : list SecretVolume) : result (list V1Volume) :=
  named ← for_each (fun docker_volume =>
                      name ← get_docker_volume_name docker_volume;
                      Return [(name, docker_volume)])
                   docker_volumes;
  let unique_docker_volumes := dict_of named in
  let pod_volumes := map host_path_volume unique_docker_volumes in
  named ← for_each (fun aws_ebs_volume =>
                      name ← get_aws_ebs_volume_name aws_ebs_volume;
                      Return [(name, aws_ebs_volume)])
                   aws_ebs_volumes;
  let unique_aws_ebs_volumes := dict_of named in
  let pod_volumes :=
    (pod_volumes ++ map aws_ebs_volume unique_aws_ebs_volumes)%list in
  secrets ← for_each (fun secret_volume =>
                        volume ← secret_pod_volume self secret_volume;
                        Return [volume])
                     secret_volumes;
  Return (pod_volumes ++ secrets)%list.

Definition get_volume_mounts
    (docker_volumes : list DockerVolume)
    (aws_ebs_volumes : list AwsEbsVolumeDict)
    (persistent_volumes : list PersistentVolumeDict)
    (secret_volumes : list SecretVolume) : result (list V1VolumeMount) :=
  docker ← for_each
             (fun docker_volume =>
                name ← get_docker_volume_name docker_volume;
                Return [ {| mount_path := containerPath docker_volume;
                            mount_name := name;
                            mount_read_only :=
                              read_only_mode (docker_mode docker_volume) |} ])
             docker_volumes;
  aws ← for_each
          (fun aws_ebs_volume =>
             name ← get_aws_ebs_volume_name aws_ebs_volume;
             Return [ {| mount_path := ebs_path aws_ebs_volume;
                         mount_name := name;
                         mount_read_only :=
                           read_only_mode (ebs_mode aws_ebs_volume) |} ])
          aws_ebs_volumes;
  persistent ← for_each
                 (fun volume =>
                    name ← get_persistent_volume_name volume;
                    Return [ {| mount_path := pvd_path volume;
                                mount_name := name;
                                mount_read_only :=
                                  read_only_mode (pvd_mode volume) |} ])
                 persistent_volumes;
  secrets ← for_each
              (fun volume =>
                 name ← get_secret_volume_name volume;
                 Return [ {| mount_path := sv_container_path volume;
                             mount_name := name;
                             mount_read_only := true |} ])
              secret_volumes;
  Return (((docker ++ aws) ++ persistent) ++ secrets)%list.

Definition get_storage_class_name (volume : PersistentVolumeDict) : string :=
  let supported_storage_classes := default [] get_supported_storage_classes in
  let storage_class_name :=
    default "ebs" (pvd_storage_class_name volume) in
  if bool_decide (storage_class_name ∉ supported_storage_classes)
  then DEFAULT_STORAGE_CLASS_NAME
  else storage_class_name.

Definition get_volume_claim_templates (self : KubernetesDeploymentConfig)
    : result (list V1PersistentVolumeClaim) :=
  for_each
    (fun volume =>
       name ← get_persistent_volume_name volume;
       Return [ {| claim_name := name;
                   claim_access_modes := ["ReadWriteOnce"];
                   claim_storage_class_name := get_storage_class_name volume;
                   claim_requests :=
                     [("storage", str_of_int (pvd_size volume) +:+ "Gi")] |} ])
    (get_persistent_volume_dicts self).

End Volumes.

(** An octal reader for strings of octal digits. *)
Fixpoint octal_digits (acc : Z) (s : string) : result Z :=
  match s with
  | EmptyString => Return acc
  | String c s' =>
      let n := Z.of_N (N_of_ascii c) in
      if (48 <=? n) && (n <=? 55) then octal_digits (8 * acc + (n - 48)) s'
      else Raise ValueError
  end.

Definition example_py_int : PyInt :=
  {| int_base8 := fun s =>
       match s with
       | EmptyString => Raise ValueError
       | _ => octal_digits 0 s
       end |}.

Definition example_volume_config (pvs : list PersistentVolumeDict)
    : VolumeConfig :=
  {| get_persistent_volume_dicts := fun _ => pvs;
     get_supported_storage_classes := Some ["ebs"; "ebs-retain"] |}.

Definition example_docker_volumes : list DockerVolume :=
  [ {| hostPath := "/nail/etc"; containerPath := "/nail/etc";
       docker_mode := None |};
    {| hostPath := "/nail/etc/"; containerPath := "/etc/nail";
       docker_mode := Some "RW" |} ].

Definition example_secret_volumes : list SecretVolume :=
  [ {| sv_container_path := "/secrets"; sv_secret_name := "api_key";
       sv_default_mode := Some (ModeStr "0600");
       sv_items := None |} ].

Definition example_persistent_volume_dicts : list PersistentVolumeDict :=
  [ {| pvd_size := 10; pvd_path := "/var/lib/data";
       pvd_storage_class_name := None; pvd_mode := Some "RW" |} ].

(** A positive float (or [+inf]) of magnitude at least [2^(L-1)]. *)
Definition float_above (L : Z) (x : float) : bool :=
  match x with
  | S754_finite false m e => L <=? Z.pos (digits2_pos m) + e
  | S754_infinity false => true
  | _ => false
  end.

(** ** Sidecar resources *)

(** An entry of ["sidecar_resource_requirements"]: the dictionaries under
    ["requests"] and ["limits"], when present. *)
Record SidecarResourceRequirements : Type := {
  sr_requests : option (list (string * pyval));
  sr_limits : option (list (string * pyval))
}.

(** The ["sidecar_resource_requirements"] entry of [config_dict]. *)
Class SidecarConfig : Type := {
  sidecar_resource_requirements :
    KubernetesDeploymentConfig ->
    option (list (string * SidecarResourceRequirements))
}.

Record V1ResourceRequirements : Type := {
  rr_limits : list (string * pyval);
  rr_requests : list (string * pyval)
}.

(** [d.update(other)]. *)
Definition dict_update {V : Type} (d other : list (string * V))
    : list (string * V) :=
  fold_left (fun d kv => dict_set kv.1 kv.2 d) other d.

(** The literal [0.1]. *)
Definition float_0_1 : float := float_div (Z_to_float 1) (Z_to_float 10).

Definition default_sidecar_requests : list (string * pyval) :=
  [ ("cpu", PFloat float_0_1);
    ("memory", PStr "1024Mi");
    ("ephemeral-storage", PStr "256Mi") ].

Definition get_sidecar_resource_requirements `{SidecarConfig}
    (self : KubernetesDeploymentConfig) (sidecar_name : string)
    : result V1ResourceRequirements :=
  let config :=
    default {| sr_requests := None; sr_limits := None |}
            (dict_get sidecar_name
                      (default [] (sidecar_resource_requirements self))) in
  let requests :=
    dict_update default_sidecar_requests (default [] (sr_requests config)) in
  cpu ← dict_item "cpu" requests;
  memory ← dict_item "memory" requests;
  storage ← dict_item "ephemeral-storage" requests;
  let limits :=
    dict_update [ ("cpu", cpu); ("memory", memory);
                  ("ephemeral-storage", storage) ]
                (default [] (sr_limits config)) in
  Return {| rr_limits := limits; rr_requests := requests |}.

(** ** Pod template *)

(** A value under a key of the keyword arguments of [V1PodSpec]: a
    [V1Affinity] object, or a plain value (of the system configuration). *)
Inductive kwarg : Type :=
  | KAffinity (affinity : V1Affinity)
  | KValue (value : pyval).

(** [SystemPaastaConfig], read at [get_pod_defaults()]. *)
Record SystemPaastaConfig : Type := {
  get_pod_defaults : list (string * kwarg)
}.

(** The conditions [get_pod_anti_affinity] iterates over. *)
Definition anti_affinity_conditions (self : KubernetesDeploymentConfig)
    : list KubeAffinityCondition :=
  match anti_affinity (config_dict self) with
  | Some (OneCondition c) => [c]
  | Some (ConditionList cs) => cs
  | None => []
  end.

Section PodTemplate.
Context `{LongRunningServiceConfig}.

(** The ["affinity"] entry of the keyword arguments [get_pod_template_spec]
    passes to [V1PodSpec]: the pod defaults of the system configuration are
    copied first, and the node affinity and the pod anti-affinity are
    entered when they are not [None].  Setting [pod_anti_affinity] on a
    plain value raises [AttributeError].  The other keys the method sets
    (service_account_name, containers, share_process_namespace,
    node_selector, restart_policy, volumes, and later
    termination_grace_period_seconds and security_context) are left out:
    none of them is ["affinity"].  The result is [None] when the key is
    not set. *)
Definition get_pod_template_spec_affinity
    (self : KubernetesDeploymentConfig)
    (system_paasta_config : SystemPaastaConfig) : result (option kwarg) :=
  let pod_spec_kwargs : list (string * kwarg) := [] in
  let pod_spec_kwargs :=
    dict_update pod_spec_kwargs (get_pod_defaults system_paasta_config) in
  found ← get_node_affinity self;
  let pod_spec_kwargs :=
    match found with
    | Some _ =>
        dict_set "affinity"
          (KAffinity {| node_affinity := found; pod_anti_affinity := None |})
          pod_spec_kwargs
    | None => pod_spec_kwargs
    end in
  pod_spec_kwargs ←
    match get_pod_anti_affinity self with
    | Some anti =>
        match default (KAffinity {| node_affinity := None;
                                    pod_anti_affinity := None |})
                      (dict_get "affinity" pod_spec_kwargs) with
        | KAffinity affinity =>
            Return (dict_set "affinity"
                      (KAffinity (set_pod_anti_affinity affinity anti))
                      pod_spec_kwargs)
        | KValue _ => Raise AttributeError
        end
    | None => Return pod_spec_kwargs
    end;
  Return (dict_get "affinity" pod_spec_kwargs).

End PodTemplate.

(** * Properties *)

(** ** Deploy status *)

Section DeployStatusFacts.

Implicit Types (desired total : Z) (ready updated : option Z).

(** The function agrees with the rules on every observation. *)
Lemma deploy_status_is_status_by_rules desired ready updated total :
  get_kubernetes_app_deploy_status
    {| ready_replicas := ready; updated_replicas := updated;
       replicas := total |} desired
  = status_by_rules desired ready updated total.
Proof.
  unfold get_kubernetes_app_deploy_status, status_by_rules.
  cbn [ready_replicas updated_replicas replicas].
  destruct ready as [r|].
  - rewrite (bool_decide_eq_false_2 (Some r = None)) by (intros [=]).
    destruct (Z.eqb_spec r desired) as [->|Hne]; cbn [negb].
    + rewrite (bool_decide_eq_false_2 (Some desired ≠ Some desired))
        by (intros Hc; apply Hc; reflexivity).
      assert (Htail :
        (if (total =? 0) && (desired =? 0) then Stopped else Running)
        = (if bool_decide (total = 0 ∧ desired = 0) then Stopped else Running)).
      { destruct (Z.eqb_spec total 0), (Z.eqb_spec desired 0);
          case_bool_decide; try reflexivity; lia. }
      destruct updated as [u|].
      * destruct (Z.ltb_spec u desired) as [Hlt|Hge].
        -- rewrite bool_decide_eq_true_2
             by (exists u; split; [reflexivity|lia]).
           reflexivity.
        -- rewrite (bool_decide_eq_false_2 (∃ u0, _))
             by (intros (u' & [= <-] & Hlt); lia).
           exact Htail.
      * rewrite (bool_decide_eq_false_2 (∃ u0, _)) by (intros (u' & [=] & _)).
        exact Htail.
    + rewrite bool_decide_eq_true_2 by congruence. reflexivity.
  - rewrite bool_decide_eq_true_2 by reflexivity.
    destruct (Z.eqb_spec desired 0); case_bool_decide; try reflexivity; lia.
Qed.

(** C1. For every desired count, ready count (or absent), updated count (or
    absent) and total count, [get_kubernetes_app_deploy_status] returns the
    status of the first matching rule among: ready absent (Stopped when
    desired is 0, else Waiting); ready different from desired (Waiting);
    updated present and below desired (Deploying); total and desired both 0
    (Stopped); otherwise Running.  The four examples of the specification
    evaluate to Stopped, Waiting, Deploying and Running. *)
Theorem deploy_status_follows_rules :
  (∀ desired ready updated total,
     get_kubernetes_app_deploy_status
       {| ready_replicas := ready; updated_replicas := updated;
          replicas := total |} desired
     = status_by_rules desired ready updated total)
  ∧ get_kubernetes_app_deploy_status
      {| ready_replicas := None; updated_replicas := None; replicas := 0 |} 0
    = Stopped
  ∧ get_kubernetes_app_deploy_status
      {| ready_replicas := Some 2; updated_replicas := Some 3; replicas := 3 |} 3
    = Waiting
  ∧ get_kubernetes_app_deploy_status
      {| ready_replicas := Some 3; updated_replicas := Some 2; replicas := 3 |} 3
    = Deploying
  ∧ get_kubernetes_app_deploy_status
      {| ready_replicas := Some 3; updated_replicas := Some 3; replicas := 3 |} 3
    = Running.
Proof.
  split; [exact deploy_status_is_status_by_rules|].
  repeat split; reflexivity.
Qed.

(** With nothing desired and nothing observed, a non-zero ready count
    still reads as Waiting. *)
Lemma stopped_invariant_fails_on_ready_count :
  get_kubernetes_app_deploy_status
    {| ready_replicas := Some 1; updated_replicas := None; replicas := 0 |} 0
  ≠ Stopped.
Proof. vm_compute. discriminate. Qed.

(** C5, amended. With desired count 0 and total count 0 the status is
    Stopped exactly when the ready count is absent, or is 0 while the
    updated count is absent or not negative; a ready count other than 0
    gives Waiting. *)
Theorem stopped_when_nothing_desired_nor_observed :
  ∀ ready updated,
    let status :=
      get_kubernetes_app_deploy_status
        {| ready_replicas := ready; updated_replicas := updated;
           replicas := 0 |} 0 in
    (status = Stopped ↔
       ready = None ∨ (ready = Some 0 ∧ ∀ u, updated = Some u → 0 ≤ u))
    ∧ (∀ r, ready = Some r → r ≠ 0 → status = Waiting).
Proof.
  intros ready updated; unfold get_kubernetes_app_deploy_status; simpl.
  destruct ready as [r|]; simpl.
  - destruct (Z.eqb_spec r 0) as [->|Hne]; simpl.
    + destruct updated as [u|].
      * destruct (Z.ltb_spec u 0) as [Hlt|Hge]; (split; [split|]).
        -- discriminate.
        -- intros [[=]|[_ Hu]]. specialize (Hu u eq_refl). lia.
        -- intros r [= <-] Hr. lia.
        -- intros _. right. split; [reflexivity|]. intros u' [= <-]. exact Hge.
        -- reflexivity.
        -- intros r [= <-] Hr. lia.
      * split; [split|].
        -- intros _. right. split; [reflexivity|]. intros u [=].
        -- reflexivity.
        -- intros r [= <-] Hr. lia.
    + split; [split|].
      * discriminate.
      * intros [[=]|[[= ->] _]]. lia.
      * reflexivity.
  - split; [split|].
    + intros _. left. reflexivity.
    + reflexivity.
    + intros r [=].
Qed.

End DeployStatusFacts.

(** C5, amended, at an observation with one ready replica. *)
Lemma stopped_when_nothing_desired_nor_observed_witness :
  get_kubernetes_app_deploy_status
    {| ready_replicas := Some 1; updated_replicas := None; replicas := 0 |} 0
  = Waiting.
Proof.
  apply (proj2 (stopped_when_nothing_desired_nor_observed (Some 1) None) 1).
  - reflexivity.
  - lia.
Defined.

(** ** Name sanitiser *)

Section SanitiseFacts.

Implicit Types (s t u : string) (c : ascii).

Lemma lower_ascii_underscore c :
  Ascii.eqb (lower_ascii c) "_" = Ascii.eqb c "_".
Proof. destruct c as [[] [] [] [] [] [] [] []]; reflexivity. Qed.

Lemma lower_ascii_not_dash c : not_dash (lower_ascii c) = not_dash c.
Proof. destruct c as [[] [] [] [] [] [] [] []]; reflexivity. Qed.

Lemma str_lower_app s t : str_lower (s +:+ t) = str_lower s +:+ str_lower t.
Proof. induction s as [|c s IH]; simpl; [reflexivity | rewrite IH; reflexivity]. Qed.

Lemma str_lower_escape s : str_lower (escape s) = escape (str_lower s).
Proof.
  unfold escape. induction s as [|c s IH]; simpl; [reflexivity|].
  rewrite lower_ascii_underscore.
  destruct (Ascii.eqb c "_").
  - change (str_lower (String "-" (String "-" (str_replace_char "_" "--" s)))
            = String "-" (String "-" (str_replace_char "_" "--" (str_lower s)))).
    cbn [str_lower]. rewrite IH. reflexivity.
  - cbn [str_lower]. rewrite IH. reflexivity.
Qed.

Lemma dash_free_lower s : dash_free (str_lower s) = dash_free s.
Proof.
  unfold dash_free. induction s as [|c s IH]; simpl; [reflexivity|].
  rewrite lower_ascii_not_dash, IH. reflexivity.
Qed.

Lemma dash_free_cons c s :
  dash_free (String c s) = true → c ≠ "-"%char ∧ dash_free s = true.
Proof.
  unfold dash_free, not_dash. simpl. intros [Hc Hs]%andb_true_iff.
  split; [|exact Hs]. intros ->. discriminate.
Qed.

Lemma prefix_empty s : String.prefix "" s = true.
Proof. destruct s; reflexivity. Qed.

Lemma prefix_two_dashes s : String.prefix "--" ("--" +:+ s) = true.
Proof. cbn. apply prefix_empty. Qed.

Lemma sanitise_leading_underscore t :
  sanitise_kubernetes_name (String "_" t)
  = "underscore-" +:+ str_lower (escape t).
Proof.
  unfold sanitise_kubernetes_name.
  change (str_replace_char "_" "--" (String "_" t)) with ("--" +:+ escape t).
  rewrite prefix_two_dashes.
  change (str_replace_first "--" "underscore-" ("--" +:+ escape t))
    with (if String.prefix "--" ("--" +:+ escape t)
          then "underscore-" +:+ escape t
          else String "-" (str_replace_first "--" "underscore-"
                             (String "-" (escape t)))).
  rewrite prefix_two_dashes. apply str_lower_app.
Qed.

Lemma sanitise_leading_other c t :
  c ≠ "_"%char → c ≠ "-"%char →
  sanitise_kubernetes_name (String c t) = str_lower (escape (String c t)).
Proof.
  intros Hu Hd. unfold sanitise_kubernetes_name. fold (escape (String c t)).
  replace (String.prefix "--" (escape (String c t))) with false; [reflexivity|].
  unfold escape. cbn [str_replace_char].
  rewrite (proj2 (Ascii.eqb_neq c "_") Hu). cbn [String.prefix].
  destruct (ascii_dec "-" c) as [<-|_]; [congruence|reflexivity].
Qed.

(** On a dash-free input the sanitiser is [mark] after lower-casing. *)
Lemma sanitise_is_mark s :
  dash_free s = true → sanitise_kubernetes_name s = mark (str_lower s).
Proof.
  intros Hs. destruct s as [|c t]; [reflexivity|].
  apply dash_free_cons in Hs as [Hc Ht].
  cbn [str_lower mark]. rewrite lower_ascii_underscore.
  destruct (Ascii.eqb_spec c "_") as [->|Hne].
  - rewrite sanitise_leading_underscore, str_lower_escape. reflexivity.
  - rewrite sanitise_leading_other by assumption.
    rewrite str_lower_escape. reflexivity.
Qed.

Lemma escape_cons_underscore t : escape (String "_" t) = "--" +:+ escape t.
Proof. reflexivity. Qed.

Lemma escape_cons_other c t :
  c ≠ "_"%char → escape (String c t) = String c (escape t).
Proof.
  intros Hne. unfold escape. simpl.
  rewrite (proj2 (Ascii.eqb_neq c "_") Hne). reflexivity.
Qed.

(** The first character of an escaped dash-free string, when it is not a
    dash, is the first character of the string. *)
Lemma escape_head u c r :
  dash_free u = true → c ≠ "-"%char → escape u = String c r →
  ∃ u', u = String c u' ∧ dash_free u' = true ∧ escape u' = r.
Proof.
  intros Hu Hc Heq. destruct u as [|d u']; [discriminate|].
  apply dash_free_cons in Hu as [Hd Hu'].
  destruct (Ascii.eqb_spec d "_") as [->|Hne].
  - rewrite escape_cons_underscore in Heq. cbn in Heq.
    injection Heq as Hcd _. exfalso. apply Hc. symmetry. exact Hcd.
  - rewrite escape_cons_other in Heq by exact Hne.
    injection Heq as -> <-. eauto.
Qed.

(** An escaped dash-free string that starts with a dash starts with two. *)
Lemma escape_head_dash u r :
  dash_free u = true → escape u = String "-" r →
  ∃ u', u = String "_" u' ∧ dash_free u' = true ∧ r = String "-" (escape u').
Proof.
  intros Hu Heq. destruct u as [|d u']; [discriminate|].
  apply dash_free_cons in Hu as [Hd Hu'].
  destruct (Ascii.eqb_spec d "_") as [->|Hne].
  - rewrite escape_cons_underscore in Heq. cbn in Heq.
    injection Heq as <-. eauto.
  - rewrite escape_cons_other in Heq by exact Hne.
    injection Heq as Hcd _. exfalso. apply Hd. exact Hcd.
Qed.

Lemma escape_inj s t :
  dash_free s = true → dash_free t = true → escape s = escape t → s = t.
Proof.
  revert t. induction s as [|c s IH]; intros t Hs Ht Heq.
  - destruct t as [|d t]; [reflexivity|].
    destruct (Ascii.eqb_spec d "_") as [->|Hne].
    + rewrite escape_cons_underscore in Heq. discriminate.
    + rewrite escape_cons_other in Heq by exact Hne. discriminate.
  - apply dash_free_cons in Hs as [Hc Hs].
    destruct (Ascii.eqb_spec c "_") as [->|Hne].
    + rewrite escape_cons_underscore in Heq. simpl in Heq. symmetry in Heq.
      apply escape_head_dash in Heq as (t' & -> & Ht' & Heq); [|exact Ht].
      injection Heq as Heq. f_equal. apply IH; auto.
    + rewrite escape_cons_other in Heq by exact Hne. symmetry in Heq.
      apply escape_head in Heq as (t' & -> & Ht' & Heq); [|exact Ht|exact Hc].
      f_equal. apply IH; auto.
Qed.

(** Dashes of an escaped dash-free string come in pairs. *)
Lemma escape_not_odd s t :
  dash_free s = true → dash_free t = true → escape s ≠ String "-" (escape t).
Proof.
  revert t. induction s as [|c s IH]; intros t Hs Ht Heq; [discriminate|].
  apply dash_free_cons in Hs as [Hc Hs].
  destruct (Ascii.eqb_spec c "_") as [->|Hne].
  - rewrite escape_cons_underscore in Heq. simpl in Heq.
    injection Heq as Heq. symmetry in Heq.
    apply escape_head_dash in Heq as (t' & -> & Ht' & Heq); [|exact Ht].
    exact (IH t' Hs Ht' Heq).
  - rewrite escape_cons_other in Heq by exact Hne.
    injection Heq as Hcd _. apply Hc. exact Hcd.
Qed.

Lemma marker_not_escaped t u :
  dash_free t = true → dash_free u = true →
  "underscore-" +:+ escape t ≠ escape u.
Proof.
  intros Ht Hu Heq. symmetry in Heq. simpl in Heq.
  do 10 (apply escape_head in Heq as (? & -> & Hu' & Heq);
         [clear Hu; rename Hu' into Hu | exact Hu | discriminate]).
  exact (escape_not_odd _ _ Hu Ht Heq).
Qed.

Lemma str_app_inv_head p s t : p +:+ s = p +:+ t → s = t.
Proof.
  induction p as [|c p IH]; cbn; [auto|]. intros [= Heq]. exact (IH Heq).
Qed.

Lemma mark_inj s t :
  dash_free s = true → dash_free t = true → mark s = mark t → s = t.
Proof.
  intros Hs Ht Heq.
  destruct s as [|c s], t as [|d t]; simpl in Heq.
  - reflexivity.
  - exfalso. destruct (Ascii.eqb_spec d "_") as [->|Hne]; [discriminate|].
    fold (escape (String d t)) in Heq. rewrite escape_cons_other in Heq by done. discriminate.
  - exfalso. destruct (Ascii.eqb_spec c "_") as [->|Hne]; [discriminate|].
    fold (escape (String c s)) in Heq. rewrite escape_cons_other in Heq by done. discriminate.
  - pose proof (dash_free_cons _ _ Hs) as [Hc Hs'].
    pose proof (dash_free_cons _ _ Ht) as [Hd Ht'].
    destruct (Ascii.eqb_spec c "_") as [->|Hc_], (Ascii.eqb_spec d "_") as [->|Hd_].
    + f_equal. apply escape_inj; auto.
      exact (str_app_inv_head "underscore-" _ _ Heq).
    + exfalso. apply (marker_not_escaped s (String d t) Hs' Ht). exact Heq.
    + exfalso. apply (marker_not_escaped t (String c s) Ht' Hs). symmetry. exact Heq.
    + apply escape_inj; auto.
Qed.

Lemma dashless_is_dash_free s :
  str_forall is_dashless_name_char s = true → dash_free s = true.
Proof.
  unfold dash_free. induction s as [|c s IH]; cbn; [reflexivity|].
  unfold is_dashless_name_char at 1.
  intros [[_ ->]%andb_true_iff Hs]%andb_true_iff. exact (IH Hs).
Qed.

(** Two inputs of the contract's alphabet collide when one writes ["--"]
    where the other writes ["_"], or when they differ in letter case
    only. *)
Lemma sanitise_kubernetes_name_collisions :
  (str_forall is_name_char "a_b" = true
   ∧ str_forall is_name_char "a--b" = true
   ∧ "a_b" ≠ "a--b"
   ∧ sanitise_kubernetes_name "a_b" = sanitise_kubernetes_name "a--b")
  ∧ (str_forall is_name_char "A" = true
     ∧ str_forall is_name_char "a" = true
     ∧ "A" ≠ "a"
     ∧ sanitise_kubernetes_name "A" = sanitise_kubernetes_name "a").
Proof. repeat split; (reflexivity || discriminate). Qed.

(** C9, amended. On inputs that use only letters, digits and ['_'] (no
    ['-']) the sanitiser is injective up to letter case: two such inputs
    with the same output are equal after lower-casing, hence equal when
    both are written in lower case. *)
Theorem sanitise_kubernetes_name_injective_up_to_case :
  ∀ a b : string,
    str_forall is_dashless_name_char a = true →
    str_forall is_dashless_name_char b = true →
    sanitise_kubernetes_name a = sanitise_kubernetes_name b →
    str_lower a = str_lower b
    ∧ (str_lower a = a → str_lower b = b → a = b).
Proof.
  intros a b Ha%dashless_is_dash_free Hb%dashless_is_dash_free Heq.
  assert (Hlow : str_lower a = str_lower b).
  { rewrite !sanitise_is_mark in Heq by assumption.
    apply mark_inj; [rewrite dash_free_lower; exact Ha
                    | rewrite dash_free_lower; exact Hb | exact Heq]. }
  split; [exact Hlow|]. intros <- <-. exact Hlow.
Qed.

End SanitiseFacts.

(** C9, amended, at two spellings of one name. *)
Lemma sanitise_kubernetes_name_injective_up_to_case_witness :
  str_lower "_Foo_Bar9" = str_lower "_foo_bar9".
Proof.
  apply (sanitise_kubernetes_name_injective_up_to_case "_Foo_Bar9" "_foo_bar9");
    reflexivity.
Defined.

(** ** Placement *)

Section PlacementFacts.
Context `{LongRunningServiceConfig}.

Implicit Types self : KubernetesDeploymentConfig.

Lemma get_node_affinity_unfold self :
  get_node_affinity self
  = (extension ← _raw_selectors_to_requirements self;
     let requirements :=
       (_whitelist_blacklist_to_requirements self ++ extension)%list in
     match requirements with
     | [] => Return None
     | _ => Return (Some (affinity_of_requirements requirements))
     end).
Proof.
  unfold get_node_affinity.
  destruct (_raw_selectors_to_requirements self) as [extension|e]; [|reflexivity].
  cbn [mbind result_bind].
  destruct (_whitelist_blacklist_to_requirements self ++ extension)%list;
    reflexivity.
Qed.

Lemma no_requirements_iff self (extension : list requirement) :
  (_whitelist_blacklist_to_requirements self ++ extension)%list = []
  ↔ get_deploy_whitelist self = None
    ∧ get_deploy_blacklist self = [] ∧ extension = [].
Proof.
  unfold _whitelist_blacklist_to_requirements.
  destruct (get_deploy_whitelist self) as [[location_type alloweds]|].
  - split; [intros [=] | intros [[=] _]].
  - destruct (get_deploy_blacklist self) as [|[location_type not_allowed] rest].
    + cbn. split; [intros ->; auto | intros (_ & _ & ->); reflexivity].
    + split; [intros [=] | intros (_ & [=] & _)].
Qed.

Lemma dict_get_set_same {V : Type} k (v : V) d :
  dict_get k (dict_set k v d) = Some v.
Proof.
  induction d as [|[k0 v0] d IH]; cbn [dict_set dict_get].
  - rewrite String.eqb_refl. reflexivity.
  - destruct (String.eqb_spec k0 k) as [->|Hne]; cbn [dict_get].
    + rewrite String.eqb_refl. reflexivity.
    + rewrite (proj2 (String.eqb_neq k0 k) Hne). exact IH.
Qed.

Lemma label_selector_some condition :
  is_Some (_kube_affinity_condition_to_label_selector condition)
  ↔ dict_has "service" condition = true
    ∨ dict_has "instance" condition = true.
Proof.
  unfold _kube_affinity_condition_to_label_selector.
  destruct (dict_has "service" condition), (dict_has "instance" condition);
    cbn; split; intros Hs; eauto; try (destruct Hs as [x Hx]; discriminate);
    destruct Hs; discriminate.
Qed.

Lemma anti_affinity_terms self anti :
  get_pod_anti_affinity self = Some anti →
  anti_affinity_conditions self ≠ []
  ∧ (required_pod_affinity_terms anti ≠ []
     ↔ ∃ condition,
         condition ∈ anti_affinity_conditions self
         ∧ (dict_has "service" condition = true
            ∨ dict_has "instance" condition = true)).
Proof.
  unfold get_pod_anti_affinity, anti_affinity_conditions.
  set (term_of := fun condition => _).
  assert (Hterms : ∀ cs : list KubeAffinityCondition,
            omap term_of cs ≠ []
            ↔ ∃ condition,
                condition ∈ cs
                ∧ (dict_has "service" condition = true
                   ∨ dict_has "instance" condition = true)).
  { intros cs. split.
    - intros Hne. destruct (omap term_of cs) as [|term rest] eqn:Hmap;
        [contradiction|].
      assert (Hin : term ∈ omap term_of cs)
        by (rewrite Hmap; apply list_elem_of_here).
      apply list_elem_of_omap in Hin as (c & Hc & Hterm).
      exists c. split; [exact Hc|]. apply label_selector_some.
      unfold term_of in Hterm.
      destruct (_kube_affinity_condition_to_label_selector c);
        [eauto | discriminate].
    - intros (c & Hc & Hkeys) Hnil.
      apply label_selector_some in Hkeys as [selector Hsel].
      assert (Hin : {| topology_key := "kubernetes.io/hostname";
                       label_selector := selector |} ∈ omap term_of cs).
      { apply list_elem_of_omap. exists c. split; [exact Hc|].
        unfold term_of. rewrite Hsel. reflexivity. }
      rewrite Hnil in Hin. apply elem_of_nil in Hin. exact Hin. }
  destruct (anti_affinity (config_dict self)) as [[c|cs]|];
    cbn [default negb].
  - destruct c as [|kv c]; cbn [nonempty negb]; [discriminate|].
    intros [= <-]. split; [discriminate|]. exact (Hterms [kv :: c]).
  - destruct cs as [|c cs]; cbn [nonempty negb]; [discriminate|].
    intros [= <-]. split; [discriminate|]. exact (Hterms (c :: cs)).
  - discriminate.
Qed.

(** C8, amended. [get_node_affinity] returns [None] exactly when the list
    of requirements merged from the allow-list, the deny-list and the raw
    selector configs is empty (and raises when a selector config is
    malformed); a node affinity that is returned carries one term with
    one expression per requirement, so neither is empty.  The affinity
    entry of the pod template holds the node affinity and the pod
    anti-affinity whenever one of them is present, and is otherwise the
    entry of the pod defaults; so with pod defaults that have no such
    entry it is absent exactly when both are absent, and an entry that is
    there holds at least one of the two.  No template is returned when
    the anti-affinity has to be set on a plain value of the pod defaults.
    A pod anti-affinity has a term exactly when one of its conditions
    names a service or an instance. *)
Theorem node_affinity_absent_iff_no_requirements :
  ∀ self system_paasta_config,
    let default_entry :=
      dict_get "affinity"
               (dict_update [] (get_pod_defaults system_paasta_config)) in
    let emitted := get_pod_template_spec_affinity self system_paasta_config in
    match _raw_selectors_to_requirements self with
    | Raise e =>
        get_node_affinity self = Raise e
        ∧ ∀ entry, emitted ≠ Return entry
    | Return extension =>
        let requirements :=
          (_whitelist_blacklist_to_requirements self ++ extension)%list in
        (get_node_affinity self = Return None ↔ requirements = [])
        ∧ (requirements = []
           ↔ get_deploy_whitelist self = None
             ∧ get_deploy_blacklist self = [] ∧ extension = [])
        ∧ (∀ found, get_node_affinity self = Return (Some found) →
             requirements ≠ []
             ∧ found = affinity_of_requirements requirements
             ∧ node_selector_terms (required_node_selector found) ≠ []
             ∧ Forall (fun term => match_expressions term ≠ [])
                      (node_selector_terms (required_node_selector found)))
        ∧ (∃ found, get_node_affinity self = Return found
             ∧ match found, get_pod_anti_affinity self with
               | None, None => emitted = Return default_entry
               | Some _, anti =>
                   emitted
                   = Return (Some (KAffinity
                                     {| node_affinity := found;
                                        pod_anti_affinity := anti |}))
               | None, Some anti =>
                   match default_entry with
                   | None =>
                       emitted
                       = Return (Some (KAffinity
                                         {| node_affinity := None;
                                            pod_anti_affinity := Some anti |}))
                   | Some (KAffinity affinity) =>
                       emitted
                       = Return (Some (KAffinity
                                         (set_pod_anti_affinity affinity anti)))
                   | Some (KValue _) => ∀ entry, emitted ≠ Return entry
                   end
               end)
        ∧ (default_entry = None →
           (emitted = Return None
            ↔ get_node_affinity self = Return None
              ∧ get_pod_anti_affinity self = None)
           ∧ ∀ entry, emitted = Return (Some entry) →
               ∃ affinity,
                 entry = KAffinity affinity
                 ∧ get_node_affinity self = Return (node_affinity affinity)
                 ∧ pod_anti_affinity affinity = get_pod_anti_affinity self
                 ∧ (is_Some (node_affinity affinity)
                    ∨ is_Some (pod_anti_affinity affinity)))
        ∧ (∀ anti, get_pod_anti_affinity self = Some anti →
             required_pod_affinity_terms anti ≠ []
             ↔ ∃ condition,
                 condition ∈ anti_affinity_conditions self
                 ∧ (dict_has "service" condition = true
                    ∨ dict_has "instance" condition = true))
    end.
Proof.
  intros self system_paasta_config default_entry emitted.
  subst emitted. unfold get_pod_template_spec_affinity.
  fold default_entry.
  set (pod_spec_kwargs := dict_update [] _) in *.
  rewrite get_node_affinity_unfold.
  pose proof (no_requirements_iff self) as Hempty.
  pose proof (anti_affinity_terms self) as Hanti.
  destruct (_raw_selectors_to_requirements self) as [extension|e];
    [|split; [reflexivity | intros entry; discriminate]].
  cbn [mbind result_bind]. specialize (Hempty extension).
  destruct (_whitelist_blacklist_to_requirements self ++ extension)%list
    as [|r rs] eqn:Hreqs; cbn zeta; cbn [mbind result_bind];
    (split; [|split; [exact Hempty|]]).
  - split; reflexivity.
  - split; [intros found [=]|].
    split; [|split; [|intros anti Ha; apply (Hanti anti Ha)]].
    + exists None. split; [reflexivity|].
      destruct (get_pod_anti_affinity self) as [anti|];
        cbn [mbind result_bind]; [|reflexivity].
      fold default_entry.
      destruct default_entry as [[affinity|value]|];
        cbn [default id]; cbn [mbind result_bind].
      * rewrite dict_get_set_same. reflexivity.
      * intros entry. discriminate.
      * rewrite dict_get_set_same. reflexivity.
    + intros Hdefault. fold default_entry. rewrite Hdefault.
      destruct (get_pod_anti_affinity self) as [anti|];
        cbn [default id]; cbn [mbind result_bind].
      * rewrite dict_get_set_same. split.
        -- split; [intros [=] | intros [_ [=]]].
        -- intros entry [= <-]. eexists. split; [reflexivity|].
           cbn. split; [reflexivity|]. split; [reflexivity|]. right. eauto.
      * fold default_entry. rewrite Hdefault. split.
        -- split; [auto | reflexivity].
        -- intros entry [=].
  - split; intros [=].
  - split.
    { intros found [= <-]. split; [discriminate|]. split; [reflexivity|].
      split; [discriminate|].
      repeat constructor. destruct r as [[? ?] ?]. discriminate. }
    split; [|split; [|intros anti Ha; apply (Hanti anti Ha)]].
    + eexists. split; [reflexivity|]. cbv beta iota.
      rewrite !dict_get_set_same. cbn [default id].
      destruct (get_pod_anti_affinity self) as [anti|];
        cbn [mbind result_bind]; rewrite !dict_get_set_same; reflexivity.
    + intros _. rewrite !dict_get_set_same. cbn [default id].
      destruct (get_pod_anti_affinity self) as [anti|];
        cbn [mbind result_bind]; rewrite !dict_get_set_same.
      * split; [split; [intros [=] | intros [[=] _]]|].
        intros entry [= <-]. eexists. split; [reflexivity|].
        cbn. split; [reflexivity|]. split; [reflexivity|]. left. eauto.
      * split; [split; [intros [=] | intros [[=] _]]|].
        intros entry [= <-]. eexists. split; [reflexivity|].
        cbn. split; [reflexivity|]. split; [reflexivity|]. left. eauto.
Qed.

End PlacementFacts.

(** C8, amended, at a configuration with an allow-list, a deny-list, a
    [Gt] selector and two anti-affinity conditions, over pod defaults
    that carry an affinity entry. *)
Lemma node_affinity_absent_iff_no_requirements_witness :
  let env := fixed_environment "start" false 1 [] []
               (Some ("region", ["uswest1-prod"])) [("habitat", "devc")] in
  let self :=
    example_config
      {| bounce_method := None; bounce_margin_factor := None;
         autoscaling := None; min_instances := None; max_instances := None;
         node_selectors :=
           Some [("instance_type",
                  SelConfigList
                    [ {| sc_operator := Some "Gt"; sc_values := None;
                         sc_value := Some 4 |} ])];
         anti_affinity :=
           Some (ConditionList [[("service", "example_service")];
                                [("zone", "a")]]) |} in
  let system_paasta_config :=
    {| get_pod_defaults :=
         [("dns_policy", KValue (PStr "Default"));
          ("affinity", KValue (PDict []))] |} in
  let found :=
    affinity_of_requirements
      [ ("yelp.com/region", "In", ["uswest1-prod"]);
        ("yelp.com/habitat", "NotIn", ["devc"]);
        ("node.kubernetes.io/instance-type", "Gt", ["4"]) ] in
  @get_node_affinity env self = Return (Some found)
  ∧ @get_pod_template_spec_affinity env self system_paasta_config
    = Return (Some (KAffinity
        {| node_affinity := Some found;
           pod_anti_affinity :=
             Some {| required_pod_affinity_terms :=
                       [ {| topology_key := "kubernetes.io/hostname";
                            label_selector :=
                              {| match_labels :=
                                   [("paasta.yelp.com/service",
                                     Some "example_service")] |} |} ] |} |})).
Proof.
  intros env self system_paasta_config found.
  destruct (node_affinity_absent_iff_no_requirements (H := env) self
              system_paasta_config)
    as (_ & _ & _ & (found' & Hfound & Hemitted) & _).
  injection Hfound as <-. split; [reflexivity | exact Hemitted].
Defined.

(** With an allow-list and a [Gt] selector the node affinity carries both
    requirements. *)
Lemma node_affinity_of_whitelist_and_selector :
  let env := fixed_environment "start" false 1 [] []
               (Some ("region", ["uswest1-prod"])) [] in
  let self :=
    example_config
      {| bounce_method := None; bounce_margin_factor := None;
         autoscaling := None; min_instances := None; max_instances := None;
         node_selectors :=
           Some [("instance_type",
                  SelConfigList
                    [ {| sc_operator := Some "Gt"; sc_values := None;
                         sc_value := Some 4 |} ])];
         anti_affinity := None |} in
  @get_node_affinity env self
  = Return (Some (affinity_of_requirements
                    [ ("yelp.com/region", "In", ["uswest1-prod"]);
                      ("node.kubernetes.io/instance-type", "Gt", ["4"]) ])).
Proof. vm_compute. reflexivity. Qed.

(** An affinity entry is emitted holding nothing that restricts:
    with an anti-affinity condition that names neither a service nor an
    instance the entry has no node affinity and an anti-affinity without
    terms; and an entry of the pod defaults is passed on when the
    configuration has neither node affinity nor anti-affinity. *)
Lemma affinity_present_without_content :
  let env := fixed_environment "start" false 1 [] [] None [] in
  let unrecognised :=
    example_config
      {| bounce_method := None; bounce_margin_factor := None;
         autoscaling := None; min_instances := None; max_instances := None;
         node_selectors := None;
         anti_affinity := Some (ConditionList [[("zone", "a")]]) |} in
  let plain := example_config empty_config_dict in
  (@get_node_affinity env unrecognised = Return None
   ∧ @get_pod_template_spec_affinity env unrecognised
       {| get_pod_defaults := [] |}
     = Return (Some (KAffinity
                       {| node_affinity := None;
                          pod_anti_affinity :=
                            Some {| required_pod_affinity_terms := [] |} |})))
  ∧ (@get_node_affinity env plain = Return None
     ∧ get_pod_anti_affinity plain = None
     ∧ @get_pod_template_spec_affinity env plain
         {| get_pod_defaults := [("affinity", KValue (PDict []))] |}
       = Return (Some (KValue (PDict [])))).
Proof. repeat split. Qed.

(** ** Bounce method and replica count *)

Section BounceFacts.
Context `{LongRunningServiceConfig}.

Implicit Types self : KubernetesDeploymentConfig.

Lemma nonempty_true {A : Type} (l : list A) : l ≠ [] → nonempty l = true.
Proof. destruct l; [congruence | reflexivity]. Qed.

Lemma string_eqb_false (a b : string) : a ≠ b → String.eqb a b = false.
Proof. intros Hne. apply String.eqb_neq. exact Hne. Qed.

(** Without an EBS volume the configured method is returned as it is. *)
Lemma get_bounce_method_no_ebs self :
  get_aws_ebs_volumes self = [] →
  get_bounce_method self
  = Return (default "crossover" (bounce_method (config_dict self))).
Proof.
  intros Hebs. unfold get_bounce_method. rewrite Hebs. reflexivity.
Qed.

(** C4. With an EBS volume attached, [get_bounce_method] returns exactly
    when the configured method is ["downthenup"], and raises the
    incompatible-bounce-method exception for every other configured
    method, the default ["crossover"] of an absent key included; with no
    EBS volume it never raises. *)
Theorem get_bounce_method_ebs_requires_downthenup :
  ∀ self,
    (get_aws_ebs_volumes self ≠ [] →
       (bounce_method (config_dict self) = Some "downthenup" →
          get_bounce_method self = Return "downthenup")
       ∧ (bounce_method (config_dict self) ≠ Some "downthenup" →
            get_bounce_method self = Raise IncompatibleBounceMethod))
    ∧ (get_aws_ebs_volumes self = [] →
         ∃ method, get_bounce_method self = Return method).
Proof.
  intros self. split.
  - intros Hebs. unfold get_bounce_method.
    rewrite (nonempty_true _ Hebs). cbn [andb].
    assert (Hother : bounce_method (config_dict self) ≠ Some "downthenup" →
              (if negb (default "crossover" (bounce_method (config_dict self))
                        =? "downthenup")%string
               then Raise IncompatibleBounceMethod
               else Return (default "crossover"
                              (bounce_method (config_dict self))))
              = Raise IncompatibleBounceMethod).
    { intros Hne.
      destruct (bounce_method (config_dict self)) as [m|]; cbn [default].
      - rewrite string_eqb_false by (intros Heq; apply Hne; f_equal; exact Heq).
        reflexivity.
      - reflexivity. }
    split.
    + intros ->. reflexivity.
    + exact Hother.
  - intros Hebs. eexists. apply get_bounce_method_no_ebs. exact Hebs.
Qed.



End BounceFacts.

(** C4, at a configuration with one EBS volume and the method
    ["crossover"]. *)
Lemma get_bounce_method_ebs_requires_downthenup_witness :
  @get_bounce_method
    (fixed_environment "start" false 1 [example_ebs_volume] [] None [])
    (example_config
       {| bounce_method := Some "crossover"; bounce_margin_factor := None;
          autoscaling := None; min_instances := None; max_instances := None;
          node_selectors := None; anti_affinity := None |})
  = Raise IncompatibleBounceMethod.
Proof.
  apply (get_bounce_method_ebs_requires_downthenup
           (H := fixed_environment "start" false 1 [example_ebs_volume] []
                   None [])).
  - simpl. discriminate.
  - simpl. discriminate.
Defined.


(** ** Floating-point arithmetic *)

Section FloatFacts.

Lemma digits2_pos_size p : digits2_pos p = Pos.size p.
Proof. induction p as [p IH|p IH|]; simpl; congruence. Qed.

Lemma digits2_pos_log2 p : Z.pos (digits2_pos p) = Z.log2 (Z.pos p) + 1.
Proof.
  rewrite digits2_pos_size. destruct p; simpl; lia.
Qed.

Lemma Zdigits2_log2 m : 0 < m → Zdigits2 m = Z.log2 m + 1.
Proof.
  destruct m as [|p|p]; try lia. intros _. apply digits2_pos_log2.
Qed.

(** [m] has at most [d] binary digits exactly when it is below [2^d]. *)
Lemma Zdigits2_le_iff m d : 0 < m → Zdigits2 m ≤ d ↔ m < 2 ^ d.
Proof.
  intros Hm. rewrite Zdigits2_log2 by exact Hm.
  rewrite (Z.log2_lt_pow2 m d Hm). lia.
Qed.

Lemma Zdigits2_nonneg m : 0 ≤ Zdigits2 m.
Proof. destruct m; simpl; lia. Qed.

Lemma Zdigits2_pos m : 0 < m → 0 < Zdigits2 m.
Proof. destruct m; simpl; lia. Qed.

(** Digits of a product. *)
Lemma Zdigits2_mul a b :
  0 < a → 0 < b → Zdigits2 (a * b) ≤ Zdigits2 a + Zdigits2 b.
Proof.
  intros Ha Hb. apply Zdigits2_le_iff; [lia|].
  pose proof (proj1 (Zdigits2_le_iff a (Zdigits2 a) Ha) (Z.le_refl _)) as Ha'.
  pose proof (proj1 (Zdigits2_le_iff b (Zdigits2 b) Hb) (Z.le_refl _)) as Hb'.
  rewrite Z.pow_add_r by apply Zdigits2_nonneg. nia.
Qed.

(** Digits after a right shift by [k] bits. *)
Lemma Zdigits2_div_pow2 m k :
  0 < m → 0 ≤ k → 0 < m / 2 ^ k → Zdigits2 (m / 2 ^ k) + k ≤ Zdigits2 m.
Proof.
  intros Hm Hk Hq.
  assert (Zdigits2 (m / 2 ^ k) ≤ Zdigits2 m - k); [|lia].
  apply Zdigits2_le_iff; [exact Hq|].
  pose proof (proj1 (Zdigits2_le_iff m (Zdigits2 m) Hm) (Z.le_refl _)) as Hlt.
  assert (Hle : k ≤ Zdigits2 m).
  { destruct (Z.le_gt_cases k (Zdigits2 m)) as [|Hgt]; [assumption|].
    exfalso. assert (m < 2 ^ k).
    { eapply Z.lt_le_trans; [exact Hlt|].
      apply Z.pow_le_mono_r; lia. }
    rewrite Z.div_small in Hq by lia. lia. }
  apply Z.div_lt_upper_bound; [apply Z.pow_pos_nonneg; lia|].
  rewrite <- Z.pow_add_r by lia.
  replace (k + (Zdigits2 m - k)) with (Zdigits2 m) by lia. exact Hlt.
Qed.

Lemma Zdigits2_succ m : 0 ≤ m → Zdigits2 (m + 1) ≤ Zdigits2 m + 1.
Proof.
  intros Hm. destruct (Z.eq_dec m 0) as [->|Hne]; [simpl; lia|].
  apply Zdigits2_le_iff; [lia|].
  pose proof (proj1 (Zdigits2_le_iff m (Zdigits2 m) ltac:(lia)) (Z.le_refl _)).
  rewrite Z.pow_add_r by (try apply Zdigits2_nonneg; lia).
  change (2 ^ 1) with 2. lia.
Qed.

Lemma Zdigits2_mono a b : 0 < a → a ≤ b → Zdigits2 a ≤ Zdigits2 b.
Proof.
  intros Ha Hab. apply Zdigits2_le_iff; [exact Ha|].
  pose proof (proj1 (Zdigits2_le_iff b (Zdigits2 b) ltac:(lia)) (Z.le_refl _)).
  lia.
Qed.

(** *** Right shifts *)

Lemma shr_m_shr_1 mrs : 0 ≤ shr_m mrs → shr_m (shr_1 mrs) = shr_m mrs / 2.
Proof.
  destruct mrs as [m r s]. simpl. intros Hm.
  destruct m as [|[p|p|]|p]; cbn [shr_m shr_1]; try lia.
  - reflexivity.
  - apply (Z.div_unique (Z.pos p~1) 2 (Z.pos p) 1); lia.
  - apply (Z.div_unique (Z.pos p~0) 2 (Z.pos p) 0); lia.
  - reflexivity.
Qed.

Lemma shr_m_iter p : ∀ mrs,
  0 ≤ shr_m mrs →
  shr_m (SpecFloat.iter_pos shr_1 p mrs) = shr_m mrs / 2 ^ Z.pos p.
Proof.
  assert (Hstep : ∀ mrs, 0 ≤ shr_m mrs → 0 ≤ shr_m (shr_1 mrs)).
  { intros mrs Hm. rewrite shr_m_shr_1 by exact Hm.
    apply Z.div_pos; lia. }
  induction p as [p IH|p IH|]; intros mrs Hm; simpl SpecFloat.iter_pos.
  - rewrite IH, IH, shr_m_shr_1; try assumption.
    + rewrite !Z.div_div by (try apply Z.pow_pos_nonneg; lia).
      f_equal. replace (Z.pos p~1) with (1 + Z.pos p + Z.pos p) by lia.
      rewrite !Z.pow_add_r by lia. change (2 ^ 1) with 2. lia.
    + apply Hstep, Hm.
    + rewrite IH by (apply Hstep, Hm).
      apply Z.div_pos; [apply Hstep, Hm | apply Z.pow_pos_nonneg; lia].
  - rewrite IH, IH; try assumption.
    + rewrite !Z.div_div by (try apply Z.pow_pos_nonneg; lia).
      f_equal. replace (Z.pos p~0) with (Z.pos p + Z.pos p) by lia.
      rewrite !Z.pow_add_r by lia. lia.
    + rewrite IH by exact Hm.
      apply Z.div_pos; [exact Hm | apply Z.pow_pos_nonneg; lia].
  - rewrite shr_m_shr_1 by exact Hm. reflexivity.
Qed.

Lemma shr_m_of_loc m l : shr_m (shr_record_of_loc m l) = m.
Proof. destruct l as [|[]]; reflexivity. Qed.

(** [shr_fexp] divides the mantissa by a power of two and raises the
    exponent to [fexp] of the magnitude. *)
Lemma shr_fexp_spec m e l :
  0 ≤ m →
  ∃ k, 0 ≤ k
    ∧ shr_m (fst (shr_fexp prec emax m e l)) = m / 2 ^ k
    ∧ snd (shr_fexp prec emax m e l) = e + k
    ∧ e + k = Z.max e (fexp prec emax (Zdigits2 m + e)).
Proof.
  intros Hm. unfold shr_fexp, shr.
  destruct (fexp prec emax (Zdigits2 m + e) - e) as [|p|p] eqn:Hk.
  - exists 0. cbn [fst snd]. rewrite shr_m_of_loc, Z.div_1_r. lia.
  - exists (Z.pos p). cbn [fst snd].
    rewrite shr_m_iter by (rewrite shr_m_of_loc; exact Hm).
    rewrite shr_m_of_loc. lia.
  - exists 0. cbn [fst snd]. rewrite shr_m_of_loc, Z.div_1_r. lia.
Qed.

Lemma round_nearest_even_bounds m l :
  m ≤ round_nearest_even m l ≤ m + 1.
Proof.
  unfold round_nearest_even. destruct l as [|[]]; try lia.
  destruct (Z.even m); lia.
Qed.

Lemma fexp_le d E : d ≤ E + prec → emin prec emax ≤ E → fexp prec emax d ≤ E.
Proof. unfold fexp. lia. Qed.

(** *** Rounding *)

(** Rounding a positive mantissa of magnitude below [2^B], with [B] under
    the overflow threshold, gives a number of magnitude at most [2^B]. *)
Lemma binary_round_aux_within s m e l B :
  0 < m → Zdigits2 m + e ≤ B → emin prec emax ≤ B → B ≤ emax - 1 →
  e ≤ emax - prec →
  float_within (B + 1) (emax - prec) (binary_round_aux prec emax s m e l) = true.
Proof.
  intros Hm Hmag HBmin HB He. unfold binary_round_aux.
  destruct (shr_fexp_spec m e l ltac:(lia)) as (k & Hk & Hm1 & He1 & Hmax).
  destruct (shr_fexp prec emax m e l) as [mrs1 e1]. cbn [fst snd] in *.
  set (m1 := round_nearest_even (shr_m mrs1) (loc_of_shr_record mrs1)).
  assert (Hq : 0 ≤ m / 2 ^ k) by (apply Z.div_pos; [lia | apply Z.pow_pos_nonneg; lia]).
  pose proof (round_nearest_even_bounds (shr_m mrs1) (loc_of_shr_record mrs1)) as Hr.
  fold m1 in Hr. rewrite Hm1 in Hr.
  assert (Hm1' : 0 ≤ m1) by lia.
  assert (He1' : e1 ≤ emax - prec).
  { rewrite He1, Hmax. apply Z.max_lub; [exact He|].
    apply fexp_le; [lia | unfold emin, emax, prec; lia]. }
  assert (Hemin : emin prec emax ≤ e1).
  { rewrite He1, Hmax. unfold fexp. lia. }
  (* magnitude of the rounded mantissa *)
  assert (Hmag1 : m1 = 0 ∨ (0 < m1 ∧ Zdigits2 m1 + e1 ≤ B + 1)).
  { destruct (Z.eq_dec m1 0) as [|Hne]; [left; assumption|right].
    split; [lia|].
    destruct (Z.eq_dec (m / 2 ^ k) 0) as [Hz|Hnz].
    - assert (Hone : m1 = 1) by lia. rewrite Hone.
      change (Zdigits2 1) with 1. rewrite He1, Hmax.
      pose proof (Zdigits2_pos m Hm).
      unfold fexp, emin, emax, prec in *. lia.
    - pose proof (Zdigits2_div_pow2 m k Hm Hk ltac:(lia)) as Hd.
      pose proof (Zdigits2_succ (m / 2 ^ k) Hq) as Hs.
      assert (Zdigits2 m1 ≤ Zdigits2 (m / 2 ^ k + 1))
        by (apply Zdigits2_mono; lia).
      lia. }
  destruct (shr_fexp_spec m1 e1 loc_Exact Hm1') as (k2 & Hk2 & Hm2 & He2 & Hmax2).
  destruct (shr_fexp prec emax m1 e1 loc_Exact) as [mrs2 e2]. cbn [fst snd] in *.
  destruct (shr_m mrs2) as [|p|p] eqn:Hp.
  - reflexivity.
  - assert (Hpos : 0 < m1 / 2 ^ k2) by lia.
    assert (Hm1pos : 0 < m1).
    { destruct (Z.eq_dec m1 0) as [Hz|]; [|lia].
      rewrite Hz, Z.div_0_l in Hpos by (apply Z.pow_nonzero; lia). lia. }
    destruct Hmag1 as [|[_ Hmag1]]; [lia|].
    pose proof (Zdigits2_div_pow2 m1 k2 Hm1pos Hk2 Hpos) as Hd.
    assert (He2' : e2 ≤ emax - prec).
    { rewrite He2, Hmax2. apply Z.max_lub; [exact He1'|].
      apply fexp_le; [lia | unfold emin, emax, prec; lia]. }
    rewrite (proj2 (Z.leb_le e2 (emax - prec)) He2').
    cbn [float_within]. rewrite andb_true_iff, !Z.leb_le.
    split; [|exact He2'].
    change (Z.pos (digits2_pos p)) with (Zdigits2 (Z.pos p)).
    rewrite <- Hm2 in Hd. lia.
  - exfalso. assert (0 ≤ m1 / 2 ^ k2)
      by (apply Z.div_pos; [lia | apply Z.pow_pos_nonneg; lia]). lia.
Qed.

(** *** Alignment *)

Lemma digits2_pos_iter_xO m d :
  digits2_pos (Pos.iter xO m d) = (digits2_pos m + d)%positive.
Proof.
  induction d as [|d IH] using Pos.peano_ind.
  - simpl. lia.
  - rewrite Pos.iter_succ. simpl. rewrite IH. lia.
Qed.

Lemma shl_align_spec mx ex ex' :
  ex' ≤ ex →
  snd (shl_align mx ex ex') = ex'
  ∧ Zdigits2 (Z.pos (fst (shl_align mx ex ex'))) + ex'
    = Zdigits2 (Z.pos mx) + ex.
Proof.
  intros Hle. unfold shl_align.
  destruct (ex' - ex) as [|d|d] eqn:Hd; cbn [fst snd Zdigits2]; try lia.
  rewrite digits2_pos_iter_xO. lia.
Qed.

(** Without the ordering: the magnitude is kept and the exponent does not
    grow. *)
Lemma shl_align_magnitude mx ex ex' :
  snd (shl_align mx ex ex') ≤ ex
  ∧ Zdigits2 (Z.pos (fst (shl_align mx ex ex'))) + snd (shl_align mx ex ex')
    = Zdigits2 (Z.pos mx) + ex.
Proof.
  unfold shl_align.
  destruct (ex' - ex) as [|d|d] eqn:Hd; cbn [fst snd Zdigits2]; try lia.
  rewrite digits2_pos_iter_xO. lia.
Qed.

Lemma binary_round_within s m e B :
  Zdigits2 (Z.pos m) + e ≤ B → emin prec emax ≤ B → B ≤ emax - 1 →
  e ≤ emax - prec →
  float_within (B + 1) (emax - prec) (binary_round prec emax s m e) = true.
Proof.
  intros Hmag HBmin HB He. unfold binary_round.
  pose proof (shl_align_magnitude m e
                (fexp prec emax (Z.pos (digits2_pos m) + e))) as [Hsnd Hdig].
  destruct (shl_align m e _) as [mz ez]. cbn [fst snd] in *.
  apply binary_round_aux_within; lia.
Qed.

Lemma binary_normalize_within m e szero B :
  Zdigits2 m + e ≤ B → emin prec emax ≤ B → B ≤ emax - 1 →
  e ≤ emax - prec →
  float_within (B + 1) (emax - prec) (binary_normalize prec emax m e szero)
  = true.
Proof.
  intros Hmag HBmin HB He. unfold binary_normalize.
  destruct m as [|p|p]; [reflexivity| |]; apply binary_round_within; assumption.
Qed.

(** *** Conversions and operations *)

Lemma float_within_weaken B E B' E' x :
  B ≤ B' → E ≤ E' → float_within B E x = true → float_within B' E' x = true.
Proof.
  intros HB HE. destruct x as [| | |s m e]; cbn; try done.
  rewrite !andb_true_iff, !Z.leb_le. lia.
Qed.

Lemma float_within_finite B E x : float_within B E x = true → is_finite x = true.
Proof. destruct x; cbn; done. Qed.

(** An integer of magnitude below [2^B] converts to a float. *)
Lemma Z_to_float_within n B :
  Z.abs n < 2 ^ B → 0 ≤ B → B ≤ emax - 1 →
  float_within (B + 1) (emax - prec) (Z_to_float n) = true.
Proof.
  intros Hn HB0 HB. unfold Z_to_float.
  apply binary_normalize_within; unfold emin, emax, prec in *; try lia.
  destruct (Z.eq_dec n 0) as [->|Hne]; [simpl; lia|].
  assert (Hd : Zdigits2 n = Zdigits2 (Z.abs n)) by (destruct n; reflexivity).
  rewrite Hd. assert (Zdigits2 (Z.abs n) ≤ B); [|lia].
  apply Zdigits2_le_iff; lia.
Qed.

Lemma float_of_int_returns n B :
  Z.abs n < 2 ^ B → 0 ≤ B → B ≤ emax - 1 →
  float_of_int n = Return (Z_to_float n)
  ∧ float_within (B + 1) (emax - prec) (Z_to_float n) = true.
Proof.
  intros Hn HB0 HB.
  pose proof (Z_to_float_within n B Hn HB0 HB) as Hw.
  split; [|exact Hw]. unfold float_of_int.
  destruct (Z_to_float n); try reflexivity; discriminate.
Qed.

Lemma float_mul_within B1 E1 B2 E2 x y :
  float_within B1 E1 x = true → float_within B2 E2 y = true →
  emin prec emax ≤ B1 + B2 → B1 + B2 ≤ emax - 1 → E1 + E2 ≤ emax - prec →
  float_within (B1 + B2 + 1) (emax - prec) (float_mul x y) = true.
Proof.
  intros Hx Hy HBmin HB HE. unfold float_mul, SFmul.
  destruct x as [sx| | |sx mx ex], y as [sy| | |sy my ey];
    try discriminate; try reflexivity.
  cbn [float_within] in Hx, Hy.
  rewrite !andb_true_iff, !Z.leb_le in Hx, Hy.
  destruct Hx as [Hx1 Hx2], Hy as [Hy1 Hy2].
  apply binary_round_aux_within; try lia.
  pose proof (Zdigits2_mul (Z.pos mx) (Z.pos my) ltac:(lia) ltac:(lia)) as Hd.
  cbn [Zdigits2] in Hd. rewrite Pos2Z.inj_mul. cbn [Zdigits2] in *. lia.
Qed.

Lemma Zdigits2_abs_sum a b d :
  0 ≤ d → 0 < a → 0 < b → Zdigits2 a ≤ d → Zdigits2 b ≤ d →
  ∀ z, Z.abs z ≤ a + b → Zdigits2 z ≤ d + 1.
Proof.
  intros Hd Ha Hb Hda Hdb z Hz.
  destruct (Z.eq_dec z 0) as [->|Hne]; [simpl; lia|].
  assert (Heq : Zdigits2 z = Zdigits2 (Z.abs z)) by (destruct z; reflexivity).
  rewrite Heq. apply Zdigits2_le_iff; [lia|].
  apply Zdigits2_le_iff in Hda, Hdb; try assumption.
  rewrite Z.pow_add_r by lia. change (2 ^ 1) with 2. lia.
Qed.

Lemma float_sub_within B E x y :
  float_within B E x = true → float_within B E y = true →
  emin prec emax ≤ B + 1 → B + 1 ≤ emax - 1 → E ≤ emax - prec →
  float_within (B + 2) (emax - prec) (float_sub x y) = true.
Proof.
  intros Hx Hy HBmin HB HE. unfold float_sub, SFsub.
  destruct x as [sx| | |sx mx ex], y as [sy| | |sy my ey];
    try discriminate.
  - destruct sx, sy; reflexivity.
  - eapply float_within_weaken; [| |exact Hy]; lia.
  - eapply float_within_weaken; [| |exact Hx]; lia.
  - cbn [float_within] in Hx, Hy.
    rewrite !andb_true_iff, !Z.leb_le in Hx, Hy.
    destruct Hx as [Hx1 Hx2], Hy as [Hy1 Hy2].
    set (ez := Z.min ex ey).
    destruct (shl_align_spec mx ex ez ltac:(lia)) as [_ Hax].
    destruct (shl_align_spec my ey ez ltac:(lia)) as [_ Hay].
    set (ax := fst (shl_align mx ex ez)) in *.
    set (ay := fst (shl_align my ey ez)) in *.
    replace (B + 2) with (B + 1 + 1) by lia.
    apply binary_normalize_within; try lia.
    assert (Hsum : Zdigits2 (cond_Zopp sx (Z.pos ax) - cond_Zopp sy (Z.pos ay))
                   ≤ (B - ez) + 1).
    { cbn [Zdigits2] in Hax, Hay.
      apply (Zdigits2_abs_sum (Z.pos ax) (Z.pos ay)); cbn [Zdigits2]; try lia.
      destruct sx, sy; cbn [cond_Zopp]; lia. }
    lia.
Qed.

Lemma int_of_float_returns x :
  is_finite x = true → ∃ n, int_of_float x = Return n.
Proof. destruct x; try discriminate; intros _; eexists; reflexivity. Qed.

Lemma math_ceil_returns x :
  is_finite x = true → ∃ n, math_ceil x = Return n.
Proof. destruct x; try discriminate; intros _; eexists; reflexivity. Qed.

Lemma Z_to_float_1 : Z_to_float 1 = S754_finite false 4503599627370496 (-52).
Proof. vm_compute. reflexivity. Qed.

Lemma Z_to_float_100 : Z_to_float 100 = S754_finite false 7036874417766400 (-46).
Proof. vm_compute. reflexivity. Qed.

(** A float in [(0, 1]] has magnitude at most [2^1]. *)
Lemma unit_interval_within x :
  in_unit_interval x = true → float_within 1 (-52) x = true.
Proof.
  unfold in_unit_interval. rewrite Z_to_float_1.
  destruct x as [s| | |s m e]; cbn [valid_binary SFltb SFleb SFcompare];
    try (rewrite ?andb_false_r; discriminate).
  - destruct s; cbn; rewrite ?andb_false_r; discriminate.
  - destruct s; [rewrite andb_false_r; cbn; discriminate|].
    rewrite !andb_true_iff. intros [[Hvalid _] Hle].
    unfold bounded, canonical_mantissa in Hvalid.
    apply andb_true_iff in Hvalid as [Hcanon _].
    apply Z.eqb_eq in Hcanon. unfold fexp, emin, emax, prec in Hcanon.
    cbn [float_within]. rewrite andb_true_iff, !Z.leb_le.
    destruct (Z.compare_spec e (-52)) as [Heq|Hlt|Hgt];
      [| |discriminate]; lia.
Qed.

End FloatFacts.

(** ** Deployment strategy *)

Section StrategyFacts.
Context `{LongRunningServiceConfig}.
Implicit Types self : KubernetesDeploymentConfig.

Lemma float_0_9_is_nine_tenths :
  float_div (Z_to_float 9) (Z_to_float 10) = float_0_9.
Proof. vm_compute. reflexivity. Qed.

(** The percentage of [crossover] is defined for every margin in (0, 1]. *)
Lemma crossover_percent_returns margin :
  in_unit_interval margin = true →
  ∃ percent,
    int_of_float (float_mul (float_sub (Z_to_float 1) margin) (Z_to_float 100))
    = Return percent.
Proof.
  intros Hm. apply int_of_float_returns.
  apply (float_within_finite 11 (emax - prec)).
  apply (float_mul_within 3 (emax - prec) 7 (-46));
    [| |unfold emin, emax, prec; lia..].
  - apply (float_sub_within 1 (-52));
      [| |unfold emin, emax, prec; lia..].
    + rewrite Z_to_float_1. reflexivity.
    + apply unit_interval_within, Hm.
  - rewrite Z_to_float_100. reflexivity.
Qed.

Lemma strategy_of_method self method :
  get_aws_ebs_volumes self = [] →
  default "crossover" (bounce_method (config_dict self)) = method →
  get_bounce_method self = Return method.
Proof.
  intros Hebs Hm. rewrite get_bounce_method_no_ebs by exact Hebs.
  rewrite Hm. reflexivity.
Qed.

(** What the code computes with no EBS volume attached: for ["crossover"]
    (also when it is the default of an absent key) and a margin factor [m]
    in (0, 1] the strategy is RollingUpdate with maxSurge ["100%"] and
    maxUnavailable the decimal form of [int((1 - m) * 100)], the float
    product truncated toward zero, followed by ["%"]; for ["brutal"] it is
    RollingUpdate with ["100%"] and ["100%"] whatever the margin factor; for
    ["downthenup"] it is Recreate without rolling-update parameters. *)
Lemma deployment_strategy_of_bounce_method :
  ∀ self,
    let method := default "crossover" (bounce_method (config_dict self)) in
    get_aws_ebs_volumes self = [] →
    (method = "crossover" →
     in_unit_interval (get_bounce_margin_factor self) = true →
     ∃ percent,
       int_of_float
         (float_mul (float_sub (Z_to_float 1) (get_bounce_margin_factor self))
                    (Z_to_float 100)) = Return percent
       ∧ get_deployment_strategy_config self
         = Return {| strategy_type := "RollingUpdate";
                     rolling_update :=
                       Some {| max_surge := "100%";
                               ru_max_unavailable :=
                                 str_of_int percent +:+ "%" |} |})
    ∧ (method = "brutal" →
       get_deployment_strategy_config self
       = Return {| strategy_type := "RollingUpdate";
                   rolling_update :=
                     Some {| max_surge := "100%";
                             ru_max_unavailable := "100%" |} |})
    ∧ (method = "downthenup" →
       get_deployment_strategy_config self
       = Return {| strategy_type := "Recreate"; rolling_update := None |}).
Proof.
  intros self method Hebs. unfold get_deployment_strategy_config.
  repeat split.
  - intros Hm Hmargin.
    destruct (crossover_percent_returns _ Hmargin) as [percent Hp].
    exists percent. split; [exact Hp|].
    rewrite (strategy_of_method self _ Hebs Hm).
    set (pct := int_of_float _) in *. clearbody pct. subst pct. reflexivity.
  - intros Hm. rewrite (strategy_of_method self _ Hebs Hm). reflexivity.
  - intros Hm. rewrite (strategy_of_method self _ Hebs Hm). reflexivity.
Qed.

End StrategyFacts.

(** C3. With ["crossover"], the margin factor 0.9 and no EBS volume, the
    complement percentage is 10, yet the binary64 product [(1 - 0.9) * 100]
    is 9.999999999999998 and [int] truncates it: maxUnavailable is ["9%"],
    not ["10%"].  The literal 0.8 gives ["19%"] in the same way, while
    [max_unavailable], which rounds its product up, gives 1 of 10
    instances at the margin factor 0.9. *)
Theorem crossover_margin_0_9_gives_9_percent :
  let env := fixed_environment "start" false 3 [] [] None [] in
  let self := bounce_config "crossover" (Some float_0_9) in
  @get_aws_ebs_volumes env self = []
  ∧ in_unit_interval float_0_9 = true
  ∧ float_mul (float_sub (Z_to_float 1) float_0_9) (Z_to_float 100)
    = S754_finite false 5629499534213119 (-49)
  ∧ @get_deployment_strategy_config env self
    = Return {| strategy_type := "RollingUpdate";
                rolling_update :=
                  Some {| max_surge := "100%";
                          ru_max_unavailable := "9%" |} |}
  ∧ @get_deployment_strategy_config env self
    ≠ Return {| strategy_type := "RollingUpdate";
                rolling_update :=
                  Some {| max_surge := "100%";
                          ru_max_unavailable := "10%" |} |}
  ∧ @get_deployment_strategy_config env
      (bounce_config "crossover" (Some default_setpoint))
    = Return {| strategy_type := "RollingUpdate";
                rolling_update :=
                  Some {| max_surge := "100%";
                          ru_max_unavailable := "19%" |} |}
  ∧ max_unavailable 10 float_0_9 = Return 1.
Proof. repeat split; vm_compute; (reflexivity || discriminate). Qed.

(** The same at ["crossover"] with the margin factor 0.75. *)
Lemma deployment_strategy_of_bounce_method_witness :
  let env := fixed_environment "start" false 3 [] [] None [] in
  let self := bounce_config "crossover" (Some float_0_75) in
  ∃ percent,
    int_of_float
      (float_mul (float_sub (Z_to_float 1) (@get_bounce_margin_factor self))
                 (Z_to_float 100)) = Return percent
    ∧ @get_deployment_strategy_config env self
      = Return {| strategy_type := "RollingUpdate";
                  rolling_update :=
                    Some {| max_surge := "100%";
                            ru_max_unavailable :=
                              str_of_int percent +:+ "%" |} |}.
Proof.
  intros env self.
  exact (proj1 (deployment_strategy_of_bounce_method (H := env) self eq_refl)
               eq_refl eq_refl).
Defined.

(** The margin factor 0.75 gives ["25%"], and the default 1.0 gives
    ["0%"]. *)
Lemma crossover_margin_examples :
  let env := fixed_environment "start" false 3 [] [] None [] in
  @get_deployment_strategy_config env
    (bounce_config "crossover" (Some float_0_75))
  = Return {| strategy_type := "RollingUpdate";
              rolling_update :=
                Some {| max_surge := "100%"; ru_max_unavailable := "25%" |} |}
  ∧ @get_deployment_strategy_config env (bounce_config "crossover" None)
    = Return {| strategy_type := "RollingUpdate";
                rolling_update :=
                  Some {| max_surge := "100%"; ru_max_unavailable := "0%" |} |}.
Proof. split; vm_compute; reflexivity. Qed.

(** ** Pod disruption budget *)

Section DisruptionFacts.

(** C10. [max_unavailable] returns 0 for an instance count of 0, whatever
    the margin factor, and for every positive instance count (below
    [2^1021], so that the product is a float) and every margin factor in
    (0, 1] it returns a value of at least 1. *)
Theorem max_unavailable_at_least_one :
  ∀ (n : Z) (f : float),
    max_unavailable 0 f = Return 0
    ∧ (0 < n → n < 2 ^ 1021 → in_unit_interval f = true →
       ∃ k, max_unavailable n f = Return k ∧ 1 ≤ k).
Proof.
  intros n f. split; [reflexivity|]. intros Hpos Hn Hf.
  unfold max_unavailable.
  rewrite (proj2 (Z.eqb_neq n 0)) by lia.
  destruct (float_of_int_returns n 1021) as [-> Hw];
    [lia | lia | unfold emax; lia |].
  cbn [mbind result_bind].
  destruct (math_ceil_returns (float_mul (Z_to_float n) f)) as [c ->].
  - apply (float_within_finite 1024 (emax - prec)).
    apply (float_mul_within 1022 (emax - prec) 1 (-52));
      [exact Hw | apply unit_interval_within, Hf
       | unfold emin, emax, prec; lia..].
  - cbn [mbind result_bind]. eexists. split; [reflexivity|]. lia.
Qed.

End DisruptionFacts.


(** C10, at ten instances and the margin factor 0.9. *)
Lemma max_unavailable_at_least_one_witness :
  ∃ k, max_unavailable 10 float_0_9 = Return k ∧ 1 ≤ k.
Proof.
  apply (proj2 (max_unavailable_at_least_one 10 float_0_9)).
  - lia.
  - reflexivity.
  - reflexivity.
Defined.

(** From [2^1024] on the conversion of the instance count overflows. *)
Lemma max_unavailable_overflow :
  max_unavailable (2 ^ 1024) (Z_to_float 1) = Raise OverflowError.
Proof. vm_compute. reflexivity. Qed.

(** ** Autoscaling *)

Section AutoscalingFacts.
Context `{LongRunningServiceConfig}.
Implicit Types self : KubernetesDeploymentConfig.





End AutoscalingFacts.



(** An infinite setpoint raises [OverflowError] in the same place. *)
Lemma infinite_setpoint_raises :
  let env := fixed_environment "start" true 3 [] [] None [] in
  let self :=
    example_config
      {| bounce_method := None; bounce_margin_factor := None;
         autoscaling :=
           Some {| metrics_provider := None; decision_policy := None;
                   setpoint := Some (S754_infinity false);
                   forecast_policy := None;
                   offset := None; moving_average_window_seconds := None |};
         min_instances := Some 1; max_instances := Some 5;
         node_selectors := None; anti_affinity := None |} in
  @get_autoscaling_metric_spec env self "example--service-main"
    "norcal-devc" "paasta"
  = Raise OverflowError.
Proof. vm_compute. reflexivity. Qed.

(** With the defaults (provider ["mesos_cpu"], setpoint 0.8) the
    autoscaler targets 80% CPU utilisation. *)
Lemma autoscaling_metric_spec_default :
  let env := fixed_environment "start" true 3 [] [] None [] in
  let self :=
    example_config
      {| bounce_method := None; bounce_margin_factor := None;
         autoscaling := None;
         min_instances := Some 1; max_instances := Some 5;
         node_selectors := None; anti_affinity := None |} in
  match @get_autoscaling_metric_spec env self "example--service-main"
          "norcal-devc" "paasta" with
  | Return (Some hpa) => hpa_metrics hpa = [ResourceMetric "cpu" 80]
  | _ => False
  end.
Proof. vm_compute. reflexivity. Qed.

(** ** Config hash *)

Section ConfigHashFacts.
Context `{LongRunningServiceConfig} `{SecretStore}.

Implicit Types (d c : list (string * pyval)) (k : string) (v : pyval).

















End ConfigHashFacts.







(** A rotated secret changes the sanitised content of a fixed manifest. *)
Lemma secret_rotation_changes_content :
  let E := with_env (fixed_environment "start" false 3 [] [] None [])
             [("API_KEY", "SECRET(api_key)")] in
  let self := example_config empty_config_dict in
  @sanitize_for_config_hash E (example_secret_store (Some "3f2a")) self
    (example_manifest 3)
  ≠ @sanitize_for_config_hash E (example_secret_store (Some "9c41")) self
      (example_manifest 3).
Proof. vm_compute. discriminate. Qed.

(** ** Node labels *)

Section LabelFacts.

Lemma str_mem_app c s t : str_mem c (s +:+ t) = str_mem c s || str_mem c t.
Proof.
  induction s as [|a s IH]; [reflexivity|].
  change (String a s +:+ t) with (String a (s +:+ t)).
  cbn [str_mem]. rewrite IH, orb_assoc. reflexivity.
Qed.

Lemma paasta_prefixed_with_slash attribute :
  str_mem "/" attribute = true → attribute ∉ DISCOVERY_ATTRIBUTES →
  paasta_prefixed attribute = attribute.
Proof.
  intros Hslash Hdisc. unfold paasta_prefixed.
  rewrite bool_decide_eq_false_2 by exact Hdisc. rewrite Hslash. reflexivity.
Qed.

Lemma discovery_attribute_without_slash attribute :
  attribute ∈ DISCOVERY_ATTRIBUTES → str_mem "/" attribute = false.
Proof.
  unfold DISCOVERY_ATTRIBUTES. rewrite !elem_of_cons, elem_of_nil.
  intros [->|[->|[->|[->|[->|[->|[]]]]]]]; reflexivity.
Qed.

(** X1. [paasta_prefixed] always returns an attribute that holds a ['/'],
    and prefixing twice is prefixing once. *)
Theorem paasta_prefixed_namespaced :
  ∀ attribute,
    str_mem "/" (paasta_prefixed attribute) = true
    ∧ paasta_prefixed (paasta_prefixed attribute) = paasta_prefixed attribute.
Proof.
  intros attribute.
  assert (Hslash : str_mem "/" (paasta_prefixed attribute) = true).
  { unfold paasta_prefixed. case_bool_decide as Hdisc.
    - rewrite str_mem_app. reflexivity.
    - destruct (str_mem "/" attribute) eqn:Hs; [exact Hs|].
      rewrite str_mem_app. reflexivity. }
  split; [exact Hslash|].
  apply paasta_prefixed_with_slash; [exact Hslash|].
  intros Hdisc. apply discovery_attribute_without_slash in Hdisc. congruence.
Qed.

(** X2. [to_node_label] leaves its own results unchanged. *)
Theorem to_node_label_idempotent :
  ∀ label, to_node_label (to_node_label label) = to_node_label label.
Proof.
  intros label.
  destruct (decide (label ∈ ["instance_type"; "instance-type"])) as [H1|H1].
  - rewrite !elem_of_cons, elem_of_nil in H1.
    destruct H1 as [->|[->|[]]]; reflexivity.
  - destruct (decide (label ∈ ["datacenter"; "ecosystem"; "habitat";
                               "hostname"; "region"; "superregion"]))
      as [H2|H2].
    + rewrite !elem_of_cons, elem_of_nil in H2.
      destruct H2 as [->|[->|[->|[->|[->|[->|[]]]]]]]; reflexivity.
    + assert (Hid : to_node_label label = label).
      { unfold to_node_label.
        rewrite bool_decide_eq_false_2 by exact H1.
        rewrite bool_decide_eq_false_2 by exact H2. reflexivity. }
      rewrite !Hid. reflexivity.
Qed.

End LabelFacts.

(** ** Sanitised names *)

Section StringFacts.

Implicit Types (s t : string) (c : ascii) (p q : ascii → bool).

Lemma str_forall_app p s t :
  str_forall p (s +:+ t) = str_forall p s && str_forall p t.
Proof.
  induction s as [|a s IH]; [reflexivity|].
  change (String a s +:+ t) with (String a (s +:+ t)).
  cbn [str_forall]. rewrite IH, andb_assoc. reflexivity.
Qed.

Lemma str_forall_impl p q s :
  (∀ c, p c = true → q c = true) →
  str_forall p s = true → str_forall q s = true.
Proof.
  intros Hpq. induction s as [|a s IH]; cbn [str_forall]; [auto|].
  rewrite !andb_true_iff. intros [Ha Hs]. auto.
Qed.

Lemma str_forall_replace_char p old new s :
  str_forall p new = true →
  str_forall (fun c => p c || Ascii.eqb c old) s = true →
  str_forall p (str_replace_char old new s) = true.
Proof.
  intros Hnew. induction s as [|a s IH]; cbn [str_forall str_replace_char];
    [auto|].
  rewrite andb_true_iff. intros [Ha Hs].
  destruct (Ascii.eqb a old) eqn:Heq.
  - rewrite str_forall_app, Hnew, (IH Hs). reflexivity.
  - cbn [str_forall]. rewrite orb_false_r in Ha. rewrite Ha, (IH Hs).
    reflexivity.
Qed.

Lemma str_forall_drop p n s :
  str_forall p s = true → str_forall p (str_drop n s) = true.
Proof.
  revert s. induction n as [|n IH]; intros s Hs; [exact Hs|].
  destruct s as [|a s]; [reflexivity|]. cbn [str_drop].
  cbn [str_forall] in Hs. apply andb_true_iff in Hs as [_ Hs]. auto.
Qed.

Lemma str_forall_take p n s :
  str_forall p s = true → str_forall p (str_take n s) = true.
Proof.
  revert s. induction n as [|n IH]; intros s Hs; [reflexivity|].
  destruct s as [|a s]; [reflexivity|]. cbn [str_take str_forall] in *.
  apply andb_true_iff in Hs as [Ha Hs]. rewrite Ha, (IH _ Hs). reflexivity.
Qed.

Lemma str_forall_replace_first p old new s :
  str_forall p new = true → str_forall p s = true →
  str_forall p (str_replace_first old new s) = true.
Proof.
  intros Hnew. induction s as [|a s IH]; intros Hs.
  - cbn [str_replace_first]. destruct (String.prefix old ""); [|reflexivity].
    rewrite str_forall_app, Hnew. apply str_forall_drop. reflexivity.
  - cbn [str_replace_first].
    destruct (String.prefix old (String a s)).
    + rewrite str_forall_app, Hnew. apply str_forall_drop, Hs.
    + cbn [str_forall] in *. apply andb_true_iff in Hs as [Ha Hs].
      rewrite Ha, (IH Hs). reflexivity.
Qed.

Lemma str_forall_lower p q s :
  (∀ c, p c = true → q (lower_ascii c) = true) →
  str_forall p s = true → str_forall q (str_lower s) = true.
Proof.
  intros Hpq. induction s as [|a s IH]; cbn [str_forall str_lower]; [auto|].
  rewrite !andb_true_iff. intros [Ha Hs]. auto.
Qed.

Lemma str_forall_rstrip p c s :
  str_forall p s = true → str_forall p (str_rstrip_char c s) = true.
Proof.
  induction s as [|a s IH]; [auto|]. cbn [str_forall str_rstrip_char].
  rewrite andb_true_iff. intros [Ha Hs]. specialize (IH Hs).
  destruct (str_rstrip_char c s) as [|b rest].
  - destruct (Ascii.eqb a c); [reflexivity|]. cbn. rewrite Ha. reflexivity.
  - cbn [str_forall] in *. rewrite Ha, IH. reflexivity.
Qed.

Lemma str_forall_true s : str_forall (fun _ => true) s = true.
Proof. induction s; cbn; auto. Qed.

(** The sanitiser maps any string to one that satisfies [q], when its
    characters satisfy [p], lower-casing turns [p] into [q], and the
    inserted dashes and marker satisfy [p]. *)
Lemma sanitise_forall p q s :
  (∀ c, p c = true → q (lower_ascii c) = true) →
  p "-"%char = true → str_forall p "underscore-" = true →
  str_forall (fun c => p c || Ascii.eqb c "_") s = true →
  str_forall q (sanitise_kubernetes_name s) = true.
Proof.
  intros Hpq Hdash Hmark Hs. unfold sanitise_kubernetes_name.
  assert (He : str_forall p (str_replace_char "_" "--" s) = true).
  { apply str_forall_replace_char; [|exact Hs].
    cbn. rewrite Hdash. reflexivity. }
  apply (str_forall_lower p); [exact Hpq|].
  destruct (String.prefix "--" _); [|exact He].
  apply str_forall_replace_first; assumption.
Qed.

Lemma prefix_two_dashes_inv s :
  String.prefix "--" s = true → ∃ r, s = "--" +:+ r.
Proof.
  destruct s as [|a [|b r]]; cbn [String.prefix].
  - intros H; discriminate H.
  - destruct (ascii_dec "-" a); intros H; discriminate H.
  - destruct (ascii_dec "-" a) as [<-|]; [|intros H; discriminate H].
    destruct (ascii_dec "-" b) as [<-|]; [|intros H; discriminate H].
    intros _. exists r. reflexivity.
Qed.

Lemma prefix_two_dashes_lower s :
  String.prefix "--" (str_lower s) = String.prefix "--" s.
Proof.
  assert (Hd : ∀ c, (if ascii_dec "-" (lower_ascii c) then true else false)
                    = (if ascii_dec "-" c then true else false)).
  { intros c. destruct c as [[] [] [] [] [] [] [] []]; reflexivity. }
  destruct s as [|a [|b r]]; cbn [str_lower String.prefix]; [reflexivity| |].
  - specialize (Hd a). destruct (ascii_dec "-" (lower_ascii a)),
      (ascii_dec "-" a); try discriminate; reflexivity.
  - pose proof (Hd a) as Ha. pose proof (Hd b) as Hb.
    destruct (ascii_dec "-" (lower_ascii a)), (ascii_dec "-" a);
      try discriminate; [|reflexivity].
    destruct (ascii_dec "-" (lower_ascii b)), (ascii_dec "-" b);
      try discriminate; [|reflexivity].
    destruct r; reflexivity.
Qed.

(** X3. Whatever the input, the sanitised name holds no upper-case ASCII
    letter and no ['_'], and does not start with ["--"]. *)
Theorem sanitise_kubernetes_name_output :
  ∀ service,
    str_forall is_sanitised_char (sanitise_kubernetes_name service) = true
    ∧ String.prefix "--" (sanitise_kubernetes_name service) = false.
Proof.
  intros service. split.
  - apply (sanitise_forall (fun c => negb (Ascii.eqb c "_"))).
    + intros c Hc. unfold is_sanitised_char.
      destruct c as [[] [] [] [] [] [] [] []];
        (reflexivity || discriminate Hc).
    + reflexivity.
    + reflexivity.
    + apply (str_forall_impl (fun _ => true)); [|apply str_forall_true].
      intros c _. destruct (Ascii.eqb c "_"); reflexivity.
  - unfold sanitise_kubernetes_name.
    destruct (String.prefix "--" (str_replace_char "_" "--" service)) eqn:Hp.
    + apply prefix_two_dashes_inv in Hp as [r ->].
      change (str_replace_first "--" "underscore-" ("--" +:+ r))
        with (if String.prefix "--" ("--" +:+ r)
              then "underscore-" +:+ r
              else String "-" (str_replace_first "--" "underscore-"
                                 (String "-" r))).
      rewrite prefix_two_dashes, str_lower_app. reflexivity.
    + rewrite prefix_two_dashes_lower. exact Hp.
Qed.

Lemma str_length_app s t :
  String.length (s +:+ t) = (String.length s + String.length t)%nat.
Proof.
  induction s as [|a s IH]; [reflexivity|].
  change (String a s +:+ t) with (String a (s +:+ t)).
  cbn [String.length]. rewrite IH. reflexivity.
Qed.

Lemma str_length_take n s :
  String.length (str_take n s) = Nat.min n (String.length s).
Proof.
  revert s. induction n as [|n IH]; intros [|a s]; cbn; auto.
Qed.

End StringFacts.

Section VolumeNameFacts.
Context `{Hashlib}.

Implicit Types (s t : string) (c : ascii).

Lemma get_sanitised_volume_name_unlimited volume_name :
  get_sanitised_volume_name volume_name 0
  = Return (sanitised_volume_name volume_name).
Proof. reflexivity. Qed.

Lemma sanitised_volume_name_ascii volume_name :
  str_forall is_ascii volume_name = true →
  str_forall is_ascii (sanitised_volume_name volume_name) = true.
Proof.
  intros Hname. unfold sanitised_volume_name.
  apply (sanitise_forall is_ascii).
  - intros c Hc. destruct c as [[] [] [] [] [] [] [] []];
      (reflexivity || discriminate Hc).
  - reflexivity.
  - reflexivity.
  - apply (str_forall_impl is_ascii);
      [intros c ->; reflexivity|].
    apply str_forall_replace_char; [reflexivity|].
    apply (str_forall_impl is_ascii); [intros c ->; reflexivity|].
    apply str_forall_replace_char; [reflexivity|].
    apply (str_forall_impl is_ascii); [intros c ->; reflexivity|].
    apply str_forall_rstrip, Hname.
Qed.

Lemma sanitised_volume_name_chars volume_name :
  str_forall is_volume_name_char (sanitised_volume_name volume_name) = true.
Proof.
  unfold sanitised_volume_name.
  set (no_slash := fun c => negb (Ascii.eqb c "/")).
  set (no_dot := fun c => no_slash c && negb (Ascii.eqb c ".")).
  set (plain := fun c => no_dot c && negb (Ascii.eqb c "_")).
  apply (sanitise_forall plain).
  - intros c Hc. destruct c as [[] [] [] [] [] [] [] []];
      (reflexivity || discriminate Hc).
  - reflexivity.
  - reflexivity.
  - apply (str_forall_impl no_dot).
    { intros c Hc. unfold plain. rewrite Hc.
      destruct (Ascii.eqb c "_"); reflexivity. }
    apply str_forall_replace_char; [reflexivity|].
    apply (str_forall_impl no_slash).
    { intros c Hc. unfold no_dot. rewrite Hc.
      destruct (Ascii.eqb c "."); reflexivity. }
    apply str_forall_replace_char; [reflexivity|].
    apply (str_forall_impl (fun _ => true)); [|apply str_forall_true].
    intros c _. unfold no_slash. destruct (Ascii.eqb c "/"); reflexivity.
Qed.

(** X4. With a length limit of at least 6, the sanitised name of an ASCII
    volume name is returned and is never longer than the limit: it is the
    full name when that fits, and has exactly the length of the limit
    otherwise. *)
Theorem get_sanitised_volume_name_ceiling :
  ∀ volume_name length_limit,
    hexdigest_wf H → 6 ≤ length_limit →
    str_forall is_ascii volume_name = true →
    let full := sanitised_volume_name volume_name in
    ∃ name,
      get_sanitised_volume_name volume_name length_limit = Return name
      ∧ Z.of_nat (String.length name) ≤ length_limit
      ∧ (Z.of_nat (String.length full) ≤ length_limit → name = full)
      ∧ (length_limit < Z.of_nat (String.length full) →
         Z.of_nat (String.length name) = length_limit).
Proof.
  intros volume_name length_limit Hwf Hlimit Hascii full.
  unfold get_sanitised_volume_name. fold (sanitised_volume_name volume_name).
  fold full.
  rewrite (proj2 (Z.eqb_neq length_limit 0)) by lia. cbn [negb andb].
  destruct (Z.ltb_spec length_limit (Z.of_nat (String.length full)))
    as [Hlong|Hshort].
  - unfold str_encode_ascii.
    rewrite (sanitised_volume_name_ascii _ Hascii : str_forall is_ascii full = true).
    cbn [mbind result_bind]. eexists. split; [reflexivity|].
    assert (Hlen : Z.of_nat
              (String.length
                 (str_slice_to (length_limit - 6) full
                  +:+ "--" +:+ str_take 4 (md5_hexdigest full)))
            = length_limit).
    { rewrite !str_length_app, !str_length_take.
      destruct (Hwf full) as [-> _]. unfold str_slice_to.
      rewrite (proj2 (Z.ltb_ge (length_limit - 6) 0)) by lia.
      rewrite str_length_take. cbn [String.length]. lia. }
    split; [lia|]. split; [lia|]. intros _. exact Hlen.
  - exists full. repeat split; try reflexivity; lia.
Qed.

Lemma is_hex_ascii c : is_hex c = true → is_ascii c = true.
Proof.
  destruct c as [[] [] [] [] [] [] [] []]; (reflexivity || discriminate).
Qed.

(** X5. A returned volume name holds no upper-case ASCII letter, ['_'],
    ['/'] or ['.'], truncated or not, and the name returned for an ASCII
    volume name holds ASCII characters only. *)
Theorem get_sanitised_volume_name_chars :
  ∀ volume_name length_limit name,
    hexdigest_wf H →
    get_sanitised_volume_name volume_name length_limit = Return name →
    str_forall is_volume_name_char name = true
    ∧ (str_forall is_ascii volume_name = true →
       str_forall is_ascii name = true).
Proof.
  intros volume_name length_limit name Hwf.
  unfold get_sanitised_volume_name. fold (sanitised_volume_name volume_name).
  pose proof (sanitised_volume_name_chars volume_name) as Hfull.
  destruct (negb (length_limit =? 0) && _).
  - unfold str_encode_ascii.
    destruct (str_forall is_ascii (sanitised_volume_name volume_name))
      eqn:Henc; [|discriminate].
    cbn [mbind result_bind]. intros [= <-].
    destruct (Hwf (sanitised_volume_name volume_name)) as [_ Hhex].
    assert (Hdigest : ∀ p : ascii → bool,
              (∀ c, is_hex c = true → p c = true) →
              str_forall p
                (str_take 4 (md5_hexdigest (sanitised_volume_name volume_name)))
              = true).
    { intros p Hp. apply str_forall_take. revert Hhex.
      apply str_forall_impl. exact Hp. }
    rewrite !str_forall_app, !andb_true_iff. split.
    + split; [unfold str_slice_to; apply str_forall_take, Hfull|].
      split; [reflexivity|].
      apply Hdigest. intros c Hc. destruct c as [[] [] [] [] [] [] [] []];
        (reflexivity || discriminate Hc).
    + intros _. split; [unfold str_slice_to; apply str_forall_take, Henc|].
      split; [reflexivity|].
      apply Hdigest. exact is_hex_ascii.
  - intros [= <-]. split; [exact Hfull|].
    apply sanitised_volume_name_ascii.
Qed.

End VolumeNameFacts.

Lemma example_hashlib_wf : hexdigest_wf example_hashlib.
Proof. intros data. split; reflexivity. Qed.

Lemma get_sanitised_volume_name_ceiling_witness :
  ∃ name,
    @get_sanitised_volume_name example_hashlib "/nail/etc/" 12 = Return name
    ∧ Z.of_nat (String.length name) ≤ 12
    ∧ (Z.of_nat (String.length (sanitised_volume_name "/nail/etc/")) ≤ 12 →
       name = sanitised_volume_name "/nail/etc/")
    ∧ (12 < Z.of_nat (String.length (sanitised_volume_name "/nail/etc/")) →
       Z.of_nat (String.length name) = 12).
Proof.
  apply (get_sanitised_volume_name_ceiling (H := example_hashlib)).
  - exact example_hashlib_wf.
  - lia.
  - reflexivity.
Defined.

Lemma get_sanitised_volume_name_chars_witness :
  str_forall is_volume_name_char "slash-nail----d41d" = true
  ∧ str_forall is_ascii "slash-nail----d41d" = true.
Proof.
  destruct (get_sanitised_volume_name_chars (H := example_hashlib)
           "/nail_Etc.d/" 18 "slash-nail----d41d") as [Hchars Hascii].
  - exact example_hashlib_wf.
  - vm_compute. reflexivity.
  - split; [exact Hchars | apply Hascii; reflexivity].
Defined.

(** ** Pods and nodes *)

Section PodFacts.

(** X6.  [_is_it_ready] (and so [is_pod_ready] and [is_node_ready]) answers
    yes exactly when the object has at least one condition of type "Ready"
    and every such condition has the status "True"; absent and empty
    condition lists are not ready. *)
Theorem is_it_ready_iff :
  ∀ conditions,
    let conds := default [] conditions in
    _is_it_ready conditions = true
    ↔ (∃ cond, cond ∈ conds ∧ cond_type cond = "Ready")
      ∧ (∀ cond, cond ∈ conds → cond_type cond = "Ready" →
                 cond_status cond = "True").
Proof.
  intros conditions conds. unfold _is_it_ready. fold conds.
  induction conds as [|c cs IH].
  - cbn. split; [discriminate|]. intros [(cond & Hin & _) _].
    inversion Hin.
  - cbn [List.filter].
    destruct (String.eqb_spec (cond_type c) "Ready") as [Hready|Hother].
    + cbn [map nonempty forallb].
      destruct (String.eqb_spec (cond_status c) "True") as [Htrue|Hfalse].
      * cbn [andb].
        destruct (map _ (List.filter _ cs)) as [|b bs] eqn:Hrest.
        -- cbn. split; [intros _|reflexivity]. split.
           ++ exists c. split; [apply elem_of_cons; auto | exact Hready].
           ++ intros cond [->|Hin]%elem_of_cons Hr; [exact Htrue|].
              exfalso.
              assert (Hf : cond ∈ List.filter
                             (fun cond => String.eqb (cond_type cond) "Ready")
                             cs).
              { apply list_elem_of_In, filter_In. split;
                  [apply list_elem_of_In, Hin | rewrite Hr; reflexivity]. }
              destruct (List.filter _ cs); [inversion Hf|discriminate].
        -- cbn [nonempty] in IH. rewrite IH. split.
           ++ intros [(cond & Hin & Hr) Hall]. split.
              ** exists c. split; [apply elem_of_cons; auto | exact Hready].
              ** intros cond' [->|Hin']%elem_of_cons Hr'; auto.
           ++ intros [_ Hall]. split.
              ** assert (Hne : List.filter
                                 (fun cond => String.eqb (cond_type cond) "Ready")
                                 cs ≠ [])
                   by (intros Hnil; rewrite Hnil in Hrest; discriminate).
                 destruct (List.filter _ cs) as [|x xs] eqn:Hf; [congruence|].
                 assert (Hx : In x (List.filter
                                      (fun cond =>
                                         String.eqb (cond_type cond) "Ready")
                                      cs))
                   by (rewrite Hf; left; reflexivity).
                 apply filter_In in Hx as [Hx1 Hx2].
                 exists x. split; [apply list_elem_of_In, Hx1|].
                 apply String.eqb_eq, Hx2.
              ** intros cond Hin. apply Hall, elem_of_cons. auto.
      * cbn [andb]. split; [discriminate|]. intros [_ Hall].
        exfalso. apply Hfalse, Hall; [apply elem_of_cons; auto | exact Hready].
    + rewrite IH. split.
      * intros [(cond & Hin & Hr) Hall]. split.
        -- exists cond. split; [apply elem_of_cons; auto | exact Hr].
        -- intros cond' [->|Hin']%elem_of_cons Hr'; [congruence | auto].
      * intros [(cond & [->|Hin]%elem_of_cons & Hr) Hall]; [congruence|].
        split; [eauto|]. intros cond' Hin'. apply Hall, elem_of_cons. auto.
Qed.

Lemma filter_sublist {A : Type} (f : A → bool) (l : list A) :
  sublist (List.filter f l) l.
Proof.
  induction l as [|x l IH]; cbn [List.filter]; [constructor|].
  destruct (f x); [apply sublist_skip | apply sublist_cons]; exact IH.
Qed.

Lemma filter_idempotent {A : Type} (f : A → bool) (l : list A) :
  List.filter f (List.filter f l) = List.filter f l.
Proof.
  induction l as [|x l IH]; [reflexivity|]. cbn [List.filter].
  destruct (f x) eqn:Hx; [|exact IH].
  cbn [List.filter]. rewrite Hx, IH. reflexivity.
Qed.

Lemma dict_get_default_nonempty (k v : string) (d : list (string * string)) :
  v ≠ "" → default "" (dict_get k d) = v → dict_get k d = Some v.
Proof.
  intros Hv. destruct (dict_get k d) as [w|]; intros Hd; cbn in Hd.
  - f_equal. exact Hd.
  - exfalso. apply Hv. symmetry. exact Hd.
Qed.

(** X7.  [filter_pods_by_service_instance] returns a sub-sequence of its
    input, filtering again with the same names changes nothing, and for
    non-empty names the pods kept are exactly the ones that carry both
    labels with these values; pods without labels are dropped. *)
Theorem filter_pods_by_service_instance_spec :
  ∀ pod_list service instance,
    let pods := filter_pods_by_service_instance pod_list service instance in
    sublist pods pod_list
    ∧ filter_pods_by_service_instance pods service instance = pods
    ∧ (service ≠ "" → instance ≠ "" →
       ∀ pod,
         pod ∈ pods
         ↔ pod ∈ pod_list
           ∧ ∃ labels,
               pod_labels pod = Some labels
               ∧ dict_get "paasta.yelp.com/service" labels = Some service
               ∧ dict_get "paasta.yelp.com/instance" labels = Some instance).
Proof.
  intros pod_list service instance pods. split; [apply filter_sublist|].
  split.
  - apply filter_idempotent.
  - intros Hs Hi pod. subst pods. unfold filter_pods_by_service_instance.
    rewrite list_elem_of_In, filter_In, <- list_elem_of_In.
    split; intros [Hin Hmatch]; (split; [exact Hin|]).
    + destruct (pod_labels pod) as [labels|]; [|discriminate].
      apply andb_true_iff in Hmatch as [H1%String.eqb_eq H2%String.eqb_eq].
      exists labels. split; [reflexivity|].
      split; apply dict_get_default_nonempty; assumption.
    + destruct Hmatch as (labels & -> & -> & ->). cbn [default].
      rewrite !String.eqb_refl. reflexivity.
Qed.

Lemma upper_lower_ascii c : upper_ascii (lower_ascii c) = upper_ascii c.
Proof. destruct c as [[] [] [] [] [] [] [] []]; reflexivity. Qed.

Lemma str_upper_lower s : str_upper (str_lower s) = str_upper s.
Proof.
  induction s as [|c s IH]; [reflexivity|].
  cbn [str_lower str_upper]. rewrite upper_lower_ascii, IH. reflexivity.
Qed.

Lemma dict_item_cases {V : Type} (k : string) (d : list (string * V)) :
  match dict_item k d with
  | Return v => (k, v) ∈ d
  | Raise e => e = KeyError k ∧ k ∉ d.*1
  end.
Proof.
  unfold dict_item. induction d as [|[k' v'] d IH]; cbn [dict_get].
  - split; [reflexivity | apply not_elem_of_nil].
  - destruct (String.eqb_spec k' k) as [->|Hne].
    + apply elem_of_cons. auto.
    + destruct (dict_get k d).
      * apply elem_of_cons. auto.
      * destruct IH as [He Hk]. split; [exact He|].
        cbn [fmap list_fmap fst]. rewrite not_elem_of_cons. split; congruence.
Qed.

(** X8.  [get_pod_status] does not depend on the case of the (ASCII) phase:
    it returns the status whose upper-case name is the upper-cased phase,
    and raises [KeyError] with that upper-cased phase when it is none of
    the five names. *)
Theorem get_pod_status_case_insensitive :
  ∀ pod phase,
    pod_phase pod = Some phase →
    str_forall is_ascii phase = true →
    get_pod_status
      {| pod_name := pod_name pod; pod_labels := pod_labels pod;
         pod_phase := Some (str_lower phase);
         pod_conditions := pod_conditions pod |}
    = get_pod_status pod
    ∧ match get_pod_status pod with
      | Return status =>
          (str_upper phase, status) ∈ _POD_STATUS_NAME_TO_STATUS
      | Raise e =>
          e = KeyError (str_upper phase)
          ∧ str_upper phase
            ∉ ["PENDING"; "RUNNING"; "SUCCEEDED"; "FAILED"; "UNKNOWN"]
      end.
Proof.
  intros pod phase Hphase _. unfold get_pod_status. cbn [pod_phase].
  rewrite Hphase, str_upper_lower. split; [reflexivity|].
  apply dict_item_cases.
Qed.

Lemma get_active_shas_fold
    (objs : list (option (list (string * string))))
    (acc : gset (option string * option string)) :
  fold_left
    (fun acc labels =>
       ret ← acc;
       labels ← match labels with
                | Some labels => Return labels
                | None => Raise AttributeError
                end;
       let config_sha :=
         strip_sha_prefix "config"
           (dict_get "paasta.yelp.com/config_sha" labels) in
       let git_sha :=
         strip_sha_prefix "git" (dict_get "paasta.yelp.com/git_sha" labels) in
       if truthy git_sha || truthy config_sha
       then Return (ret ∪ {[ (git_sha, config_sha) ]})
       else Return ret)
    objs (Return acc)
  = if forallb (fun o => bool_decide (is_Some o)) objs
    then Return (acc ∪ ⋃ (omap (fmap sha_entry) objs))
    else Raise AttributeError.
Proof.
  revert acc. induction objs as [|[labels|] objs IH]; intros acc.
  - cbn. rewrite union_empty_r_L. reflexivity.
  - change (omap (fmap sha_entry) (Some labels :: objs))
      with (sha_entry labels :: omap (fmap sha_entry) objs).
    change (⋃ (sha_entry labels :: omap (fmap sha_entry) objs))
      with (sha_entry labels ∪ ⋃ omap (fmap sha_entry) objs).
    cbn [forallb]. rewrite bool_decide_eq_true_2 by eauto. cbn [andb].
    cbn [fold_left]. cbn [mbind result_bind]. unfold sha_entry at 1.
    destruct (truthy _ || truthy _); rewrite IH;
      destruct (forallb _ objs); try reflexivity.
    + rewrite (assoc_L (∪)). reflexivity.
    + rewrite union_empty_l_L. reflexivity.
  - cbn [forallb]. rewrite bool_decide_eq_false_2 by (intros [? [=]]).
    cbn [andb fold_left]. cbn [mbind result_bind].
    clear IH. induction objs as [|o objs IH]; [reflexivity|].
    cbn [fold_left]. exact IH.
Qed.

Lemma sha_entries_cons_some labels
    (objs : list (option (list (string * string)))) :
  ⋃ omap (fmap sha_entry) (Some labels :: objs)
  = sha_entry labels ∪ ⋃ omap (fmap sha_entry) objs.
Proof. reflexivity. Qed.

Lemma sha_entries_cons_none
    (objs : list (option (list (string * string)))) :
  ⋃ omap (fmap sha_entry) (None :: objs) = ⋃ omap (fmap sha_entry) objs.
Proof. reflexivity. Qed.

Lemma sha_entries_permutation
    (objs objs' : list (option (list (string * string)))) :
  objs ≡ₚ objs' →
  forallb (fun o => bool_decide (is_Some o)) objs
  = forallb (fun o => bool_decide (is_Some o)) objs'
  ∧ ⋃ (omap (fmap sha_entry) objs) = ⋃ (omap (fmap sha_entry) objs').
Proof.
  induction 1 as [|o l l' _ [IH1 IH2]|o o' l|l l' l'' _ [IH1 IH2] _ [IH3 IH4]].
  - split; reflexivity.
  - cbn [forallb]. rewrite IH1. split; [reflexivity|].
    destruct o; rewrite ?sha_entries_cons_some, ?sha_entries_cons_none, IH2;
      reflexivity.
  - cbn [forallb]. split.
    + rewrite !andb_assoc, (andb_comm (bool_decide (is_Some o'))). reflexivity.
    + destruct o, o';
        rewrite ?sha_entries_cons_some, ?sha_entries_cons_none,
                ?sha_entries_cons_some; try reflexivity.
      rewrite !(assoc_L (∪)), (comm_L (∪) (sha_entry _)). reflexivity.
  - split; congruence.
Qed.

(** X9.  [get_active_shas_for_service]: every pair it returns has a
    non-empty git sha or a non-empty config sha, the result does not depend
    on the order of the objects, and it raises [AttributeError] exactly
    when some object has no labels. *)
Theorem get_active_shas_for_service_spec :
  ∀ obj_list,
    (∀ shas git_sha config_sha,
       get_active_shas_for_service obj_list = Return shas →
       (git_sha, config_sha) ∈ shas →
       truthy git_sha || truthy config_sha = true)
    ∧ (∀ obj_list',
         obj_list ≡ₚ obj_list' →
         get_active_shas_for_service obj_list
         = get_active_shas_for_service obj_list')
    ∧ (get_active_shas_for_service obj_list = Raise AttributeError
       ↔ None ∈ obj_list).
Proof.
  intros obj_list. unfold get_active_shas_for_service.
  split; [|split].
  - intros shas git_sha config_sha. rewrite get_active_shas_fold.
    destruct (forallb _ obj_list); [|discriminate]. intros [= <-].
    rewrite union_empty_l_L, elem_of_union_list.
    intros (entry & Hentry & Hin).
    apply list_elem_of_In in Hentry.
    induction obj_list as [|[labels|] objs IH]; cbn in Hentry; try tauto.
    destruct Hentry as [<-|Hentry]; [|auto].
    unfold sha_entry in Hin. cbv zeta in Hin.
    destruct (truthy (strip_sha_prefix "git" _) || _) eqn:Ht.
    + apply elem_of_singleton in Hin. injection Hin as -> ->. exact Ht.
    + apply not_elem_of_empty in Hin. contradiction.
  - intros obj_list' Hperm. rewrite !get_active_shas_fold.
    destruct (sha_entries_permutation _ _ Hperm) as [-> ->]. reflexivity.
  - rewrite get_active_shas_fold.
    assert (Hall : forallb (fun o => bool_decide (is_Some o)) obj_list = false
                   ↔ None ∈ obj_list).
    { induction obj_list as [|[labels|] objs IH]; cbn [forallb].
      - split; [discriminate | intros Hin; inversion Hin].
      - rewrite bool_decide_eq_true_2 by eauto. cbn [andb]. rewrite IH.
        rewrite elem_of_cons. split; [auto | intros [[=]|?]; assumption].
      - rewrite bool_decide_eq_false_2 by (intros [? [=]]). cbn [andb].
        split; [intros _; apply elem_of_cons; auto | reflexivity]. }
    destruct (forallb _ obj_list).
    + split; [discriminate | intros Hin; apply Hall in Hin; discriminate].
    + split; [intros _; apply Hall; reflexivity | reflexivity].
Qed.

(** X10.  [get_all_kubernetes_services_running_here]: when the kubelet
    answers with a list of pods, the result has one entry, with port 0,
    for every pod that carries both the service and the instance label, in
    order, and the other pods are skipped; a connection error gives the
    empty list. *)
Theorem get_all_kubernetes_services_running_here_skips :
  ∀ pods items,
    dict_get "items" pods = Some (PList items) →
    forallb pod_like items = true →
    get_all_kubernetes_services_running_here (Some (PDict pods))
    = Return (omap paasta_labels items)
    ∧ get_all_kubernetes_services_running_here None = Return [].
Proof.
  intros pods items Hitems Hlike. split; [|reflexivity].
  unfold get_all_kubernetes_services_running_here.
  change (py_getitem (PDict pods) "items") with (dict_item "items" pods).
  unfold dict_item at 1. rewrite Hitems. cbn [mbind result_bind py_iter].
  clear Hitems.
  induction items as [|pod rest IH]; [reflexivity|].
  cbn [forallb] in Hlike. apply andb_true_iff in Hlike as [Hpod Hrest].
  cbn [for_each]. rewrite (IH Hrest). clear IH.
  change (omap paasta_labels (pod :: rest))
    with (match paasta_labels pod with
          | Some entry => entry :: omap paasta_labels rest
          | None => omap paasta_labels rest
          end).
  destruct pod as [| | | | | |entries]; try discriminate.
  unfold pod_like in Hpod. unfold paasta_labels, py_getitem, dict_item.
  destruct (dict_get "metadata" entries) as [[| | | | | |metadata]|];
    try discriminate; [|reflexivity].
  cbn [mbind result_bind].
  destruct (dict_get "labels" metadata) as [[| | | | | |labels]|];
    try discriminate; [|reflexivity].
  cbn [mbind result_bind].
  destruct (dict_get "paasta.yelp.com/service" labels) as [service|];
    [|reflexivity].
  cbn [mbind result_bind].
  destruct (dict_get "paasta.yelp.com/instance" labels) as [instance|];
    reflexivity.
Qed.

End PodFacts.

Lemma get_all_kubernetes_services_running_here_skips_witness :
  get_all_kubernetes_services_running_here
    (Some (PDict
       [("items",
         PList
           [ PDict [("metadata",
                     PDict [("labels",
                             PDict [("paasta.yelp.com/service", PStr "web");
                                    ("paasta.yelp.com/instance", PStr "main")])])];
             PDict [("metadata", PDict [("name", PStr "kube-proxy")])] ])]))
  = Return [(PStr "web", PStr "main", 0)].
Proof.
  exact (proj1 (get_all_kubernetes_services_running_here_skips
    [("items",
      PList
        [ PDict [("metadata",
                  PDict [("labels",
                          PDict [("paasta.yelp.com/service", PStr "web");
                                 ("paasta.yelp.com/instance", PStr "main")])])];
          PDict [("metadata", PDict [("name", PStr "kube-proxy")])] ])]
    [ PDict [("metadata",
              PDict [("labels",
                      PDict [("paasta.yelp.com/service", PStr "web");
                             ("paasta.yelp.com/instance", PStr "main")])])];
      PDict [("metadata", PDict [("name", PStr "kube-proxy")])] ]
    eq_refl eq_refl)).
Defined.

Lemma get_pod_status_case_insensitive_witness :
  get_pod_status
    {| pod_name := "web-main-0"; pod_labels := None;
       pod_phase := Some "running"; pod_conditions := None |}
  = get_pod_status
      {| pod_name := "web-main-0"; pod_labels := None;
         pod_phase := Some "Running"; pod_conditions := None |}.
Proof.
  apply (proj1 (get_pod_status_case_insensitive
                  {| pod_name := "web-main-0"; pod_labels := None;
                     pod_phase := Some "Running"; pod_conditions := None |}
                  "Running" eq_refl eq_refl)).
Defined.

(** ** Errors and shapes of the deployment objects *)

Section ShapeFacts.
Context `{LongRunningServiceConfig}.
Implicit Types self : KubernetesDeploymentConfig.

Lemma int_of_float_error x e :
  int_of_float x = Raise e → e = OverflowError ∨ e = ValueError.
Proof. destruct x; cbn; intros [=]; auto. Qed.

Lemma strategy_map_cases method :
  match dict_item method KUBE_DEPLOY_STATEGY_MAP with
  | Return strategy_type =>
      method ∈ ["crossover"; "downthenup"; "brutal"]
      ∧ (strategy_type = "RollingUpdate" → method ≠ "downthenup")
  | Raise e =>
      e = KeyError method ∧ method ∉ ["crossover"; "downthenup"; "brutal"]
  end.
Proof.
  unfold dict_item, KUBE_DEPLOY_STATEGY_MAP. cbn [dict_get].
  destruct (String.eqb_spec "crossover" method) as [<-|H1].
  { split; [set_solver | discriminate]. }
  destruct (String.eqb_spec "downthenup" method) as [<-|H2].
  { split; [set_solver | discriminate]. }
  destruct (String.eqb_spec "brutal" method) as [<-|H3].
  { split; [set_solver | discriminate]. }
  split; [reflexivity|].
  rewrite !elem_of_cons, elem_of_nil. intros [?|[?|[?|[]]]]; congruence.
Qed.

(** X11.  [get_deployment_strategy_config] never raises the
    unknown-bounce-method exception: with no EBS volume, a bounce method
    outside ["crossover"], ["downthenup"] and ["brutal"] raises [KeyError]
    with that method, from the lookup in [KUBE_DEPLOY_STATEGY_MAP]. *)
Theorem get_deployment_strategy_config_unknown_method :
  ∀ self,
    let method := default "crossover" (bounce_method (config_dict self)) in
    get_deployment_strategy_config self ≠ Raise UnknownBounceMethod
    ∧ (get_aws_ebs_volumes self = [] →
       method ∉ ["crossover"; "downthenup"; "brutal"] →
       get_deployment_strategy_config self = Raise (KeyError method)).
Proof.
  intros self method. split.
  - unfold get_deployment_strategy_config, get_bounce_method.
    fold method.
    destruct (nonempty _ && _); [discriminate|].
    cbn [mbind result_bind].
    pose proof (strategy_map_cases method) as Hmap.
    destruct (dict_item method KUBE_DEPLOY_STATEGY_MAP) as [strategy_type|e];
      [|destruct Hmap as [-> _]; discriminate].
    cbn [mbind result_bind].
    destruct (String.eqb_spec strategy_type "RollingUpdate") as [Hru|Hru];
      [|discriminate].
    destruct Hmap as [Hin Hne]. specialize (Hne Hru).
    rewrite !elem_of_cons, elem_of_nil in Hin.
    destruct Hin as [->|[->|[->|[]]]]; [|congruence|discriminate].
    cbn [String.eqb Ascii.eqb Bool.eqb mbind result_bind].
    destruct (int_of_float _) as [percent|e] eqn:Hint; [discriminate|].
    apply int_of_float_error in Hint as [->| ->]; discriminate.
  - intros Hebs Hout.
    unfold get_deployment_strategy_config.
    rewrite (strategy_of_method self method Hebs eq_refl).
    cbn [mbind result_bind].
    pose proof (strategy_map_cases method) as Hmap.
    destruct (dict_item method KUBE_DEPLOY_STATEGY_MAP) as [strategy_type|e].
    + destruct Hmap as [Hin _]. contradiction.
    + destruct Hmap as [-> _]. reflexivity.
Qed.

(** X12.  The anti-affinity is absent exactly when the ["anti_affinity"]
    entry is absent or empty.  When present it has at most one term per
    condition; every term has the topology key ["kubernetes.io/hostname"]
    and a non-empty label selector whose keys are the service and the
    instance label. *)
Theorem get_pod_anti_affinity_terms :
  ∀ self,
    let conditions :=
      match anti_affinity (config_dict self) with
      | Some (OneCondition c) => if nonempty c then [c] else []
      | Some (ConditionList cs) => cs
      | None => []
      end in
    match get_pod_anti_affinity self with
    | None => conditions = []
    | Some anti =>
        conditions ≠ []
        ∧ (length (required_pod_affinity_terms anti) ≤ length conditions)%nat
        ∧ ∀ term,
            term ∈ required_pod_affinity_terms anti →
            topology_key term = "kubernetes.io/hostname"
            ∧ match_labels (label_selector term) ≠ []
            ∧ ∀ k v,
                (k, v) ∈ match_labels (label_selector term) →
                k ∈ ["paasta.yelp.com/service"; "paasta.yelp.com/instance"]
    end.
Proof.
  intros self conditions. subst conditions. unfold get_pod_anti_affinity.
  assert (Hterms : ∀ (cs : list KubeAffinityCondition) term,
            term ∈ omap (fun condition =>
                           match _kube_affinity_condition_to_label_selector
                                   condition with
                           | Some label_selector =>
                               Some {| topology_key := "kubernetes.io/hostname";
                                       label_selector := label_selector |}
                           | None => None
                           end) cs →
            topology_key term = "kubernetes.io/hostname"
            ∧ match_labels (label_selector term) ≠ []
            ∧ ∀ k v,
                (k, v) ∈ match_labels (label_selector term) →
                k ∈ ["paasta.yelp.com/service"; "paasta.yelp.com/instance"]).
  { intros cs term Hin. apply list_elem_of_omap in Hin as (c & _ & Hc).
    unfold _kube_affinity_condition_to_label_selector in Hc.
    destruct (dict_has "service" c), (dict_has "instance" c);
      cbn in Hc; try discriminate; injection Hc as <-;
      cbn [topology_key label_selector match_labels];
      (split; [reflexivity|]); (split; [discriminate|]);
      intros k v; rewrite ?elem_of_cons, ?elem_of_nil;
      intros Hkv; repeat destruct Hkv as [Hkv|Hkv];
      try (injection Hkv as -> _); try contradiction; auto. }
  assert (Hlen : ∀ {A B} (f : A → option B) (l : list A),
            (length (omap f l) ≤ length l)%nat).
  { intros A B f l. induction l as [|x l IH]; [reflexivity|].
    cbn. destruct (f x); cbn; lia. }
  destruct (anti_affinity (config_dict self)) as [[c|cs]|];
    cbn [default].
  - destruct c as [|kv c]; cbn [nonempty negb]; [reflexivity|].
    split; [discriminate|]. split; [apply Hlen|]. apply Hterms.
  - destruct cs as [|c cs]; cbn [nonempty negb]; [reflexivity|].
    split; [discriminate|]. split; [apply Hlen|]. apply Hterms.
  - reflexivity.
Qed.

Lemma for_each_elem {A B : Type} (f : A → result (list B)) xs ys y :
  for_each f xs = Return ys → y ∈ ys →
  ∃ x zs, x ∈ xs ∧ f x = Return zs ∧ y ∈ zs.
Proof.
  revert ys. induction xs as [|x xs IH]; intros ys; cbn [for_each].
  - intros [= <-] Hin. inversion Hin.
  - destruct (f x) as [zs|e] eqn:Hfx; [|discriminate]. cbn [mbind result_bind].
    destruct (for_each f xs) as [rest|e]; [|discriminate].
    cbn [mbind result_bind]. intros [= <-] Hin.
    apply elem_of_app in Hin as [Hin|Hin].
    + exists x, zs. split; [apply elem_of_cons; auto|]. auto.
    + destruct (IH rest eq_refl Hin) as (x' & zs' & Hx' & Hf & Hy).
      exists x', zs'. split; [apply elem_of_cons; auto|]. auto.
Qed.

Lemma config_to_requirement_shape label config key op vs :
  config_to_requirement label config = Return (key, op, vs) →
  key = label ∧ requirement_shape op vs.
Proof.
  unfold config_to_requirement, requirement_shape.
  destruct (sc_operator config) as [op'|]; [|discriminate].
  cbn [param mbind result_bind].
  case_bool_decide as H1.
  { destruct (sc_values config); [|discriminate].
    cbn [param mbind result_bind]. intros [= <- <- <-].
    split; [reflexivity|]. left. exact H1. }
  case_bool_decide as H2.
  { cbn [mbind result_bind]. intros [= <- <- <-].
    split; [reflexivity|]. right. left. split; [exact H2 | reflexivity]. }
  case_bool_decide as H3; [|discriminate].
  destruct (sc_value config) as [v|]; [|discriminate].
  cbn [param mbind result_bind]. intros [= <- <- <-].
  split; [reflexivity|]. right. right. split; [exact H3 | eauto].
Qed.

(** X13.  Every match expression of the node affinity has one of the six
    operators; an [Exists] or [DoesNotExist] expression has no value, a
    [Gt] or [Lt] expression has exactly one value, the decimal form of an
    integer. *)
Theorem get_node_affinity_expressions :
  ∀ self affinity term expression,
    get_node_affinity self = Return (Some affinity) →
    term ∈ node_selector_terms (required_node_selector affinity) →
    expression ∈ match_expressions term →
    requirement_shape (operator expression) (values expression).
Proof.
  intros self affinity term expression. unfold get_node_affinity.
  destruct (_raw_selectors_to_requirements self) as [extension|e] eqn:Hraw;
    [|discriminate].
  cbn [mbind result_bind].
  destruct (length _ =? 0)%nat; [discriminate|].
  intros [= <-]. cbn [required_node_selector node_selector_terms].
  intros ->%list_elem_of_singleton. cbn [match_expressions].
  intros ([[key op] vs] & -> & Hin)%list_elem_of_fmap.
  cbn [operator values].
  apply elem_of_app in Hin as [Hin|Hin].
  - unfold _whitelist_blacklist_to_requirements in Hin.
    apply elem_of_app in Hin as [Hin|Hin].
    + destruct (get_deploy_whitelist self) as [[location_type alloweds]|].
      * apply list_elem_of_singleton in Hin. injection Hin as -> -> ->.
        left. set_solver.
      * inversion Hin.
    + apply list_elem_of_fmap in Hin as ([location_type not_allowed] & Heq & _).
      injection Heq as -> -> ->. left. set_solver.
  - unfold _raw_selectors_to_requirements in Hraw.
    destruct (for_each_elem _ _ _ _ Hraw Hin)
      as ([label configs] & zs & _ & Hzs & Hz).
    assert (Hinner : ∀ cs,
              for_each (fun config =>
                          r ← config_to_requirement (to_node_label label) config;
                          Return [r]) cs = Return zs →
              requirement_shape op vs).
    { intros cs Hcs.
      destruct (for_each_elem _ _ _ _ Hcs Hz) as (config & rs & _ & Hr & Hrs).
      destruct (config_to_requirement _ config) as [r|] eqn:Hconf;
        [|discriminate].
      cbn [mbind result_bind] in Hr. injection Hr as <-.
      apply list_elem_of_singleton in Hrs. subst r.
      apply (config_to_requirement_shape _ _ _ _ _ Hconf). }
    destruct configs as [s|[|v vs']|[|c cs]|];
      first [ exact (Hinner _ Hzs)
            | injection Hzs as <-; inversion Hz ].
Qed.


End ShapeFacts.

Lemma get_deployment_strategy_config_unknown_method_witness :
  @get_deployment_strategy_config
    (fixed_environment "start" false 3 [] [] None [])
    (bounce_config "upthendown" None)
  = Raise (KeyError "upthendown").
Proof.
  apply (proj2 (get_deployment_strategy_config_unknown_method
                  (H := fixed_environment "start" false 3 [] [] None [])
                  (bounce_config "upthendown" None))).
  - reflexivity.
  - cbn. rewrite !elem_of_cons, elem_of_nil.
    intros [?|[?|[?|[]]]]; discriminate.
Defined.

Lemma get_node_affinity_expressions_witness :
  requirement_shape "Gt" ["4"].
Proof.
  pose (env := fixed_environment "start" false 1 [] []
                 (Some ("region", ["uswest1-prod"])) []).
  pose (self :=
    example_config
      {| bounce_method := None; bounce_margin_factor := None;
         autoscaling := None; min_instances := None; max_instances := None;
         node_selectors :=
           Some [("instance_type",
                  SelConfigList
                    [ {| sc_operator := Some "Gt"; sc_values := None;
                         sc_value := Some 4 |} ])];
         anti_affinity := None |}).
  pose (requirements :=
    [ ("yelp.com/region", "In", ["uswest1-prod"]);
      ("node.kubernetes.io/instance-type", "Gt", ["4"]) ] : list requirement).
  apply (get_node_affinity_expressions (H := env) self
           (affinity_of_requirements requirements)
           {| match_expressions :=
                map (fun '(key, op, vs) =>
                       {| key := key; operator := op; values := vs |})
                    requirements |}
           {| key := "node.kubernetes.io/instance-type"; operator := "Gt";
              values := ["4"] |}).
  - vm_compute. reflexivity.
  - apply list_elem_of_here.
  - apply list_elem_of_further, list_elem_of_here.
Defined.


(** ** Container environment *)

Section ContainerEnvFacts.
Context `{LongRunningServiceConfig} `{SecretStore}.
Implicit Types self : KubernetesDeploymentConfig.
Implicit Types env : list (string * string).

Lemma dict_set_fresh {V : Type} k (v : V) d :
  k ∉ d.*1 → dict_set k v d = (d ++ [(k, v)])%list.
Proof.
  induction d as [|[k' v'] d IH]; cbn [dict_set fmap list_fmap fst app];
    [reflexivity|].
  rewrite not_elem_of_cons. intros [Hne Hd].
  destruct (String.eqb_spec k' k) as [->|_]; [contradiction|].
  rewrite (IH Hd). reflexivity.
Qed.

Lemma filter_keys_subset (p : string * string → bool) env k :
  k ∈ (List.filter p env).*1 → k ∈ env.*1.
Proof.
  intros ([k' v] & -> & Hin%list_elem_of_In%filter_In)%list_elem_of_fmap.
  apply list_elem_of_fmap. exists (k', v).
  split; [reflexivity|]. apply list_elem_of_In, Hin.
Qed.

Lemma split_secret_env_vars_filter env :
  NoDup env.*1 →
  split_secret_env_vars env
  = (List.filter own_secret env, List.filter shared_secret env).
Proof.
  unfold split_secret_env_vars.
  assert (Hgen : ∀ env acc1 acc2,
            NoDup env.*1 →
            (∀ k, k ∈ env.*1 → (k ∉ acc1.*1) ∧ (k ∉ acc2.*1)) →
            fold_left secret_env_step env (acc1, acc2)
            = ((acc1 ++ List.filter own_secret env)%list,
               (acc2 ++ List.filter shared_secret env)%list)).
  { clear env. induction env as [|[k v] env IH]; intros acc1 acc2 Hnd Hfresh.
    - cbn. rewrite !app_nil_r. reflexivity.
    - cbn [fmap list_fmap fst] in Hnd, Hfresh.
      apply NoDup_cons in Hnd as [Hk Hnd].
      destruct (Hfresh k) as [Hk1 Hk2]; [apply elem_of_cons; auto|].
      cbn [fold_left List.filter].
      unfold secret_env_step at 2, own_secret, shared_secret.
      cbn [snd].
      destruct (is_secret_ref v); cbn [andb negb];
        [destruct (is_shared_secret v); cbn [andb negb]|].
      + rewrite dict_set_fresh by exact Hk2. rewrite IH; [|exact Hnd|].
        * rewrite <- app_assoc. reflexivity.
        * intros k' Hk'. destruct (Hfresh k') as [H1 H2];
            [apply elem_of_cons; auto|].
          split; [exact H1|]. rewrite fmap_app, elem_of_app.
          cbn. rewrite list_elem_of_singleton. intros [?| ->]; auto.
      + rewrite dict_set_fresh by exact Hk1. rewrite IH; [|exact Hnd|].
        * rewrite <- app_assoc. reflexivity.
        * intros k' Hk'. destruct (Hfresh k') as [H1 H2];
            [apply elem_of_cons; auto|].
          split; [|exact H2]. rewrite fmap_app, elem_of_app.
          cbn. rewrite list_elem_of_singleton. intros [?| ->]; auto.
      + apply IH; [exact Hnd|].
        intros k' Hk'. apply Hfresh, elem_of_cons. auto. }
  intros Hnd. rewrite (Hgen env [] [] Hnd); [reflexivity|].
  intros k _. split; apply not_elem_of_nil.
Qed.

Lemma key_of_filter (p : string * string → bool) env k v :
  NoDup env.*1 → (k, v) ∈ env →
  k ∈ (List.filter p env).*1 ↔ p (k, v) = true.
Proof.
  intros Hnd Hin. split.
  - intros ([k' v'] & Hk & Hin'%list_elem_of_In%filter_In)%list_elem_of_fmap.
    cbn in Hk. subst k'. destruct Hin' as [Hin' Hp%Is_true_true].
    apply list_elem_of_In in Hin'.
    assert (v' = v) as ->; [|apply Is_true_true, Hp].
    clear Hp. induction env as [|[k0 v0] env IH]; [inversion Hin|].
    cbn [fmap list_fmap fst] in Hnd. apply NoDup_cons in Hnd as [Hk0 Hnd].
    apply elem_of_cons in Hin as [[= <- <-]|Hin],
                          Hin' as [[= <-]|Hin'].
    + reflexivity.
    + exfalso. apply Hk0, list_elem_of_fmap. exists (k, v'). auto.
    + exfalso. apply Hk0, list_elem_of_fmap. exists (k, v). auto.
    + apply IH; assumption.
  - intros Hp. apply list_elem_of_fmap. exists (k, v).
    split; [reflexivity|]. apply list_elem_of_In, filter_In.
    split; [apply list_elem_of_In, Hin | exact Hp].
Qed.

Lemma filter_ext_in {A : Type} (p q : A → bool) (l : list A) :
  (∀ x, x ∈ l → p x = q x) → List.filter p l = List.filter q l.
Proof.
  induction l as [|x l IH]; intros Hpq; [reflexivity|].
  cbn [List.filter]. rewrite (Hpq x) by (apply elem_of_cons; auto).
  rewrite IH; [reflexivity|]. intros y Hy. apply Hpq, elem_of_cons. auto.
Qed.

(** [get_container_env] on an environment without repeated names. *)
Lemma get_container_env_filter self :
  NoDup (get_env self).*1 →
  get_container_env self
  = (map (fun '(name, value) =>
            {| env_name := name; env_value := Some value;
               env_value_from := None |})
         (List.filter plain (get_env self))
     ++ get_kubernetes_secret_env_vars self
          (List.filter own_secret (get_env self))
          (List.filter shared_secret (get_env self))
     ++ get_kubernetes_environment)%list.
Proof.
  intros Hnd. unfold get_container_env.
  rewrite (split_secret_env_vars_filter _ Hnd).
  rewrite <- app_assoc. f_equal. f_equal.
  apply filter_ext_in. intros [k v] Hin.
  unfold plain. cbn [snd].
  rewrite <- fmap_app.
  destruct (is_secret_ref v) eqn:Hs; cbn [negb].
  - apply bool_decide_eq_false. intros Hout. apply Hout.
    rewrite fmap_app, elem_of_app.
    rewrite (key_of_filter own_secret _ k v Hnd Hin),
            (key_of_filter shared_secret _ k v Hnd Hin).
    unfold own_secret, shared_secret. cbn [snd]. rewrite Hs.
    destruct (is_shared_secret v); auto.
  - apply bool_decide_eq_true.
    rewrite fmap_app, elem_of_app.
    rewrite (key_of_filter own_secret _ k v Hnd Hin),
            (key_of_filter shared_secret _ k v Hnd Hin).
    unfold own_secret, shared_secret. cbn [snd]. rewrite Hs.
    intros [?|?]; discriminate.
Qed.

Lemma filter_three_way_permutation env :
  ((List.filter plain env).*1
   ++ (List.filter own_secret env).*1
   ++ (List.filter shared_secret env).*1)%list ≡ₚ env.*1.
Proof.
  induction env as [|[k v] env IH]; [reflexivity|].
  cbn [List.filter]. unfold plain at 1, own_secret at 1, shared_secret at 1.
  cbn [snd]. rewrite (fmap_cons fst (k, v) env). cbn [fst].
  rewrite <- IH.
  destruct (is_secret_ref v); cbn [negb andb];
    [destruct (is_shared_secret v); cbn [negb andb]|];
    rewrite fmap_cons; cbn [fst].
  - rewrite !app_assoc. symmetry. apply Permutation_middle.
  - symmetry. apply Permutation_middle.
  - reflexivity.
Qed.

Lemma secret_env_var_names service (l : list (string * string)) :
  map env_name (map (fun '(k, v) => secret_env_var service k v) l) = l.*1.
Proof.
  induction l as [|[k v] l IH]; [reflexivity|].
  cbn. f_equal. exact IH.
Qed.

Lemma plain_env_var_names (l : list (string * string)) :
  map env_name
      (map (fun '(name, value) =>
              {| env_name := name; env_value := Some value;
                 env_value_from := None |}) l)
  = l.*1.
Proof.
  induction l as [|[k v] l IH]; [reflexivity|].
  cbn. f_equal. exact IH.
Qed.

(** X15.  On an environment without repeated names, [get_container_env]
    defines every variable of the environment exactly once, together with
    ["PAASTA_POD_IP"], ["POD_NAME"] and ["PAASTA_HOST"]; a variable with a
    plain value is a variable of the environment whose value is not a
    secret reference, so no secret reference is passed on as a value. *)
Theorem get_container_env_names :
  ∀ self,
    NoDup (get_env self).*1 →
    map env_name (get_container_env self)
    ≡ₚ ((get_env self).*1 ++ ["PAASTA_POD_IP"; "POD_NAME"; "PAASTA_HOST"])%list
    ∧ ∀ var value,
        var ∈ get_container_env self →
        env_value var = Some value →
        (env_name var, value) ∈ get_env self
        ∧ is_secret_ref value = false
        ∧ env_value_from var = None.
Proof.
  intros self Hnd. rewrite (get_container_env_filter self Hnd). split.
  - unfold get_kubernetes_secret_env_vars.
    rewrite !map_app, plain_env_var_names, !secret_env_var_names.
    rewrite !app_assoc. apply Permutation_app; [|reflexivity].
    rewrite <- app_assoc. apply filter_three_way_permutation.
  - intros var value Hin Hvalue.
    rewrite !elem_of_app in Hin. destruct Hin as [Hin|[Hin|Hin]].
    + apply list_elem_of_fmap in Hin
        as ([k v] & -> & [Hin Hp]%list_elem_of_In%filter_In).
      cbn in Hvalue. injection Hvalue as <-. cbn [env_name env_value_from].
      split; [apply list_elem_of_In, Hin|].
      split; [|reflexivity].
      unfold plain in Hp. cbn in Hp. apply negb_true_iff, Hp.
    + unfold get_kubernetes_secret_env_vars in Hin.
      apply elem_of_app in Hin as [Hin|Hin];
        apply list_elem_of_fmap in Hin as ([k v] & -> & _); discriminate.
    + unfold get_kubernetes_environment in Hin.
      rewrite !elem_of_cons, elem_of_nil in Hin.
      destruct Hin as [->|[->|[->|[]]]]; discriminate.
Qed.

Lemma str_app_assoc (a b c : string) : (a +:+ b) +:+ c = a +:+ (b +:+ c).
Proof.
  induction a as [|x a IH]; [reflexivity|].
  change (String x ((a +:+ b) +:+ c) = String x (a +:+ (b +:+ c))).
  rewrite IH. reflexivity.
Qed.

(** X16.  For every variable of the environment (without repeated names)
    whose value is a secret reference, [get_container_env] has a variable
    of that name without a plain value, which reads the key named by the
    reference from a secret that is not optional; the signature that
    [get_kubernetes_secret_hashes] looks up for the reference is the one
    stored under the name of that secret followed by ["-signature"]. *)
Theorem get_container_env_secret_refs :
  ∀ self name value,
    NoDup (get_env self).*1 →
    (name, value) ∈ get_env self →
    is_secret_ref value = true →
    ∃ var selector,
      var ∈ get_container_env self
      ∧ env_name var = name
      ∧ env_value var = None
      ∧ env_value_from var
        = Some {| secret_key_ref := Some selector; field_ref := None |}
      ∧ sks_key selector = get_secret_name_from_ref value
      ∧ sks_optional selector = false
      ∧ read_signature (sks_name selector +:+ "-signature")
        = signature_of_ref (get_service self) value.
Proof.
  intros self name value Hnd Hin Href.
  rewrite (get_container_env_filter self Hnd).
  unfold get_kubernetes_secret_env_vars.
  set (service :=
         if is_shared_secret value
         then sanitise_kubernetes_name SHARED_SECRET_SERVICE
         else get_sanitised_service_name self).
  exists (secret_env_var service name value).
  eexists. split; [|repeat split].
  - rewrite !elem_of_app. right. left. subst service.
    destruct (is_shared_secret value) eqn:Hshared; [right | left].
    + apply list_elem_of_fmap. exists (name, value).
      split; [reflexivity|]. apply list_elem_of_In, filter_In.
      split; [apply list_elem_of_In, Hin|].
      unfold shared_secret. cbn. rewrite Href, Hshared. reflexivity.
    + apply list_elem_of_fmap. exists (name, value).
      split; [reflexivity|]. apply list_elem_of_In, filter_In.
      split; [apply list_elem_of_In, Hin|].
      unfold own_secret. cbn. rewrite Href, Hshared. reflexivity.
  - cbn [sks_name]. unfold signature_of_ref, get_kubernetes_secret_signature.
    f_equal. subst service. unfold get_sanitised_service_name.
    rewrite !str_app_assoc.
    destruct (is_shared_secret value); reflexivity.
Qed.

End ContainerEnvFacts.

Lemma get_container_env_names_witness :
  let E :=
    with_env (fixed_environment "start" false 1 [] [] None [])
             [ ("PORT", "8888"); ("API_KEY", "SECRET(api_key)");
               ("TOKEN", "SHARED_SECRET(token)") ] in
  let S := example_shared_secret_store (Some "3f2a") in
  map env_name (@get_container_env E S (example_config empty_config_dict))
  ≡ₚ [ "PORT"; "API_KEY"; "TOKEN"; "PAASTA_POD_IP"; "POD_NAME";
       "PAASTA_HOST" ].
Proof.
  intros E S.
  apply (proj1 (get_container_env_names (H := E) (H0 := S)
                  (example_config empty_config_dict)
                  ltac:(vm_compute;
       repeat (apply NoDup_cons_2;
               [rewrite ?elem_of_cons, elem_of_nil; intros Hin;
                repeat destruct Hin as [Hin|Hin];
                first [discriminate Hin | exact Hin]|]);
       apply NoDup_nil_2))).
Defined.

Lemma get_container_env_secret_refs_witness :
  let E :=
    with_env (fixed_environment "start" false 1 [] [] None [])
             [ ("PORT", "8888"); ("API_KEY", "SECRET(api_key)");
               ("TOKEN", "SHARED_SECRET(token)") ] in
  let S := example_shared_secret_store (Some "3f2a") in
  ∃ var selector,
    var ∈ @get_container_env E S (example_config empty_config_dict)
    ∧ env_name var = "TOKEN"
    ∧ env_value var = None
    ∧ env_value_from var
      = Some {| secret_key_ref := Some selector; field_ref := None |}
    ∧ sks_key selector = "SHARED_SECRET(token)"
    ∧ sks_optional selector = false
    ∧ @read_signature S (sks_name selector +:+ "-signature")
      = @signature_of_ref S "example_service" "SHARED_SECRET(token)".
Proof.
  intros E S.
  apply (get_container_env_secret_refs (H := E) (H0 := S)
           (example_config empty_config_dict) "TOKEN" "SHARED_SECRET(token)").
  - vm_compute.
    repeat (apply NoDup_cons_2;
            [rewrite ?elem_of_cons, elem_of_nil; intros Hin;
             repeat destruct Hin as [Hin|Hin];
             first [discriminate Hin | exact Hin]|]);
    apply NoDup_nil_2.
  - apply list_elem_of_further, list_elem_of_further, list_elem_of_here.
  - reflexivity.
Defined.

(** ** Node selector *)

Section NodeSelectorFacts.
Context `{InstanceConfig}.
Implicit Types self : KubernetesDeploymentConfig.

Lemma dict_get_set {V : Type} k k' (v : V) d :
  dict_get k (dict_set k' v d)
  = if String.eqb k' k then Some v else dict_get k d.
Proof.
  induction d as [|[k0 v0] d IH]; cbn [dict_set dict_get].
  - reflexivity.
  - destruct (String.eqb_spec k0 k') as [->|Hne]; cbn [dict_get].
    + destruct (String.eqb k' k); reflexivity.
    + rewrite IH. destruct (String.eqb_spec k0 k) as [->|Hne'];
        [|reflexivity].
      rewrite (proj2 (String.eqb_neq k' k)) by congruence. reflexivity.
Qed.

(** The binding of [k] after a run of assignments is the last one made to
    [k], or the one before the run. *)
Lemma dict_get_fold_set {A V : Type} (key : A → string) (val : A → V)
    (l : list A) (acc : list (string * V)) k :
  dict_get k (fold_left (fun d x => dict_set (key x) (val x) d) l acc)
  = match last (List.filter (fun x => String.eqb (key x) k) l) with
    | Some x => Some (val x)
    | None => dict_get k acc
    end.
Proof.
  revert acc. induction l as [|x l IH]; intros acc; [reflexivity|].
  cbn [fold_left List.filter]. rewrite IH, dict_get_set.
  destruct (String.eqb (key x) k); [|reflexivity].
  rewrite last_cons. destruct (last _); reflexivity.
Qed.

(** X17.  [get_node_selector] always binds ["yelp.com/pool"] to the pool
    of the instance, whatever the configured selectors; every other key
    is bound to the value of the last string-valued selector with that
    node label, and selectors with a value that is not a string bind
    nothing. *)
Theorem get_node_selector_bindings :
  ∀ self k,
    let raw_selectors := default [] (node_selectors (config_dict self)) in
    dict_get "yelp.com/pool" (get_node_selector self) = Some (get_pool self)
    ∧ (k ≠ "yelp.com/pool" →
       dict_get k (get_node_selector self)
       = last (omap (fun '(label, value) =>
                       match value with
                       | SelStr s =>
                           if String.eqb (to_node_label label) k
                           then Some s else None
                       | _ => None
                       end)
                    raw_selectors)).
Proof.
  intros self k raw_selectors. unfold get_node_selector. fold raw_selectors.
  rewrite !dict_get_set. split; [reflexivity|].
  intros Hk. rewrite (proj2 (String.eqb_neq "yelp.com/pool" k)) by congruence.
  unfold dict_of. rewrite (dict_get_fold_set fst snd). cbn [dict_get].
  unfold string_selectors.
  set (entries := omap _ raw_selectors).
  assert (Hmap : omap (fun '(label, value) =>
                         match value with
                         | SelStr s =>
                             if String.eqb (to_node_label label) k
                             then Some s else None
                         | _ => None
                         end) raw_selectors
                 = snd <$> List.filter (fun x => String.eqb x.1 k) entries).
  { subst entries. clear Hk.
    induction raw_selectors as [|[label value] raw IH]; [reflexivity|].
    destruct value as [s|vs|cs|]; cbn [omap list_omap]; try exact IH.
    cbn [List.filter fst].
    destruct (String.eqb (to_node_label label) k);
      [rewrite fmap_cons; cbn [snd]; f_equal|]; exact IH. }
  rewrite Hmap, fmap_last.
  destruct (last _) as [[k' v]|]; reflexivity.
Qed.

End NodeSelectorFacts.

Section SecretHashFacts.
Context `{SecretStore}.


End SecretHashFacts.

Lemma get_node_selector_bindings_witness :
  @get_node_selector (example_instance_config "default")
    (example_config
       {| bounce_method := None; bounce_margin_factor := None;
          autoscaling := None; min_instances := None; max_instances := None;
          node_selectors :=
            Some [ ("region", SelStr "uswest1-prod");
                   ("instance_type", SelStrList ["c5.large"]) ];
          anti_affinity := None |})
  = [("yelp.com/region", "uswest1-prod"); ("yelp.com/pool", "default")]
  ∧ dict_get "yelp.com/region"
      (@get_node_selector (example_instance_config "default")
         (example_config
            {| bounce_method := None; bounce_margin_factor := None;
               autoscaling := None; min_instances := None;
               max_instances := None;
               node_selectors :=
                 Some [ ("region", SelStr "uswest1-prod");
                        ("instance_type", SelStrList ["c5.large"]) ];
               anti_affinity := None |}))
    = Some "uswest1-prod".
Proof.
  split; [reflexivity|].
  refine (proj2 (get_node_selector_bindings
                   (H := example_instance_config "default") _
                   "yelp.com/region") _).
  discriminate.
Defined.

(** ** Nodes grouped by a label *)

Section GroupFacts.

Lemma ascii_compare_N c d :
  Ascii.compare c d = N.compare (N_of_ascii c) (N_of_ascii d).
Proof. reflexivity. Qed.

Lemma ascii_compare_eq c d : Ascii.compare c d = Eq → c = d.
Proof.
  rewrite ascii_compare_N. intros Heq%N.compare_eq.
  rewrite <- (ascii_N_embedding c), <- (ascii_N_embedding d), Heq.
  reflexivity.
Qed.

Lemma string_leb_refl s : String.leb s s = true.
Proof. destruct (String.leb_total s s); assumption. Qed.

Lemma string_leb_trans s1 s2 s3 :
  String.leb s1 s2 = true → String.leb s2 s3 = true →
  String.leb s1 s3 = true.
Proof.
  unfold String.leb. revert s2 s3.
  induction s1 as [|c1 s1 IH]; intros [|c2 s2] [|c3 s3];
    cbn [String.compare]; try (intros; reflexivity || discriminate).
  rewrite !ascii_compare_N.
  destruct (N.compare_spec (N_of_ascii c1) (N_of_ascii c2)) as [H12|H12|H12];
    destruct (N.compare_spec (N_of_ascii c2) (N_of_ascii c3)) as [H23|H23|H23];
    try (intros; discriminate).
  - rewrite H12, H23, N.compare_refl. apply IH.
  - intros _ _. rewrite H12, (proj2 (N.compare_lt_iff _ _) H23). reflexivity.
  - intros _ _. rewrite <- H23, (proj2 (N.compare_lt_iff _ _) H12).
    reflexivity.
  - intros _ _.
    rewrite (proj2 (N.compare_lt_iff _ _) (N.lt_trans _ _ _ H12 H23)).
    reflexivity.
Qed.

Context {A : Type}.
Implicit Types l : list (string * A).

Lemma sorted_insert_elem x y l :
  y ∈ sorted_insert x l ↔ y = x ∨ y ∈ l.
Proof.
  induction l as [|z l IH]; cbn [sorted_insert].
  - rewrite list_elem_of_singleton, elem_of_nil. tauto.
  - destruct (String.leb x.1 z.1); rewrite !elem_of_cons; [tauto|].
    rewrite IH. tauto.
Qed.

Lemma sorted_insert_ascending x l :
  ascending l → ascending (sorted_insert x l).
Proof.
  induction l as [|z l IH]; cbn [sorted_insert ascending].
  - intros _. split; [constructor | exact I].
  - intros [Hz Hl]. destruct (String.leb x.1 z.1) eqn:Hxz.
    + cbn [ascending]. split; [|split; assumption].
      constructor; [exact Hxz|].
      eapply Forall_impl; [exact Hz|].
      intros y Hy. eapply string_leb_trans; eassumption.
    + cbn [ascending]. split; [|exact (IH Hl)].
      apply Forall_forall. intros y [->|Hy]%sorted_insert_elem.
      * destruct (String.leb_total x.1 z.1) as [Hle|Hle]; congruence.
      * rewrite Forall_forall in Hz. apply Hz, Hy.
Qed.

Lemma sorted_ascending l : ascending (sorted l).
Proof.
  induction l as [|x l IH]; [exact I|].
  apply sorted_insert_ascending, IH.
Qed.

(** The sort is stable: the items of one key keep their order. *)
Lemma sorted_insert_stable k x l :
  List.filter (fun y => String.eqb y.1 k) (sorted_insert x l)
  = List.filter (fun y => String.eqb y.1 k) (x :: l).
Proof.
  induction l as [|z l IH]; [reflexivity|].
  cbn [sorted_insert]. destruct (String.leb x.1 z.1) eqn:Hxz; [reflexivity|].
  cbn [List.filter] in *. rewrite IH.
  destruct (String.eqb_spec x.1 k) as [Hx|Hx]; [|reflexivity].
  destruct (String.eqb_spec z.1 k) as [Hz|Hz]; [|reflexivity].
  rewrite Hx, Hz, string_leb_refl in Hxz. discriminate.
Qed.

Lemma sorted_stable k l :
  List.filter (fun y => String.eqb y.1 k) (sorted l)
  = List.filter (fun y => String.eqb y.1 k) l.
Proof.
  induction l as [|x l IH]; [reflexivity|].
  cbn [sorted]. rewrite sorted_insert_stable. cbn [List.filter].
  rewrite IH. reflexivity.
Qed.

Lemma groupby_head l k group rest :
  groupby l = (k, group) :: rest → ∃ x l', l = (k, x) :: l'.
Proof.
  destruct l as [|[k0 x] l']; [discriminate|]. cbn [groupby].
  destruct (groupby l') as [|[k' g] rest'].
  - intros [= -> _ _]. eauto.
  - destruct (String.eqb k0 k'); intros [= -> _ _]; eauto.
Qed.

Lemma groupby_nil l : groupby l = [] → l = [].
Proof.
  destruct l as [|[k0 x] l']; [reflexivity|]. cbn [groupby].
  destruct (groupby l') as [|[k' g] rest']; [discriminate|].
  destruct (String.eqb k0 k'); discriminate.
Qed.

(** On ascending keys, each key has at most one group, which holds the
    items of that key in order. *)
Lemma groupby_ascending k l :
  ascending l →
  List.filter (fun g : string * list A => String.eqb g.1 k) (groupby l)
  = match List.filter (fun y => String.eqb y.1 k) l with
    | [] => []
    | items => [(k, items.*2)]
    end.
Proof.
  induction l as [|[k0 x] l IH]; [reflexivity|].
  cbn [ascending]. intros [Hk0 Hl]. specialize (IH Hl).
  cbn [groupby List.filter fst].
  destruct (groupby l) as [|[k' group] rest] eqn:Hg.
  - apply groupby_nil in Hg. subst l. cbn [List.filter fst].
    destruct (String.eqb k0 k) eqn:Hk; [|reflexivity].
    apply String.eqb_eq in Hk. subst k0. reflexivity.
  - destruct (groupby_head _ _ _ _ Hg) as (y & l' & ->).
    cbn [List.filter fst] in IH.
    destruct (String.eqb_spec k0 k') as [<-|Hne].
    + cbn [List.filter fst].
      destruct (String.eqb_spec k0 k) as [->|Hk].
      * injection IH as Hgroup Hrest. rewrite Hgroup, Hrest. reflexivity.
      * exact IH.
    + cbn [List.filter fst].
      destruct (String.eqb_spec k0 k) as [->|Hk]; [|exact IH].
      rewrite (proj2 (String.eqb_neq k' k)) in IH |- * by congruence.
      assert (Hnone : List.filter (fun y : string * A => String.eqb y.1 k) l'
                      = []).
      { cbn [ascending] in Hl. destruct Hl as [Hk' _].
        apply Forall_inv in Hk0 as Hkk'. cbn [fst] in Hkk'.
        apply Forall_inv_tail in Hk0.
        rewrite Forall_forall in Hk', Hk0.
        destruct (List.filter _ l') as [|z zs] eqn:Hf; [reflexivity|].
        exfalso.
        assert (Hz : In z (List.filter
                             (fun y : string * A => String.eqb y.1 k) l'))
          by (rewrite Hf; left; reflexivity).
        apply filter_In in Hz as [Hz Hzk%String.eqb_eq].
        apply list_elem_of_In in Hz. specialize (Hk' z Hz). cbn [fst] in Hk'.
        apply Hne, String.leb_antisym; congruence. }
      rewrite Hnone in IH |- *. rewrite IH. reflexivity.
Qed.

End GroupFacts.

Section NodeGroupFacts.

Lemma keyed_nodes attribute nodes :
  match for_each (fun node =>
                    key ← node_attribute attribute node;
                    Return [(key, node)]) nodes with
  | Return keyed =>
      Forall (fun node => is_Some (node_labels node)) nodes
      ∧ keyed.*2 = nodes
      ∧ ∀ k, (List.filter (fun y : string * V1Node => String.eqb y.1 k)
                          keyed).*2
             = nodes_with attribute k nodes
  | Raise e =>
      e = AttributeError ∧ ∃ node, node ∈ nodes ∧ node_labels node = None
  end.
Proof.
  induction nodes as [|node nodes IH]; cbn [for_each].
  - split; [constructor|]. split; reflexivity.
  - assert (Hkey : node_attribute attribute node
                   = match node_labels node with
                     | Some labels =>
                         Return (default "" (dict_get attribute labels))
                     | None => Raise AttributeError
                     end) by reflexivity.
    rewrite Hkey. clear Hkey. unfold nodes_with.
    destruct (node_labels node) as [labels|] eqn:Hlabels;
      cbn [mbind result_bind].
    + destruct (for_each _ nodes) as [keyed|e]; cbn [mbind result_bind].
      * destruct IH as (Hall & Hnodes & Hgroups). split; [|split].
        -- constructor; [rewrite Hlabels; eauto | exact Hall].
        -- cbn. rewrite Hnodes. reflexivity.
        -- intros k. cbn [app List.filter fst]. rewrite Hlabels.
           destruct (String.eqb _ k); cbn; rewrite Hgroups; reflexivity.
      * destruct IH as (-> & node' & Hin & Hnone). split; [reflexivity|].
        exists node'. split; [apply elem_of_cons; auto | exact Hnone].
    + split; [reflexivity|]. exists node.
      split; [apply list_elem_of_here | exact Hlabels].
Qed.

(** X19.  [get_nodes_grouped_by_attribute] raises [AttributeError]
    exactly when some node has no labels.  Otherwise it returns a
    dictionary that binds every non-empty value [v] of the (prefixed)
    label carried by some node to the nodes with that value, in the order
    of the input, and binds nothing else: nodes without the label or with
    an empty value are left out. *)
Theorem get_nodes_grouped_by_attribute_spec :
  ∀ nodes attribute,
    match get_nodes_grouped_by_attribute nodes attribute with
    | Return groups =>
        Forall (fun node => is_Some (node_labels node)) nodes
        ∧ ∀ value,
            dict_get value groups
            = match nodes_with (paasta_prefixed attribute) value nodes with
              | [] => None
              | group => if String.eqb value "" then None else Some group
              end
    | Raise e =>
        e = AttributeError ∧ ∃ node, node ∈ nodes ∧ node_labels node = None
    end.
Proof.
  intros nodes attribute. unfold get_nodes_grouped_by_attribute.
  pose proof (keyed_nodes (paasta_prefixed attribute) nodes) as Hkeyed.
  destruct (for_each _ nodes) as [keyed|e]; cbn [mbind result_bind];
    [|exact Hkeyed].
  destruct Hkeyed as (Hall & _ & Hgroups). split; [exact Hall|].
  intros value. unfold dict_of.
  rewrite (dict_get_fold_set fst snd). cbn [dict_get].
  rewrite <- Hgroups, <- (sorted_stable value keyed).
  assert (Hfilter :
            List.filter (fun x : string * list V1Node => String.eqb x.1 value)
              (List.filter (fun '(key, group) => negb (String.eqb key ""))
                           (groupby (sorted keyed)))
            = if String.eqb value "" then []
              else List.filter
                     (fun x : string * list V1Node => String.eqb x.1 value)
                     (groupby (sorted keyed))).
  { induction (groupby (sorted keyed)) as [|[k g] gs IH];
      [destruct (String.eqb value ""); reflexivity|].
    cbn [List.filter fst].
    destruct (String.eqb_spec k "") as [->|Hk]; cbn [negb List.filter fst].
    - rewrite IH. destruct (String.eqb_spec value "") as [->|Hv];
        [reflexivity|].
      rewrite (proj2 (String.eqb_neq "" value)) by congruence. reflexivity.
    - rewrite IH. destruct (String.eqb_spec value "") as [->|Hv];
        [|reflexivity].
      rewrite (proj2 (String.eqb_neq k "")) by congruence. reflexivity. }
  rewrite Hfilter.
  rewrite (groupby_ascending value (sorted keyed) (sorted_ascending keyed)).
  destruct (List.filter _ (sorted keyed)) as [|item items];
    destruct (String.eqb value ""); reflexivity.
Qed.

End NodeGroupFacts.

(** ** Volumes *)

Section VolumeFacts.
Context `{Hashlib} `{PyInt} `{VolumeConfig}.
Implicit Types self : KubernetesDeploymentConfig.

Lemma for_each_complete {A B : Type} (f : A → result (list B)) xs ys x :
  for_each f xs = Return ys → x ∈ xs →
  ∃ zs, f x = Return zs ∧ ∀ z, z ∈ zs → z ∈ ys.
Proof.
  revert ys. induction xs as [|x' xs IH]; intros ys; cbn [for_each].
  - intros _ Hin. inversion Hin.
  - destruct (f x') as [zs|e] eqn:Hfx; [|discriminate].
    cbn [mbind result_bind].
    destruct (for_each f xs) as [rest|e]; [|discriminate].
    cbn [mbind result_bind]. intros [= <-] [->|Hin]%elem_of_cons.
    + exists zs. split; [exact Hfx|]. intros z Hz. apply elem_of_app. auto.
    + destruct (IH rest eq_refl Hin) as (zs' & Hf & Hsub).
      exists zs'. split; [exact Hf|]. intros z Hz. apply elem_of_app. auto.
Qed.

Lemma dict_set_elem {V : Type} k (v : V) d k' v' :
  (k', v') ∈ dict_set k v d → (k', v') = (k, v) ∨ (k', v') ∈ d.
Proof.
  induction d as [|[k0 v0] d IH]; cbn [dict_set].
  - intros ->%list_elem_of_singleton. auto.
  - destruct (String.eqb k0 k).
    + rewrite !elem_of_cons. tauto.
    + rewrite !elem_of_cons. intros [Heq|Hin]; [auto|].
      destruct (IH Hin); auto.
Qed.

Lemma dict_set_keys {V : Type} k (v : V) d k' :
  k' ∈ (dict_set k v d).*1 ↔ k' = k ∨ k' ∈ d.*1.
Proof.
  induction d as [|[k0 v0] d IH]; cbn [dict_set].
  - cbn. rewrite list_elem_of_singleton, elem_of_nil. tauto.
  - destruct (String.eqb_spec k0 k) as [->|Hne].
    + rewrite !fmap_cons, !elem_of_cons. cbn [fst]. tauto.
    + rewrite !fmap_cons, !elem_of_cons, IH. cbn [fst]. tauto.
Qed.

Lemma dict_set_nodup {V : Type} k (v : V) d :
  NoDup d.*1 → NoDup (dict_set k v d).*1.
Proof.
  induction d as [|[k0 v0] d IH]; cbn [dict_set].
  - intros _. cbn. apply NoDup_singleton.
  - rewrite fmap_cons. cbn [fst]. intros [Hk0 Hd]%NoDup_cons.
    destruct (String.eqb_spec k0 k) as [->|Hne].
    + rewrite fmap_cons. cbn [fst]. apply NoDup_cons. auto.
    + rewrite fmap_cons. cbn [fst]. apply NoDup_cons. split; [|auto].
      rewrite dict_set_keys. intros [?|?]; [congruence | contradiction].
Qed.

Lemma dict_of_facts {V : Type} (l : list (string * V)) :
  NoDup (dict_of l).*1
  ∧ (∀ k, k ∈ (dict_of l).*1 ↔ k ∈ l.*1)
  ∧ (∀ k v, (k, v) ∈ dict_of l → (k, v) ∈ l).
Proof.
  unfold dict_of.
  assert (Hgen : ∀ (l acc : list (string * V)),
            NoDup acc.*1 →
            let d := fold_left (fun d kv => dict_set kv.1 kv.2 d) l acc in
            NoDup d.*1
            ∧ (∀ k, k ∈ d.*1 ↔ k ∈ acc.*1 ∨ k ∈ l.*1)
            ∧ (∀ k v, (k, v) ∈ d → (k, v) ∈ acc ∨ (k, v) ∈ l)).
  { clear l. induction l as [|[k0 v0] l IH]; intros acc Hacc; cbn [fold_left].
    - split; [exact Hacc|]. split.
      + intros k. cbn. rewrite elem_of_nil. tauto.
      + auto.
    - destruct (IH (dict_set k0 v0 acc) (dict_set_nodup k0 v0 acc Hacc))
        as (Hnd & Hkeys & Helems).
      cbn [fst snd]. split; [exact Hnd|]. split.
      + intros k. rewrite Hkeys, dict_set_keys, fmap_cons, elem_of_cons.
        cbn [fst]. tauto.
      + intros k v Hin. rewrite elem_of_cons.
        destruct (Helems k v Hin) as [Hset|Hl]; [|auto].
        destruct (dict_set_elem _ _ _ _ _ Hset); auto. }
  destruct (Hgen l [] (NoDup_nil_2)) as (Hnd & Hkeys & Helems).
  split; [exact Hnd|]. split.
  - intros k. rewrite Hkeys. cbn. rewrite elem_of_nil. tauto.
  - intros k v Hin. destruct (Helems k v Hin) as [Hnil|Hl]; [|exact Hl].
    inversion Hnil.
Qed.

(** The items a loop with one result per iteration collects. *)
Lemma for_each_one {A B C : Type} (f : A → result B) (g : B → A → C)
    xs ys :
  for_each (fun x => n ← f x; Return [g n x]) xs = Return ys →
  (∀ y, y ∈ ys → ∃ x n, x ∈ xs ∧ f x = Return n ∧ y = g n x)
  ∧ (∀ x, x ∈ xs → ∃ n, f x = Return n ∧ g n x ∈ ys).
Proof.
  intros Hfe. split.
  - intros y Hy. destruct (for_each_elem _ _ _ _ Hfe Hy)
      as (x & zs & Hx & Hf & Hz).
    destruct (f x) as [n|e] eqn:Hfx; [|discriminate].
    cbn [mbind result_bind] in Hf. injection Hf as <-.
    apply list_elem_of_singleton in Hz. exists x, n. auto.
  - intros x Hx. destruct (for_each_complete _ _ _ _ Hfe Hx)
      as (zs & Hf & Hsub).
    destruct (f x) as [n|e] eqn:Hfx; [|discriminate].
    cbn [mbind result_bind] in Hf. injection Hf as <-.
    exists n. split; [reflexivity|]. apply Hsub, list_elem_of_here.
Qed.

(** X20.  When [get_volume_mounts], [get_pod_volumes] and
    [get_volume_claim_templates] return for the volumes of one instance,
    every mount names a volume of the pod or a volume claim template: the
    mount of a persistent volume names its template, every other mount a
    pod volume. *)
Theorem get_volume_mounts_are_declared :
  ∀ self docker_volumes aws_ebs_volumes secret_volumes mounts volumes
    templates,
    get_volume_mounts docker_volumes aws_ebs_volumes
      (get_persistent_volume_dicts self) secret_volumes
    = Return mounts →
    get_pod_volumes self docker_volumes aws_ebs_volumes secret_volumes
    = Return volumes →
    get_volume_claim_templates self = Return templates →
    ∀ mount,
      mount ∈ mounts →
      mount_name mount ∈ map volume_name volumes
      ∨ mount_name mount ∈ map claim_name templates.
Proof.
  intros self docker_volumes aws_ebs_volumes secret_volumes mounts volumes
    templates Hmounts Hvolumes Htemplates mount Hmount.
  unfold get_volume_mounts in Hmounts.
  destruct (for_each _ docker_volumes) as [docker|] eqn:Hd in Hmounts;
    [|discriminate].
  cbn [mbind result_bind] in Hmounts.
  destruct (for_each _ aws_ebs_volumes) as [aws|] eqn:Ha in Hmounts;
    [|discriminate].
  cbn [mbind result_bind] in Hmounts.
  destruct (for_each _ (get_persistent_volume_dicts self))
    as [persistent|] eqn:Hp in Hmounts; [|discriminate].
  cbn [mbind result_bind] in Hmounts.
  destruct (for_each _ secret_volumes) as [secrets|] eqn:Hs in Hmounts;
    [|discriminate].
  cbn [mbind result_bind] in Hmounts. injection Hmounts as <-.
  unfold get_pod_volumes in Hvolumes.
  destruct (for_each _ docker_volumes) as [named_docker|] eqn:Hnd in Hvolumes;
    [|discriminate].
  cbn [mbind result_bind] in Hvolumes.
  destruct (for_each _ aws_ebs_volumes) as [named_aws|] eqn:Hna in Hvolumes;
    [|discriminate].
  cbn [mbind result_bind] in Hvolumes.
  destruct (for_each _ secret_volumes) as [secret_pod_volumes|] eqn:Hsv
    in Hvolumes; [|discriminate].
  cbn [mbind result_bind] in Hvolumes. injection Hvolumes as <-.
  rewrite !map_app, !elem_of_app.
  rewrite !elem_of_app in Hmount.
  destruct Hmount as [[[Hin|Hin]|Hin]|Hin].
  - left. left. left.
    destruct (proj1 (for_each_one _ _ _ _ Hd) _ Hin)
      as (volume & name & Hvolume & Hname & ->).
    cbn [mount_name].
    destruct (proj2 (for_each_one _ (fun n x => (n, x)) _ _ Hnd) _ Hvolume)
      as (name' & Hname' & Hnamed).
    rewrite Hname in Hname'. injection Hname' as <-.
    destruct (dict_of_facts named_docker) as (_ & Hkeys & _).
    assert (Hkey : name ∈ (dict_of named_docker).*1).
    { apply Hkeys, list_elem_of_fmap. exists (name, volume). auto. }
    apply list_elem_of_fmap in Hkey as ([k v] & -> & Hkv).
    apply list_elem_of_fmap. exists (host_path_volume (k, v)).
    split; [reflexivity|]. apply (list_elem_of_fmap_2 _ _ _ Hkv).
  - left. left. right.
    destruct (proj1 (for_each_one _ _ _ _ Ha) _ Hin)
      as (volume & name & Hvolume & Hname & ->).
    cbn [mount_name].
    destruct (proj2 (for_each_one _ (fun n x => (n, x)) _ _ Hna) _ Hvolume)
      as (name' & Hname' & Hnamed).
    rewrite Hname in Hname'. injection Hname' as <-.
    destruct (dict_of_facts named_aws) as (_ & Hkeys & _).
    assert (Hkey : name ∈ (dict_of named_aws).*1).
    { apply Hkeys, list_elem_of_fmap. exists (name, volume). auto. }
    apply list_elem_of_fmap in Hkey as ([k v] & -> & Hkv).
    apply list_elem_of_fmap. exists (aws_ebs_volume (k, v)).
    split; [reflexivity|]. apply (list_elem_of_fmap_2 _ _ _ Hkv).
  - right.
    destruct (proj1 (for_each_one _ _ _ _ Hp) _ Hin)
      as (volume & name & Hvolume & Hname & ->).
    cbn [mount_name].
    destruct (proj2 (for_each_one _ _ _ _ Htemplates) _ Hvolume)
      as (name' & Hname' & Hclaim).
    rewrite Hname in Hname'. injection Hname' as <-.
    apply list_elem_of_fmap. eexists. split; [|exact Hclaim]. reflexivity.
  - left. right.
    destruct (proj1 (for_each_one _ _ _ _ Hs) _ Hin)
      as (volume & name & Hvolume & Hname & ->).
    cbn [mount_name].
    destruct (proj2 (for_each_one _ (fun v _ => v) _ _ Hsv) _ Hvolume)
      as (pod_volume & Hpod & Hpv).
    apply list_elem_of_fmap. exists pod_volume. split; [|exact Hpv].
    unfold secret_pod_volume in Hpod.
    destruct (match sv_items volume with Some _ => _ | None => _ end)
      as [items|]; [|discriminate].
    cbn [mbind result_bind] in Hpod. rewrite Hname in Hpod.
    cbn [mbind result_bind] in Hpod.
    destruct (mode_to_int _) as [default_mode|]; [|discriminate].
    cbn [mbind result_bind] in Hpod. injection Hpod as <-. reflexivity.
Qed.

Lemma filter_all {A : Type} (p : A → bool) (l : list A) :
  (∀ x, x ∈ l → p x = true) → List.filter p l = l.
Proof.
  induction l as [|x l IH]; intros Hp; [reflexivity|].
  cbn [List.filter]. rewrite (Hp x) by apply list_elem_of_here.
  rewrite IH; [reflexivity|]. intros y Hy. apply Hp, elem_of_cons. auto.
Qed.

Lemma filter_none {A : Type} (p : A → bool) (l : list A) :
  (∀ x, x ∈ l → p x = false) → List.filter p l = [].
Proof.
  induction l as [|x l IH]; intros Hp; [reflexivity|].
  cbn [List.filter]. rewrite (Hp x) by apply list_elem_of_here.
  apply IH. intros y Hy. apply Hp, elem_of_cons. auto.
Qed.

Lemma secret_pod_volume_sources self secret_volume volume :
  secret_pod_volume self secret_volume = Return volume →
  host_path volume = None ∧ aws_elastic_block_store volume = None.
Proof.
  unfold secret_pod_volume.
  destruct (match sv_items secret_volume with Some _ => _ | None => _ end)
    as [items|]; [|discriminate].
  cbn [mbind result_bind].
  destruct (get_secret_volume_name _) as [name|]; [|discriminate].
  cbn [mbind result_bind].
  destruct (mode_to_int _) as [default_mode|]; [|discriminate].
  cbn [mbind result_bind]. intros [= <-]. split; reflexivity.
Qed.

(** X21.  [get_pod_volumes] declares no host-path volume name twice and
    no EBS volume name twice, even when several configured volumes
    sanitise to one name; every host-path volume is named after a
    configured docker volume and has its host path, and every configured
    docker volume has a host-path volume of its name. *)
Theorem get_pod_volumes_unique_names :
  ∀ self docker_volumes aws_ebs_volumes secret_volumes volumes,
    get_pod_volumes self docker_volumes aws_ebs_volumes secret_volumes
    = Return volumes →
    NoDup (map volume_name
               (List.filter (fun volume => bool_decide (is_Some (host_path volume)))
                            volumes))
    ∧ NoDup (map volume_name
                 (List.filter
                    (fun volume =>
                       bool_decide (is_Some (aws_elastic_block_store volume)))
                    volumes))
    ∧ (∀ volume source,
         volume ∈ volumes → host_path volume = Some source →
         ∃ docker_volume,
           docker_volume ∈ docker_volumes
           ∧ get_docker_volume_name docker_volume
             = Return (volume_name volume)
           ∧ hp_path source = hostPath docker_volume)
    ∧ (∀ docker_volume,
         docker_volume ∈ docker_volumes →
         ∃ volume,
           volume ∈ volumes
           ∧ is_Some (host_path volume)
           ∧ get_docker_volume_name docker_volume
             = Return (volume_name volume)).
Proof.
  intros self docker_volumes aws_ebs_volumes secret_volumes volumes Hvolumes.
  unfold get_pod_volumes in Hvolumes.
  destruct (for_each _ docker_volumes) as [named_docker|] eqn:Hnd in Hvolumes;
    [|discriminate].
  cbn [mbind result_bind] in Hvolumes.
  destruct (for_each _ aws_ebs_volumes) as [named_aws|] eqn:Hna in Hvolumes;
    [|discriminate].
  cbn [mbind result_bind] in Hvolumes.
  destruct (for_each _ secret_volumes) as [secrets|] eqn:Hsv
    in Hvolumes; [|discriminate].
  cbn [mbind result_bind] in Hvolumes. injection Hvolumes as <-.
  destruct (dict_of_facts named_docker) as (Hnodup_d & Hkeys_d & Helems_d).
  destruct (dict_of_facts named_aws) as (Hnodup_a & _ & _).
  assert (Hsecret : ∀ volume,
            volume ∈ secrets →
            host_path volume = None ∧ aws_elastic_block_store volume = None).
  { intros volume Hin.
    destruct (proj1 (for_each_one _ (fun v _ => v) _ _ Hsv) _ Hin)
      as (secret_volume & volume' & _ & Hpod & ->).
    apply (secret_pod_volume_sources _ _ _ Hpod). }
  assert (Hnames_d : map volume_name (map host_path_volume
                                          (dict_of named_docker))
                     = (dict_of named_docker).*1).
  { rewrite map_map. reflexivity. }
  assert (Hnames_a : map volume_name (map aws_ebs_volume (dict_of named_aws))
                     = (dict_of named_aws).*1).
  { rewrite map_map. reflexivity. }
  split; [|split; [|split]].
  - rewrite !List.filter_app.
    rewrite (filter_all _ (map host_path_volume _)).
    2:{ intros v ([k dv] & -> & _)%list_elem_of_fmap. reflexivity. }
    rewrite (filter_none _ (map aws_ebs_volume _)).
    2:{ intros v ([k dv] & -> & _)%list_elem_of_fmap. reflexivity. }
    rewrite (filter_none _ secrets).
    2:{ intros v Hv. destruct (Hsecret v Hv) as [-> _]. reflexivity. }
    rewrite !app_nil_r, Hnames_d. exact Hnodup_d.
  - rewrite !List.filter_app.
    rewrite (filter_none _ (map host_path_volume _)).
    2:{ intros v ([k dv] & -> & _)%list_elem_of_fmap. reflexivity. }
    rewrite (filter_all _ (map aws_ebs_volume _)).
    2:{ intros v ([k dv] & -> & _)%list_elem_of_fmap. reflexivity. }
    rewrite (filter_none _ secrets).
    2:{ intros v Hv. destruct (Hsecret v Hv) as [_ ->]. reflexivity. }
    rewrite app_nil_r. cbn [app]. rewrite Hnames_a. exact Hnodup_a.
  - intros volume source Hin Hsource.
    rewrite !elem_of_app in Hin. destruct Hin as [[Hin|Hin]|Hin].
    + apply list_elem_of_fmap in Hin as ([name dv] & -> & Hkv).
      cbn in Hsource. injection Hsource as <-. cbn [volume_name hp_path].
      apply Helems_d in Hkv.
      destruct (proj1 (for_each_one _ (fun n x => (n, x)) _ _ Hnd) _ Hkv)
        as (dv' & name' & Hdv & Hname & [= -> ->]).
      exists dv'. auto.
    + apply list_elem_of_fmap in Hin as ([name dv] & -> & _). discriminate.
    + destruct (Hsecret volume Hin) as [Hnone _]. congruence.
  - intros docker_volume Hin.
    destruct (proj2 (for_each_one _ (fun n x => (n, x)) _ _ Hnd) _ Hin)
      as (name & Hname & Hnamed).
    assert (Hkey : name ∈ (dict_of named_docker).*1).
    { apply Hkeys_d, list_elem_of_fmap. exists (name, docker_volume). auto. }
    apply list_elem_of_fmap in Hkey as ([k dv] & -> & Hkv).
    exists (host_path_volume (k, dv)). split; [|split].
    + rewrite !elem_of_app. left. left.
      apply (list_elem_of_fmap_2 _ _ _ Hkv).
    + cbn. eauto.
    + exact Hname.
Qed.

End VolumeFacts.

Lemma get_volume_mounts_are_declared_witness :
  let mount :=
    {| mount_path := "/etc/nail"; mount_name := "host--slash-nailslash-etc";
       mount_read_only := false |} in
  match @get_pod_volumes example_hashlib example_py_int
          (example_config empty_config_dict) example_docker_volumes []
          example_secret_volumes,
        @get_volume_claim_templates example_hashlib
          (example_volume_config example_persistent_volume_dicts)
          (example_config empty_config_dict) with
  | Return volumes, Return templates =>
      mount_name mount ∈ map volume_name volumes
      ∨ mount_name mount ∈ map claim_name templates
  | _, _ => False
  end.
Proof.
  intros mount.
  destruct (@get_pod_volumes example_hashlib example_py_int
              (example_config empty_config_dict) example_docker_volumes []
              example_secret_volumes) as [volumes|e] eqn:Hvolumes;
    [|vm_compute in Hvolumes; discriminate Hvolumes].
  destruct (@get_volume_claim_templates example_hashlib
              (example_volume_config example_persistent_volume_dicts)
              (example_config empty_config_dict)) as [templates|e]
    eqn:Htemplates; [|vm_compute in Htemplates; discriminate Htemplates].
  refine (get_volume_mounts_are_declared
            (H := example_hashlib) (H0 := example_py_int)
            (H1 := example_volume_config example_persistent_volume_dicts)
            (example_config empty_config_dict) example_docker_volumes []
            example_secret_volumes _ volumes templates _ Hvolumes Htemplates
            mount _).
  - vm_compute. reflexivity.
  - apply list_elem_of_further, list_elem_of_here.
Defined.

Lemma get_pod_volumes_unique_names_witness :
  let volumes :=
    [ {| volume_name := "host--slash-nailslash-etc";
         host_path := Some {| hp_path := "/nail/etc/" |};
         aws_elastic_block_store := None;
         secret := None |};
      {| volume_name := "secret--api--key";
         host_path := None;
         aws_elastic_block_store := None;
         secret :=
           Some {| svs_secret_name := "paasta-secret-example--service-api--key";
                   svs_default_mode := Some 384;
                   svs_items := None |} |} ] in
  @get_pod_volumes example_hashlib example_py_int
    (example_config empty_config_dict) example_docker_volumes []
    example_secret_volumes
  = Return volumes
  ∧ NoDup (map volume_name
               (List.filter
                  (fun volume => bool_decide (is_Some (host_path volume)))
                  volumes)).
Proof.
  intros volumes.
  assert (Hvolumes : @get_pod_volumes example_hashlib example_py_int
                       (example_config empty_config_dict)
                       example_docker_volumes [] example_secret_volumes
                     = Return volumes) by (vm_compute; reflexivity).
  split; [exact Hvolumes|].
  exact (proj1 (get_pod_volumes_unique_names
                  (H := example_hashlib) (H0 := example_py_int)
                  (example_config empty_config_dict) example_docker_volumes
                  [] example_secret_volumes volumes Hvolumes)).
Defined.

(** ** Pod disruption budget: the upper bound *)

Section PositiveFloatFacts.

(** A right shift by fewer bits than the mantissa has keeps it positive
    and takes that many digits off. *)
Lemma Zdigits2_shift m k :
  0 < m → 0 ≤ k → k < Zdigits2 m →
  0 < m / 2 ^ k ∧ Zdigits2 (m / 2 ^ k) = Zdigits2 m - k.
Proof.
  intros Hm Hk Hlt. rewrite (Zdigits2_log2 m Hm) in Hlt |- *.
  pose proof (Z.log2_spec m Hm) as [Hlow _].
  assert (Hpow : 2 ^ k ≤ m).
  { eapply Z.le_trans; [|exact Hlow]. apply Z.pow_le_mono_r; lia. }
  assert (Hq : 0 < m / 2 ^ k).
  { apply Z.div_str_pos. split; [apply Z.pow_pos_nonneg; lia | exact Hpow]. }
  split; [exact Hq|].
  rewrite (Zdigits2_log2 _ Hq).
  rewrite <- Z.shiftr_div_pow2 by exact Hk.
  rewrite Z.log2_shiftr by exact Hm. lia.
Qed.

Lemma shr_fexp_keeps m e l :
  0 < m → emin prec emax < Zdigits2 m + e →
  0 < shr_m (fst (shr_fexp prec emax m e l))
  ∧ Zdigits2 (shr_m (fst (shr_fexp prec emax m e l)))
    + snd (shr_fexp prec emax m e l)
    = Zdigits2 m + e
  ∧ emin prec emax ≤ snd (shr_fexp prec emax m e l).
Proof.
  intros Hm Hmag.
  destruct (shr_fexp_spec m e l ltac:(lia)) as (k & Hk & -> & -> & Hmax).
  pose proof (Zdigits2_pos m Hm) as Hd.
  assert (Hlt : k < Zdigits2 m).
  { assert (Hprec : 0 < prec) by reflexivity. unfold fexp in Hmax. lia. }
  destruct (Zdigits2_shift m k Hm Hk Hlt) as [Hq Hdig].
  split; [exact Hq|]. split; [lia|].
  rewrite Hmax. unfold fexp. lia.
Qed.

(** Rounding a positive mantissa above the underflow threshold gives a
    positive float of at least its magnitude. *)
Lemma binary_round_aux_above m e l L :
  0 < m → L ≤ Zdigits2 m + e → emin prec emax < L →
  float_above L (binary_round_aux prec emax false m e l) = true.
Proof.
  intros Hm HL Hmin. unfold binary_round_aux.
  destruct (shr_fexp_keeps m e l Hm ltac:(lia)) as (Hpos1 & Hdig1 & Hmin1).
  destruct (shr_fexp prec emax m e l) as [mrs1 e1]. cbn [fst snd] in *.

  set (m1 := round_nearest_even (shr_m mrs1) (loc_of_shr_record mrs1)).
  pose proof (round_nearest_even_bounds (shr_m mrs1) (loc_of_shr_record mrs1))
    as Hr. fold m1 in Hr.
  assert (Hm1 : 0 < m1) by lia.
  assert (Hd1 : Zdigits2 (shr_m mrs1) ≤ Zdigits2 m1)
    by (apply Zdigits2_mono; lia).
  destruct (shr_fexp_keeps m1 e1 loc_Exact Hm1 ltac:(lia))
    as (Hpos2 & Hdig2 & Hmin2).
  destruct (shr_fexp prec emax m1 e1 loc_Exact) as [mrs2 e2].
  cbn [fst snd] in *.
  destruct (shr_m mrs2) as [|p|p]; try lia.
  destruct (e2 <=? emax - prec); [|reflexivity].
  cbn [float_above]. apply Z.leb_le.
  change (Z.pos (digits2_pos p)) with (Zdigits2 (Z.pos p)). lia.
Qed.

Lemma Z_to_float_above n : 1 ≤ n → float_above 1 (Z_to_float n) = true.
Proof.
  intros Hn. unfold Z_to_float, binary_normalize.
  destruct n as [|p|p]; try lia. unfold binary_round.
  pose proof (shl_align_magnitude p 0
                (fexp prec emax (Z.pos (digits2_pos p) + 0))) as [_ Hdig].

  destruct (shl_align p 0 _) as [mz ez]. cbn [fst snd] in *.
  apply binary_round_aux_above; [lia | | unfold emin, emax, prec; lia].
  pose proof (Zdigits2_pos (Z.pos p) ltac:(lia)). lia.
Qed.

Lemma unit_interval_above x :
  in_unit_interval x = true → float_above (emin prec emax + 1) x = true.
Proof.
  unfold in_unit_interval.
  destruct x as [s| | |s m e]; cbn [valid_binary SFltb SFleb SFcompare];
    try (rewrite ?andb_false_r; discriminate).
  - destruct s; cbn; rewrite ?andb_false_r; discriminate.
  - destruct s; [rewrite andb_false_r; cbn; discriminate|].
    rewrite !andb_true_iff. intros [[Hvalid _] _].
    unfold bounded, canonical_mantissa in Hvalid.
    apply andb_true_iff in Hvalid as [Hcanon _].
    apply Z.eqb_eq in Hcanon.
    cbn [float_above]. apply Z.leb_le.
    unfold fexp in Hcanon. lia.
Qed.

(** Digits of a product, from below. *)
Lemma Zdigits2_mul_lower a b :
  0 < a → 0 < b → Zdigits2 a + Zdigits2 b - 1 ≤ Zdigits2 (a * b).
Proof.
  intros Ha Hb.
  rewrite !Zdigits2_log2 by lia.
  pose proof (Z.log2_spec a Ha) as [Hla _].
  pose proof (Z.log2_spec b Hb) as [Hlb _].
  pose proof (Z.log2_nonneg a). pose proof (Z.log2_nonneg b).
  assert (Hle : 2 ^ (Z.log2 a + Z.log2 b) ≤ a * b).
  { rewrite Z.pow_add_r by assumption.
    apply Z.mul_le_mono_nonneg; try assumption;
      apply Z.pow_nonneg; lia. }
  assert (Z.log2 a + Z.log2 b ≤ Z.log2 (a * b)); [|lia].
  apply Z.log2_le_pow2; [lia | exact Hle].
Qed.

Lemma float_mul_above Lx Ly x y :
  float_above Lx x = true → float_above Ly y = true →
  is_finite x = true → is_finite y = true →
  emin prec emax < Lx + Ly - 1 →
  float_above (Lx + Ly - 1) (float_mul x y) = true.
Proof.
  intros Hx Hy Hfx Hfy Hmin. unfold float_mul, SFmul.
  destruct x as [sx| | |[] mx ex], y as [sy| | |[] my ey]; try discriminate.
  cbn [float_above xorb] in *. apply Z.leb_le in Hx, Hy.
  apply binary_round_aux_above; [lia | | exact Hmin].
  pose proof (Zdigits2_mul_lower (Z.pos mx) (Z.pos my) ltac:(lia) ltac:(lia))
    as Hd.
  cbn [Zdigits2] in Hd. rewrite Pos2Z.inj_mul. cbn [Zdigits2] in *. lia.
Qed.

(** The ceiling of a positive number is at least one. *)
Lemma math_ceil_above L x c :
  float_above L x = true → math_ceil x = Return c → 1 ≤ c.
Proof.
  destruct x as [s|[]| |[] m e]; try discriminate.
  intros _ [= <-]. cbn [cond_Zopp].
  assert (Z.shiftl (- Z.pos m) e ≤ -1); [|lia].
  destruct (Z.le_gt_cases 0 e) as [He|He].
  - rewrite Z.shiftl_mul_pow2 by exact He.
    pose proof (Z.pow_pos_nonneg 2 e ltac:(lia) He). nia.
  - rewrite Z.shiftl_div_pow2 by lia.
    pose proof (Z.pow_pos_nonneg 2 (- e) ltac:(lia) ltac:(lia)) as Hp.
    apply Z.lt_succ_r. apply Z.div_lt_upper_bound; [exact Hp|]. lia.
Qed.

(** X22.  For at least two instances (fewer than [2^1021]) and a margin
    factor in (0, 1], [max_unavailable] returns a count between 1 and the
    instance count less one: the disruption budget never lets every
    instance go at once.  For one instance it returns 1. *)
Theorem max_unavailable_below_instance_count :
  ∀ (n : Z) (f : float),
    1 ≤ n → n < 2 ^ 1021 → in_unit_interval f = true →
    ∃ k, max_unavailable n f = Return k
         ∧ 1 ≤ k ∧ k ≤ Z.max (n - 1) 1.
Proof.
  intros n f Hpos Hn Hf. unfold max_unavailable.
  rewrite (proj2 (Z.eqb_neq n 0)) by lia.
  destruct (float_of_int_returns n 1021) as [-> Hw];
    [lia | lia | unfold emax; lia |].
  cbn [mbind result_bind].
  pose proof (unit_interval_within f Hf) as Hfw.
  destruct (math_ceil_returns (float_mul (Z_to_float n) f)) as [c Hc].
  - apply (float_within_finite 1024 (emax - prec)).
    apply (float_mul_within 1022 (emax - prec) 1 (-52));
      [exact Hw | exact Hfw | unfold emin, emax, prec; lia..].
  - rewrite Hc. cbn [mbind result_bind]. eexists. split; [reflexivity|].
    assert (Hone : 1 ≤ c).
    { apply (math_ceil_above (1 + (emin prec emax + 1) - 1) _ _) in Hc;
        [exact Hc|].
      apply float_mul_above.
      - apply Z_to_float_above. exact Hpos.
      - apply unit_interval_above, Hf.
      - apply (float_within_finite _ _ _ Hw).
      - apply (float_within_finite _ _ _ Hfw).
      - unfold emin, emax, prec. lia. }
    lia.
Qed.

End PositiveFloatFacts.

Lemma max_unavailable_below_instance_count_witness :
  ∃ k, max_unavailable 10 float_0_9 = Return k ∧ 1 ≤ k ∧ k ≤ 9.
Proof.
  apply (max_unavailable_below_instance_count 10 float_0_9).
  - lia.
  - lia.
  - reflexivity.
Defined.

(** ** Sidecar resources *)

Section SidecarFacts.
Context `{SidecarConfig}.

Lemma dict_get_update {V : Type} (d other : list (string * V)) k :
  dict_get k (dict_update d other)
  = match dict_get k (dict_of other) with
    | Some v => Some v
    | None => dict_get k d
    end.
Proof.
  unfold dict_update, dict_of. rewrite !(dict_get_fold_set fst snd).
  destruct (last _); reflexivity.
Qed.

(** X23.  [get_sidecar_resource_requirements] never raises.  For each of
    ["cpu"], ["memory"] and ["ephemeral-storage"] the request is the
    configured request of the sidecar, else the default (0.1, 1024Mi,
    256Mi), and the limit is the configured limit, else the request; any
    other key is a request or a limit only where it is configured as
    one. *)
Theorem get_sidecar_resource_requirements_fallbacks :
  ∀ (self : KubernetesDeploymentConfig) (sidecar_name : string),
    let config :=
      default {| sr_requests := None; sr_limits := None |}
              (dict_get sidecar_name
                        (default [] (sidecar_resource_requirements self))) in
    let configured_requests := dict_of (default [] (sr_requests config)) in
    let configured_limits := dict_of (default [] (sr_limits config)) in
    ∃ resources,
      get_sidecar_resource_requirements self sidecar_name = Return resources
      ∧ ∀ k,
          dict_get k (rr_requests resources)
          = match dict_get k configured_requests with
            | Some v => Some v
            | None => dict_get k default_sidecar_requests
            end
          ∧ dict_get k (rr_limits resources)
            = match dict_get k configured_limits with
              | Some v => Some v
              | None =>
                  if bool_decide (k ∈ ["cpu"; "memory"; "ephemeral-storage"])
                  then dict_get k (rr_requests resources)
                  else None
              end.
Proof.
  intros self sidecar_name config configured_requests configured_limits.
  unfold get_sidecar_resource_requirements. fold config.
  set (requests := dict_update default_sidecar_requests _).
  assert (Hrequests : ∀ k,
            dict_get k requests
            = match dict_get k configured_requests with
              | Some v => Some v
              | None => dict_get k default_sidecar_requests
              end).
  { intros k. apply dict_get_update. }
  assert (Hbound : ∀ k, k ∈ ["cpu"; "memory"; "ephemeral-storage"] →
                        ∃ v, dict_get k requests = Some v).
  { intros k Hk. rewrite Hrequests.
    destruct (dict_get k configured_requests) as [v|]; [eauto|].
    rewrite !elem_of_cons, elem_of_nil in Hk.
    destruct Hk as [->|[->|[->|[]]]]; eexists; reflexivity. }
  destruct (Hbound "cpu") as [cpu Hcpu]; [set_solver|].
  destruct (Hbound "memory") as [memory Hmemory]; [set_solver|].
  destruct (Hbound "ephemeral-storage") as [storage Hstorage]; [set_solver|].
  unfold dict_item. rewrite Hcpu, Hmemory, Hstorage.
  cbn [mbind result_bind]. eexists. split; [reflexivity|].
  intros k. cbn [rr_requests rr_limits]. split; [apply Hrequests|].
  rewrite dict_get_update. fold configured_limits.
  destruct (dict_get k configured_limits) as [v|]; [reflexivity|].
  cbn [dict_get].
  destruct (String.eqb_spec "cpu" k) as [<-|H1].
  { rewrite bool_decide_eq_true_2 by set_solver. symmetry. exact Hcpu. }
  destruct (String.eqb_spec "memory" k) as [<-|H2].
  { rewrite bool_decide_eq_true_2 by set_solver. symmetry. exact Hmemory. }
  destruct (String.eqb_spec "ephemeral-storage" k) as [<-|H3].
  { rewrite bool_decide_eq_true_2 by set_solver. symmetry. exact Hstorage. }
  rewrite bool_decide_eq_false_2; [reflexivity|].
  rewrite !elem_of_cons, elem_of_nil. intros [?|[?|[?|[]]]]; congruence.
Qed.

End SidecarFacts.
